(** * Folder organizer: classification, relocation and undo

    A shallow embedding of [folder-organizer/folder_organizer.py] and the
    properties its specification states about it.

    Conventions of the embedding.
    - Python [str] is [string]; [str.lower] is modelled on the ASCII letters,
      which is what Python does on ASCII text.  On other text Python also
      lowers letters outside ASCII, depending on their neighbours, so what
      is said below of the lower-cased pieces of a name is said of ASCII
      names where it would fail otherwise.
    - A [pathlib.Path] is the list of its components, counted from the
      root: a relative path is identified with the path it resolves to, so
      the organizer sees the same files whichever way its directories were
      named.  Where the program turns a name into a path itself (the
      arguments of the command line, the name of the undo script) the
      working directory is a parameter, [cwd]; in the examples it is the
      root unless said otherwise.  [..] and symbolic links are not
      resolved (pathlib does not resolve them either).
    - [Path.suffix] and [Path.stem] follow the definition of Python 3.8 to
      3.13: the suffix starts at the last dot of the name, provided that dot
      is neither the first nor the last character.
    - A dictionary whose iteration order the code relies on ([categories],
      [size_ranges], [patterns]) is an association list in declared order;
      the statistics dictionary, only ever read by key, is a [gmap].
    - The file system is a finite map from paths to nodes.  Every operation
      the code calls on it returns either a new file system or the exception
      it raises.  The undo script the program writes is written into it
      like any other file.
    - The generated undo script is run from the working directory the
      organizer ran in. *)

From stdpp Require Import gmap strings list fin_maps pretty sorting.
From Stdlib Require Import ZArith Ascii.

Open Scope string_scope.
Open Scope list_scope.
Open Scope nat_scope.

(** ** Python strings *)

Module Str.

Definition lower_ascii (c : ascii) : ascii :=
  let n := nat_of_ascii c in
  if ((65 <=? n) && (n <=? 90))%bool then ascii_of_nat (n + 32) else c.

(** [s.lower()] *)
Fixpoint lower (s : string) : string :=
  match s with
  | EmptyString => EmptyString
  | String c s' => String (lower_ascii c) (lower s')
  end.

(** [p in s] on two strings: [p] occurs in [s] as a contiguous block. *)
Fixpoint contains (s p : string) : bool :=
  if String.prefix p s then true
  else match s with
       | EmptyString => false
       | String _ s' => contains s' p
       end.

(** [s.startswith(p)] *)
Definition startswith (s p : string) : bool := String.prefix p s.

(** [s.rfind(c)] for a single character, [None] standing for [-1]. *)
Fixpoint rfind (c : ascii) (s : string) : option nat :=
  match s with
  | EmptyString => None
  | String a s' =>
      match rfind c s' with
      | Some i => Some (S i)
      | None => if Ascii.eqb a c then Some 0 else None
      end
  end.

(** [s[:n]] and [s[n:]] *)
Fixpoint take (n : nat) (s : string) : string :=
  match n, s with
  | S n', String c s' => String c (take n' s')
  | _, _ => EmptyString
  end.

Fixpoint drop (n : nat) (s : string) : string :=
  match n, s with
  | S n', String _ s' => drop n' s'
  | _, _ => s
  end.

(** [s.endswith(p)] *)
Definition endswith (s p : string) : bool :=
  String.eqb (drop (String.length s - String.length p) s) p.

(** [s.split(sep)] for a single character separator; [cur] accumulates the
    piece being read. *)
Fixpoint split_go (sep : ascii) (cur : string) (s : string) : list string :=
  match s with
  | EmptyString => [cur]
  | String c s' =>
      if Ascii.eqb c sep then cur :: split_go sep EmptyString s'
      else split_go sep (cur +:+ String c EmptyString) s'
  end.

Definition split (sep : ascii) (s : string) : list string :=
  split_go sep EmptyString s.

End Str.

(** ** pathlib *)

Abbreviation path := (list string).

Module Path.

(** [p.name]: the final component, empty for the root. *)
Definition name (p : path) : string := List.last p "".

(** The position at which [suffix] cuts the name, if it cuts at all. *)
Definition suffix_index (nm : string) : option nat :=
  match Str.rfind "." nm with
  | Some i =>
      if ((0 <? i) && (i <? String.length nm - 1))%bool
      then Some i else None
  | None => None
  end.

Definition name_suffix (nm : string) : string :=
  match suffix_index nm with
  | Some i => Str.drop i nm
  | None => ""
  end.

Definition name_stem (nm : string) : string :=
  match suffix_index nm with
  | Some i => Str.take i nm
  | None => nm
  end.

(** [p.suffix] and [p.stem] *)
Definition suffix (p : path) : string := name_suffix (name p).
Definition stem (p : path) : string := name_stem (name p).

(** The components a string contributes when it is parsed as a path:
    empty components and [.] are dropped. *)
Definition parts (s : string) : path :=
  List.filter (fun x => negb (String.eqb x "" || String.eqb x ".")%bool)
              (Str.split "/" s).

(** [p / s] for an arbitrary string [s]: an absolute [s] replaces [p]. *)
Definition joinpath (p : path) (s : string) : path :=
  if Str.startswith s "/" then parts s else p ++ parts s.

(** [p / nm] where [nm] is a single component (a file name taken from a
    path, or built from its stem and suffix). *)
Definition child (p : path) (nm : string) : path := p ++ [nm].

(** [p.parent] *)
Definition parent (p : path) : path := List.removelast p.

(** Paths are ordered as the lists of their components, components by
    code point; [sorted] uses this order. *)
Fixpoint compare (p q : path) : comparison :=
  match p, q with
  | [], [] => Eq
  | [], _ :: _ => Lt
  | _ :: _, [] => Gt
  | a :: p', b :: q' =>
      match String.compare a b with
      | Eq => compare p' q'
      | c => c
      end
  end.

Definition leb (p q : path) : bool :=
  match compare p q with Gt => false | _ => true end.

End Path.

(** ** Classification

    Each strategy's inner [for ... break] loop over its configuration is a
    recursive function over the association list, returning at the first
    matching entry and falling to the default set before the loop. *)

(** A size bound: a Python [int], or [float('inf')]. *)
Inductive num := Int (z : Z) | Inf.

Definition num_le (a b : num) : bool :=
  match a, b with
  | Int x, Int y => (x <=? y)%Z
  | Int _, Inf => true
  | Inf, Int _ => false
  | Inf, Inf => true
  end.

Definition num_lt (a b : num) : bool :=
  match a, b with
  | Int x, Int y => (x <? y)%Z
  | Int _, Inf => true
  | Inf, _ => false
  end.

(** [file_ext in extensions] on a list of strings. *)
Definition mem (x : string) (l : list string) : bool := bool_decide (x ∈ l).

Definition DEFAULT_CATEGORIES : list (string * list string) :=
  [ ("Images", [".jpg"; ".jpeg"; ".png"; ".gif"; ".bmp"; ".tiff"; ".webp"; ".svg"; ".ico"; ".heic"]);
    ("Documents", [".pdf"; ".doc"; ".docx"; ".txt"; ".rtf"; ".odt"; ".pages"]);
    ("Spreadsheets", [".xls"; ".xlsx"; ".csv"; ".ods"; ".numbers"]);
    ("Presentations", [".ppt"; ".pptx"; ".odp"; ".key"]);
    ("Videos", [".mp4"; ".avi"; ".mkv"; ".mov"; ".wmv"; ".flv"; ".webm"; ".m4v"]);
    ("Audio", [".mp3"; ".wav"; ".flac"; ".aac"; ".ogg"; ".wma"; ".m4a"]);
    ("Archives", [".zip"; ".rar"; ".7z"; ".tar"; ".gz"; ".bz2"; ".xz"]);
    ("Code", [".py"; ".js"; ".html"; ".css"; ".cpp"; ".java"; ".php"; ".rb"; ".go"; ".rs"]);
    ("Executables", [".exe"; ".msi"; ".deb"; ".rpm"; ".dmg"; ".pkg"; ".app"]);
    ("Fonts", [".ttf"; ".otf"; ".woff"; ".woff2"; ".eot"]) ].

(** [organize_by_type], lines 80-85. *)
Fixpoint type_folder (categories : list (string * list string)) (file_ext : string) : string :=
  match categories with
  | [] => "Others"
  | (category, extensions) :: rest =>
      if mem file_ext extensions then category else type_folder rest file_ext
  end.

Definition DEFAULT_SIZE_RANGES : list (string * (num * num)) :=
  [ ("Small (< 1MB)", (Int 0, Int (1024 * 1024)));
    ("Medium (1-10MB)", (Int (1024 * 1024), Int (10 * 1024 * 1024)));
    ("Large (10-100MB)", (Int (10 * 1024 * 1024), Int (100 * 1024 * 1024)));
    ("Very Large (> 100MB)", (Int (100 * 1024 * 1024), Inf)) ]%Z.

(** [organize_by_size], lines 144-148. *)
Fixpoint size_folder (size_ranges : list (string * (num * num))) (file_size : Z) : string :=
  match size_ranges with
  | [] => "Unknown Size"
  | (range_name, (min_size, max_size)) :: rest =>
      if (num_le min_size (Int file_size) && num_lt (Int file_size) max_size)%bool
      then range_name else size_folder rest file_size
  end.

(** [organize_by_name_pattern], lines 172-176; [filename] is already
    lower-cased by the caller. *)
Fixpoint pattern_folder (patterns : list (string * string)) (filename : string) : string :=
  match patterns with
  | [] => "Others"
  | (folder_name, pattern) :: rest =>
      if Str.contains filename (Str.lower pattern) then folder_name
      else pattern_folder rest filename
  end.

(** The custom-rules document.  A key that may be missing from a JSON
    object is an [option]. *)
Record conditions := Conditions {
  extensions : option (list string);
  name_contains : option string;
  size_range : option (num * num)
}.

Record rule := Rule {
  rule_conditions : option conditions;
  rule_folder : option string
}.

Record rules := Rules {
  default_folder : option string;
  rules_list : option (list rule)
}.

Definition no_conditions : conditions := Conditions None None None.

(** The body of the loop of [_apply_custom_rules], lines 214-230: the value
    of [match] after the three checks. *)
Definition rule_match (c : conditions) (filename file_ext : string) (file_size : Z) : bool :=
  let match_ := true in
  let match_ :=
    match extensions c with
    | Some exts => if negb (mem file_ext exts) then false else match_
    | None => match_
    end in
  let match_ :=
    match name_contains c with
    | Some s =>
        if match_ then
          if negb (Str.contains filename (Str.lower s)) then false else match_
        else match_
    | None => match_
    end in
  let match_ :=
    match size_range c with
    | Some (min_size, max_size) =>
        if match_ then
          if negb (num_le min_size (Int file_size) && num_le (Int file_size) max_size)%bool
          then false else match_
        else match_
    | None => match_
    end in
  match_.

Fixpoint first_rule (l : list rule) (filename file_ext : string) (file_size : Z) : option string :=
  match l with
  | [] => None
  | r :: rest =>
      let conds := default no_conditions (rule_conditions r) in
      let folder := default "Others" (rule_folder r) in
      if rule_match conds filename file_ext file_size then Some folder
      else first_rule rest filename file_ext file_size
  end.

(** [_apply_custom_rules] once the name and the size of the file are known. *)
Definition custom_folder (rs : rules) (nm : string) (file_size : Z) : string :=
  let filename := Str.lower nm in
  let file_ext := Str.lower (Path.name_suffix nm) in
  match first_rule (default [] (rules_list rs)) filename file_ext file_size with
  | Some folder => folder
  | None => default "Others" (default_folder rs)
  end.

(** ** The file system *)

Inductive exn :=
| FileNotFoundError
| FileExistsError
| NotADirectoryError
| IsADirectoryError
| SameFileError
| ShutilError
| OtherError (msg : string).

(** What [os.stat] reports and the code reads. *)
Record stat_result := Stat { st_size : Z; st_mtime : Z; st_ctime : Z }.

(** A regular file carries its metadata and its contents; a directory is
    just present.  A file keeps its metadata when it is renamed or copied
    ([copy2] preserves it; the change time the system itself maintains is
    not tracked). *)
Inductive node :=
| File (st : stat_result) (data : string)
| Dir.

Abbreviation filesystem := (gmap path node).

Global Instance exn_eq_dec : EqDecision exn.
Proof. solve_decision. Defined.

Global Instance stat_result_eq_dec : EqDecision stat_result.
Proof. solve_decision. Defined.

Global Instance node_eq_dec : EqDecision node.
Proof. solve_decision. Defined.

Module FS.

(** [p.exists()] *)
Definition exists_ (fs : filesystem) (p : path) : bool :=
  match fs !! p with Some _ => true | None => false end.

(** [p.is_file()] and [p.is_dir()] *)
Definition is_file (fs : filesystem) (p : path) : bool :=
  match fs !! p with Some (File _ _) => true | _ => false end.

Definition is_dir (fs : filesystem) (p : path) : bool :=
  match fs !! p with Some Dir => true | _ => false end.

(** The metadata of a directory is never read by the organizer, which
    stats only what [get_files] returned; it is a constant here. *)
Definition dir_stat : stat_result := Stat 0 0 0.

(** [p.stat()] *)
Definition stat (fs : filesystem) (p : path) : exn + stat_result :=
  match fs !! p with
  | Some (File st _) => inr st
  | Some Dir => inr dir_stat
  | None => inl FileNotFoundError
  end.

(** The path itself and its ancestors, the root first. *)
Definition ancestors (p : path) : list path :=
  List.map (fun n => take n p) (seq 0 (S (length p))).

(** One directory of [mkdir(parents=True, exist_ok=True)]: an existing
    directory is accepted, a missing one is created, a regular file in
    the way raises. *)
Definition mkdir_one (p : path) (acc : exn + filesystem) (d : path) : exn + filesystem :=
  match acc with
  | inl e => inl e
  | inr fs =>
      match fs !! d with
      | Some Dir => inr fs
      | Some (File _ _) =>
          inl (if decide (d = p) then FileExistsError else NotADirectoryError)
      | None => inr (<[d := Dir]> fs)
      end
  end.

(** [p.mkdir(parents=True, exist_ok=True)] *)
Definition mkdir (fs : filesystem) (p : path) : exn + filesystem :=
  foldl (mkdir_one p) (inr fs) (ancestors p).

(** [is_prefix p q]: [q] is [p] or lies below it. *)
Fixpoint is_prefix (p q : path) : bool :=
  match p, q with
  | [], _ => true
  | a :: p', b :: q' => bool_decide (a = b) && is_prefix p' q'
  | _ :: _, [] => false
  end.

(** Renaming a directory carries everything below it along. *)
Definition rename_tree (fs : filesystem) (src dst : path) : filesystem :=
  list_to_map
    (List.map (fun kv : path * node =>
                 (if is_prefix src kv.1 then dst ++ drop (length src) kv.1 else kv.1, kv.2))
              (map_to_list fs)).

(** [os.rename(src, dst)] *)
Definition rename (fs : filesystem) (src dst : path) : exn + filesystem :=
  match fs !! src with
  | None => inl FileNotFoundError
  | Some (File st data) =>
      match fs !! Path.parent dst with
      | None => inl FileNotFoundError
      | Some (File _ _) => inl NotADirectoryError
      | Some Dir =>
          match fs !! dst with
          | Some Dir => inl IsADirectoryError
          | _ => inr (<[dst := File st data]> (delete src fs))
          end
      end
  | Some Dir =>
      match fs !! Path.parent dst with
      | None => inl FileNotFoundError
      | Some (File _ _) => inl NotADirectoryError
      | Some Dir =>
          if is_prefix src dst then inl ShutilError
          else match fs !! dst with
               | Some (File _ _) => inl NotADirectoryError
               | Some Dir => inl FileExistsError
               | None => inr (rename_tree fs src dst)
               end
      end
  end.

(** [shutil.move(src, dst)]: into [dst] when that is a directory,
    otherwise a rename. *)
Definition move (fs : filesystem) (src dst : path) : exn + filesystem :=
  if is_dir fs dst then
    let real_dst := Path.child dst (Path.name src) in
    if exists_ fs real_dst then inl ShutilError else rename fs src real_dst
  else rename fs src dst.

(** [shutil.copy2(src, dst)] *)
Definition copy2 (fs : filesystem) (src dst : path) : exn + filesystem :=
  let dst := if is_dir fs dst then Path.child dst (Path.name src) else dst in
  match fs !! src with
  | None => inl FileNotFoundError
  | Some Dir => inl IsADirectoryError
  | Some (File st data) =>
      if bool_decide (src = dst) then inl SameFileError
      else match fs !! dst with
           | Some Dir => inl IsADirectoryError
           | _ =>
               match fs !! Path.parent dst with
               | None => inl FileNotFoundError
               | Some (File _ _) => inl NotADirectoryError
               | Some Dir => inr (<[dst := File st data]> fs)
               end
           end
  end.

(** [open(name, 'w')] on a name given as a string, taken from the working
    directory [cwd] when it is relative, and what is written up to
    [close]: the file is created, or what it held is replaced, and [st] is
    its metadata from then on.  Opening raises on a directory and where the
    parent is missing or is no directory; the empty name is no file, and a
    name that ends in a separator can only be a directory. *)
Definition write_text (fs : filesystem) (cwd : path) (name : string)
    (st : stat_result) (text : string) : exn + filesystem :=
  let p := Path.joinpath cwd name in
  if String.eqb name "" then inl FileNotFoundError
  else
    match fs !! p with
    | Some Dir => inl IsADirectoryError
    | found =>
        match fs !! Path.parent p with
        | None => inl FileNotFoundError
        | Some (File _ _) => inl NotADirectoryError
        | Some Dir =>
            if Str.endswith name "/" then
              inl (match found with Some _ => NotADirectoryError | None => IsADirectoryError end)
            else inr (<[p := File st text]> fs)
        end
    end.

(** [dir.glob("*")] and [dir.glob("**/*")]: the entries directly in, or
    anywhere below, a directory; nothing when [dir] is not a directory. *)
Definition glob (fs : filesystem) (dir : path) (recursive : bool) : list path :=
  if is_dir fs dir then
    List.filter
      (fun p => if recursive
                then is_prefix dir p && negb (bool_decide (p = dir))
                else negb (bool_decide (p = [])) && bool_decide (Path.parent p = dir))
      (List.map fst (map_to_list fs))
  else [].

End FS.

(** ** The organizer *)

(** What the run prints and logs, one constructor per message. *)
Inductive event :=
| Organizing (count : nat) (how : string)
| WouldMove (source_path target_path : path)
| Copied (name target_folder : string)
| Moved (name target_folder : string)
| FailedToMove (name : string) (e : exn)
| FailedToGetDate (name : string) (e : exn)
| FailedToGetSize (name : string) (e : exn)
| NoUndoNeeded
| UndoScriptCreated (output_file : string)
| MovedBack (name : string)
| FileNotFound (file_path : path)
| FailedToMoveBack (file_path : path) (e : exn)
| MovedBackTotal (success_count : nat).

Record FolderOrganizer := Organizer {
  source_dir : path;
  target_dir : path;
  dry_run : bool;
  copy_files : bool;
  moved_files : list path;
  failed_files : list path
}.

(** What a method leaves behind: its return value, the object, the file
    system, and the messages it emitted. *)
Record outcome (A : Type) := Outcome {
  result : A;
  organizer : FolderOrganizer;
  files : filesystem;
  output : list event
}.
Arguments Outcome {A} _ _ _ _.
Arguments result {A} _.
Arguments organizer {A} _.
Arguments files {A} _.
Arguments output {A} _.

(** [FolderOrganizer.__init__]; [target] is [None] when no target directory
    was given. *)
Definition __init__ (fs : filesystem) (source : path) (target : option path)
    (dry copy : bool) : exn + FolderOrganizer :=
  let self := Organizer source (default source target) dry copy [] [] in
  if negb (FS.exists_ fs (source_dir self)) then inl FileNotFoundError
  else inr self.

(** [get_files] *)
Definition get_files (self : FolderOrganizer) (fs : filesystem)
    (recursive include_hidden : bool) : list path :=
  let files :=
    List.filter
      (fun item =>
         FS.is_file fs item &&
         negb (negb include_hidden && Str.startswith (Path.name item) "."))
      (FS.glob fs (source_dir self) recursive) in
  merge_sort (fun p q => Is_true (Path.leb p q)) files.

(** The name tried at round [counter] of the conflict loop. *)
Definition numbered (original_target : path) (counter : nat) : string :=
  Path.stem original_target +:+ "_" +:+ pretty counter +:+ Path.suffix original_target.

(** The loop of [_move_file], lines 252-256.  [fuel] bounds the number of
    rounds; [None] means the bound was reached. *)
Fixpoint while_exists (fuel : nat) (dry : bool) (fs : filesystem)
    (target_dir original_target target_path : path) (counter : nat) : option path :=
  if FS.exists_ fs target_path && negb dry then
    match fuel with
    | O => None
    | S fuel' =>
        while_exists fuel' dry fs target_dir original_target
          (Path.child target_dir (numbered original_target counter)) (S counter)
    end
  else Some target_path.

(** The target path after the loop.  The loop cannot run more rounds than
    there are entries in the file system (see [while_exists_terminates]), so
    the default is never taken. *)
Definition resolve (dry : bool) (fs : filesystem) (target_dir target_path : path) : path :=
  default target_path
    (while_exists (S (size fs)) dry fs target_dir target_path target_path 1).

Definition record_failure {A} (r : A) (self : FolderOrganizer) (fs : filesystem)
    (source_path : path) (ev : event) : outcome A :=
  Outcome r
    (Organizer (source_dir self) (target_dir self) (dry_run self) (copy_files self)
               (moved_files self) (failed_files self ++ [source_path]))
    fs [ev].

Definition record_move (self : FolderOrganizer) (target_path : path) : FolderOrganizer :=
  Organizer (source_dir self) (target_dir self) (dry_run self) (copy_files self)
            (moved_files self ++ [target_path]) (failed_files self).

(** [_move_file] *)
Definition _move_file (self : FolderOrganizer) (fs : filesystem)
    (source_path : path) (target_folder : string) : outcome bool :=
  let failed fs e :=
    record_failure false self fs source_path (FailedToMove (Path.name source_path) e) in
  let tdir := Path.joinpath (target_dir self) target_folder in
  match (if dry_run self then inr fs else FS.mkdir fs tdir) with
  | inl e => failed fs e
  | inr fs1 =>
      let target_path := Path.child tdir (Path.name source_path) in
      let target_path := resolve (dry_run self) fs1 tdir target_path in
      if dry_run self then
        Outcome true self fs1 [WouldMove source_path target_path]
      else if copy_files self then
        match FS.copy2 fs1 source_path target_path with
        | inl e => failed fs1 e
        | inr fs2 =>
            Outcome true (record_move self target_path) fs2
                    [Copied (Path.name source_path) target_folder]
        end
      else
        match FS.move fs1 source_path target_path with
        | inl e => failed fs1 e
        | inr fs2 =>
            Outcome true (record_move self target_path) fs2
                    [Moved (Path.name source_path) target_folder]
        end
  end.

(** ** The five strategies

    Each [organize_by_*] method is a [for] loop over [get_files]; the loop
    is a left fold of its body over the file list, the accumulator holding
    the statistics dictionary, the object, the file system and the output
    so far. *)

Abbreviation stats := (gmap string nat).

(** [stats[k] = stats.get(k, 0) + 1] *)
Definition count (k : string) (st : stats) : stats :=
  <[k := S (default 0 (st !! k))]> st.

(** The two lines every loop body ends with: relocate, and count on
    success. *)
Definition relocate (acc : outcome stats) (file_path : path) (target_folder : string)
    : outcome stats :=
  let r := _move_file (organizer acc) (files acc) file_path target_folder in
  Outcome (if result r then count target_folder (result acc) else result acc)
          (organizer r) (files r) (output acc ++ output r).

(** The [except] clause of the date and size loops. *)
Definition skip (acc : outcome stats) (file_path : path) (ev : event) : outcome stats :=
  let r := record_failure tt (organizer acc) (files acc) file_path ev in
  Outcome (result acc) (organizer r) (files r) (output acc ++ output r).

Definition start (self : FolderOrganizer) (fs : filesystem) (n : nat) (how : string)
    : outcome stats :=
  Outcome ∅ self fs [Organizing n how].

Definition by_type_body (categories : list (string * list string))
    (acc : outcome stats) (file_path : path) : outcome stats :=
  let file_ext := Str.lower (Path.suffix file_path) in
  let target_folder := type_folder categories file_ext in
  relocate acc file_path target_folder.

Definition organize_by_type_loop (categories : list (string * list string))
    (self : FolderOrganizer) (fs : filesystem) (file_list : list path) : outcome stats :=
  foldl (by_type_body categories) (start self fs (length file_list) "type") file_list.

(** [organize_by_type]; [categories] is [None] for the default table. *)
Definition organize_by_type (self : FolderOrganizer) (fs : filesystem)
    (categories : option (list (string * list string)))
    (recursive include_hidden : bool) : outcome stats :=
  organize_by_type_loop (default DEFAULT_CATEGORIES categories) self fs
    (get_files self fs recursive include_hidden).

Section Date.

(** [datetime.fromtimestamp(timestamp).strftime(date_format)], which may
    raise. *)
Variable strftime : string → Z → exn + string.

Definition by_date_body (date_format : string) (use_creation_date : bool)
    (acc : outcome stats) (file_path : path) : outcome stats :=
  let failed e := skip acc file_path (FailedToGetDate (Path.name file_path) e) in
  match FS.stat (files acc) file_path with
  | inl e => failed e
  | inr st =>
      let timestamp := if use_creation_date then st_ctime st else st_mtime st in
      match strftime date_format timestamp with
      | inl e => failed e
      | inr folder_name => relocate acc file_path folder_name
      end
  end.

Definition organize_by_date_loop (date_format : string) (use_creation_date : bool)
    (self : FolderOrganizer) (fs : filesystem) (file_list : list path) : outcome stats :=
  foldl (by_date_body date_format use_creation_date)
        (start self fs (length file_list) "date") file_list.

(** [organize_by_date] *)
Definition organize_by_date (self : FolderOrganizer) (fs : filesystem)
    (date_format : string) (use_creation_date recursive include_hidden : bool)
    : outcome stats :=
  organize_by_date_loop date_format use_creation_date self fs
    (get_files self fs recursive include_hidden).

End Date.

Definition by_size_body (size_ranges : list (string * (num * num)))
    (acc : outcome stats) (file_path : path) : outcome stats :=
  match FS.stat (files acc) file_path with
  | inl e => skip acc file_path (FailedToGetSize (Path.name file_path) e)
  | inr st =>
      let file_size := st_size st in
      let target_folder := size_folder size_ranges file_size in
      relocate acc file_path target_folder
  end.

Definition organize_by_size_loop (size_ranges : list (string * (num * num)))
    (self : FolderOrganizer) (fs : filesystem) (file_list : list path) : outcome stats :=
  foldl (by_size_body size_ranges) (start self fs (length file_list) "size") file_list.

(** [organize_by_size]; [size_ranges] is [None] for the default ranges. *)
Definition organize_by_size (self : FolderOrganizer) (fs : filesystem)
    (size_ranges : option (list (string * (num * num))))
    (recursive include_hidden : bool) : outcome stats :=
  organize_by_size_loop (default DEFAULT_SIZE_RANGES size_ranges) self fs
    (get_files self fs recursive include_hidden).

Definition by_name_pattern_body (patterns : list (string * string))
    (acc : outcome stats) (file_path : path) : outcome stats :=
  let filename := Str.lower (Path.name file_path) in
  let target_folder := pattern_folder patterns filename in
  relocate acc file_path target_folder.

Definition organize_by_name_pattern_loop (patterns : list (string * string))
    (self : FolderOrganizer) (fs : filesystem) (file_list : list path) : outcome stats :=
  foldl (by_name_pattern_body patterns)
        (start self fs (length file_list) "name patterns") file_list.

(** [organize_by_name_pattern] *)
Definition organize_by_name_pattern (self : FolderOrganizer) (fs : filesystem)
    (patterns : list (string * string)) (recursive include_hidden : bool) : outcome stats :=
  organize_by_name_pattern_loop patterns self fs
    (get_files self fs recursive include_hidden).

(** [_apply_custom_rules]: the size is read first, and a failure to read it
    is not caught. *)
Definition _apply_custom_rules (fs : filesystem) (file_path : path) (rs : rules)
    : exn + string :=
  match FS.stat fs file_path with
  | inl e => inl e
  | inr st => inr (custom_folder rs (Path.name file_path) (st_size st))
  end.

(** The loop of [organize_by_custom_rules].  An exception leaves the loop
    and the method; what was done before it stays done. *)
Fixpoint organize_by_custom_rules_loop (rs : rules) (file_list : list path)
    (acc : outcome stats) : outcome (exn + stats) :=
  match file_list with
  | [] => Outcome (inr (result acc)) (organizer acc) (files acc) (output acc)
  | file_path :: rest =>
      match _apply_custom_rules (files acc) file_path rs with
      | inl e => Outcome (inl e) (organizer acc) (files acc) (output acc)
      | inr target_folder =>
          organize_by_custom_rules_loop rs rest (relocate acc file_path target_folder)
      end
  end.

(** [organize_by_custom_rules]; [loaded] is what opening and parsing the
    rules file gave. *)
Definition organize_by_custom_rules (self : FolderOrganizer) (fs : filesystem)
    (loaded : exn + rules) (recursive include_hidden : bool) : outcome (exn + stats) :=
  match loaded with
  | inl e => Outcome (inl e) self fs []
  | inr rs =>
      let file_list := get_files self fs recursive include_hidden in
      organize_by_custom_rules_loop rs file_list
        (start self fs (length file_list) "custom rules")
  end.

(** [get_stats] *)
Record counts := Counts { count_moved_files : nat; count_failed_files : nat }.

Definition get_stats (self : FolderOrganizer) : counts :=
  Counts (length (moved_files self)) (length (failed_files self)).

(** ** The undo script

    [create_undo_script] writes a Python script into the working
    directory.  The script embeds the move log, as the [repr] of the list
    of its strings, and the source directory, as its string between double
    quotes (line 294); the rest of its text is fixed.  A script is
    represented by these two values; what running it does with them is
    [run_script] below. *)
Record undo_script := UndoScript {
  script_moved_files : list path;
  script_source_dir : path
}.

(** [Path(s)], counted from the root: a relative name is taken from the
    working directory. *)
Definition path_of (cwd : path) (s : string) : path := Path.joinpath cwd s.

Section Script.

(** The file that [create_undo_script] makes of a move log and a source
    directory: its metadata once closed, and its text, lines 283-324 with
    the two values filled in; or, for a text that cannot be encoded, the
    exception [f.write] raises, which leaves the file opened and empty. *)
Variable script_file : list path → path → stat_result * (exn + string).

(** The working directory. *)
Variable cwd : path.

(** [create_undo_script]; [result] is the script written, [None] when
    there was nothing to write. *)
Definition create_undo_script (self : FolderOrganizer) (fs : filesystem)
    (output_file : string) : outcome (exn + option undo_script) :=
  match moved_files self with
  | [] => Outcome (inr None) self fs [NoUndoNeeded]
  | _ :: _ =>
      let (st, text) := script_file (moved_files self) (source_dir self) in
      match text with
      | inr text =>
          match FS.write_text fs cwd output_file st text with
          | inl e => Outcome (inl e) self fs []
          | inr fs' =>
              Outcome (inr (Some (UndoScript (moved_files self) (source_dir self))))
                      self fs' [UndoScriptCreated output_file]
          end
      | inl e =>
          match FS.write_text fs cwd output_file st "" with
          | inl e' => Outcome (inl e') self fs []
          | inr fs' => Outcome (inl e) self fs' []
          end
      end
  end.

End Script.

(** The conflict loop as the script has it, lines 306-310. *)
Fixpoint undo_while_exists (fuel : nat) (fs : filesystem)
    (source_dir original_target target_path : path) (counter : nat) : option path :=
  if FS.exists_ fs target_path then
    match fuel with
    | O => None
    | S fuel' =>
        undo_while_exists fuel' fs source_dir original_target
          (Path.child source_dir (numbered original_target counter)) (S counter)
    end
  else Some target_path.

(** What the script has done so far: the file system, [success_count], and
    what it printed. *)
Record undo_state := UndoState {
  undo_files : filesystem;
  success_count : nat;
  undo_output : list event
}.

(** The body of the script's loop, lines 298-318. *)
Definition undo_body (source_dir : path) (acc : undo_state) (file_path : path) : undo_state :=
  let fs := undo_files acc in
  if FS.exists_ fs file_path then
    let target_path := Path.child source_dir (Path.name file_path) in
    let target_path :=
      default target_path
        (undo_while_exists (S (size fs)) fs source_dir target_path target_path 1) in
    match FS.move fs file_path target_path with
    | inl e =>
        UndoState fs (success_count acc)
                  (undo_output acc ++ [FailedToMoveBack file_path e])
    | inr fs' =>
        UndoState fs' (S (success_count acc))
                  (undo_output acc ++ [MovedBack (Path.name file_path)])
    end
  else
    UndoState fs (success_count acc) (undo_output acc ++ [FileNotFound file_path]).

(** [undo_organization], the function the script runs, on the two values
    as the script has read them. *)
Definition undo_organization (script : undo_script) (fs : filesystem) : undo_state :=
  let r := foldl (undo_body (script_source_dir script)) (UndoState fs 0 [])
                 (script_moved_files script) in
  UndoState (undo_files r) (success_count r)
            (undo_output r ++ [MovedBackTotal (success_count r)]).

(** The characters that a string literal between double quotes holds as
    they stand: the printable ASCII characters other than the double quote
    (code 34) and the backslash (code 92). *)
Definition plain_char (c : ascii) : bool :=
  let n := nat_of_ascii c in
  (32 <=? n) && (n <? 127) && negb (n =? 34) && negb (n =? 92).

Fixpoint plain (s : string) : bool :=
  match s with
  | EmptyString => true
  | String c s' => plain_char c && plain s'
  end.

Definition plain_path (p : path) : bool := forallb plain p.

Section Reading.

(** What Python makes of line 294 for a source directory whose string is
    not plain: the path the literal denotes once its escapes are read, or
    the error of a literal that does not parse. *)
Variable source_literal : path → exn + path.

(** The source directory as the script reads it back.  The move log is
    written with [repr] and is read back as it was. *)
Definition reread (source_dir : path) : exn + path :=
  if plain_path source_dir then inr source_dir else source_literal source_dir.

(** Running the script that was written, from the working directory it
    was written in: nothing is done when the script does not parse. *)
Definition run_script (script : undo_script) (fs : filesystem) : exn + undo_state :=
  match reread (script_source_dir script) with
  | inl e => inl e
  | inr source_dir =>
      inr (undo_organization (UndoScript (script_moved_files script) source_dir) fs)
  end.

End Reading.

(** ** The command line's choice of strategy

    [main] runs exactly one of the five methods.  A [strategy] is that
    choice together with the configuration the method takes. *)
Inductive strategy :=
| ByType (categories : option (list (string * list string)))
| ByDate (date_format : string) (use_creation_date : bool)
| BySize (size_ranges : option (list (string * (num * num))))
| ByName (patterns : list (string * string))
| ByCustomRules (loaded : exn + rules).

Definition returned {A : Type} (r : outcome A) : outcome (exn + A) :=
  Outcome (inr (result r)) (organizer r) (files r) (output r).

(** The loop of the chosen method over a given listing. *)
Definition organize_loop (strftime : string → Z → exn + string) (s : strategy)
    (self : FolderOrganizer) (fs : filesystem) (file_list : list path)
    : outcome (exn + stats) :=
  match s with
  | ByType categories =>
      returned (organize_by_type_loop (default DEFAULT_CATEGORIES categories)
                                      self fs file_list)
  | ByDate date_format use_creation_date =>
      returned (organize_by_date_loop strftime date_format use_creation_date
                                      self fs file_list)
  | BySize size_ranges =>
      returned (organize_by_size_loop (default DEFAULT_SIZE_RANGES size_ranges)
                                      self fs file_list)
  | ByName patterns =>
      returned (organize_by_name_pattern_loop patterns self fs file_list)
  | ByCustomRules (inl e) => Outcome (inl e) self fs []
  | ByCustomRules (inr rs) =>
      organize_by_custom_rules_loop rs file_list
        (start self fs (length file_list) "custom rules")
  end.

(** The dispatch of [main], lines 431-460. *)
Definition organize (strftime : string → Z → exn + string) (s : strategy)
    (self : FolderOrganizer) (fs : filesystem) (recursive include_hidden : bool)
    : outcome (exn + stats) :=
  match s with
  | ByType categories =>
      returned (organize_by_type self fs categories recursive include_hidden)
  | ByDate date_format use_creation_date =>
      returned (organize_by_date strftime self fs date_format use_creation_date
                                 recursive include_hidden)
  | BySize size_ranges =>
      returned (organize_by_size self fs size_ranges recursive include_hidden)
  | ByName patterns =>
      returned (organize_by_name_pattern self fs patterns recursive include_hidden)
  | ByCustomRules loaded =>
      organize_by_custom_rules self fs loaded recursive include_hidden
  end.

(** A run that returned, followed by [create_undo_script] as [main] calls
    it and by the script it wrote, run from the same working directory on
    the file system as the write left it; [None] when no script was
    written. *)
Definition run_then_undo
    (script_file : list path → path → stat_result * (exn + string))
    (source_literal : path → exn + path) (cwd : path)
    (strftime : string → Z → exn + string) (s : strategy)
    (self : FolderOrganizer) (fs : filesystem) (recursive include_hidden : bool)
    : option (exn + undo_state) :=
  let run := organize strftime s self fs recursive include_hidden in
  match result run with
  | inl _ => None
  | inr _ =>
      let made :=
        create_undo_script script_file cwd (organizer run) (files run)
                           "undo_organization.py" in
      match result made with
      | inr (Some script) => Some (run_script source_literal script (files made))
      | _ => None
      end
  end.

(** ** What the specification says of the classifier

    The specification describes every table-driven strategy in the same
    words: the entries are tried in declared order, the first one that
    matches decides, and a fallback is returned when none does.
    [first_match P l r] says that [r] is the first entry of [l] satisfying
    [P], or [None] when no entry does. *)

Inductive first_match {A : Type} (P : A → Prop) : list A → option A → Prop :=
| first_match_nil : first_match P [] None
| first_match_here a l : P a → first_match P (a :: l) (Some a)
| first_match_later a l r : ¬ P a → first_match P l r → first_match P (a :: l) r.

(** The half-open interval [[lo, hi)] and the closed interval [[lo, hi]] of
    file sizes. *)
Definition in_half_open (lo hi : num) (x : Z) : Prop :=
  match lo with Int a => (a ≤ x)%Z | Inf => False end ∧
  match hi with Int b => (x < b)%Z | Inf => True end.

Definition in_closed (lo hi : num) (x : Z) : Prop :=
  match lo with Int a => (a ≤ x)%Z | Inf => False end ∧
  match hi with Int b => (x ≤ b)%Z | Inf => True end.

(** [p] occurs in [s], case ignored. *)
Definition occurs_ignoring_case (p s : string) : Prop :=
  ∃ a b, Str.lower s = a +:+ Str.lower p +:+ b.

Definition folder_or {A : Type} (name_of : A → string) (fallback : string)
    (r : option A) : string :=
  match r with Some e => name_of e | None => fallback end.

(** By type: the first category whose extension set contains the
    lower-cased extension, else "Others". *)
Definition type_assigned (categories : list (string * list string)) (nm : string)
    (folder : string) : Prop :=
  ∃ r, first_match (fun e => Str.lower (Path.name_suffix nm) ∈ e.2) categories r ∧
       folder = folder_or fst "Others" r.

(** By size: the first range containing the size, else "Unknown Size". *)
Definition size_assigned (size_ranges : list (string * (num * num))) (file_size : Z)
    (folder : string) : Prop :=
  ∃ r, first_match (fun e => in_half_open e.2.1 e.2.2 file_size) size_ranges r ∧
       folder = folder_or fst "Unknown Size" r.

(** By name pattern: the first folder whose substring occurs in the name,
    else "Others". *)
Definition pattern_assigned (patterns : list (string * string)) (nm : string)
    (folder : string) : Prop :=
  ∃ r, first_match (fun e => occurs_ignoring_case e.2 nm) patterns r ∧
       folder = folder_or fst "Others" r.

(** By custom rules: every condition that is present holds. *)
Definition conditions_hold (c : conditions) (nm : string) (file_size : Z) : Prop :=
  (∀ exts, extensions c = Some exts → Str.lower (Path.name_suffix nm) ∈ exts) ∧
  (∀ s, name_contains c = Some s → occurs_ignoring_case s nm) ∧
  (∀ lo hi, size_range c = Some (lo, hi) → in_closed lo hi file_size).

Definition rule_holds (nm : string) (file_size : Z) (r : rule) : Prop :=
  conditions_hold (default no_conditions (rule_conditions r)) nm file_size.

(** The first rule whose conditions hold gives the folder, else the
    configured default folder, itself "Others" when none is configured. *)
Definition custom_assigned (rs : rules) (nm : string) (file_size : Z)
    (folder : string) : Prop :=
  ∃ r, first_match (rule_holds nm file_size) (default [] (rules_list rs)) r ∧
       folder = folder_or (fun r => default "Others" (rule_folder r))
                          (default "Others" (default_folder rs)) r.

(** ** Vocabulary of the properties *)

(** [fs'] holds everything [fs] holds, and possibly new directories. *)
Definition grows_by_dirs (fs fs' : filesystem) : Prop :=
  ∀ q, fs' !! q = fs !! q ∨ (fs !! q = None ∧ fs' !! q = Some Dir).

(** The object's configuration, which no method changes. *)
Definition same_settings (a b : FolderOrganizer) : Prop :=
  source_dir a = source_dir b ∧ target_dir a = target_dir b ∧
  dry_run a = dry_run b ∧ copy_files a = copy_files b.

(** The messages of the [except] clauses of the date and size loops. *)
Definition is_failure (ev : event) : Prop :=
  match ev with
  | FailedToGetDate _ _ | FailedToGetSize _ _ => True
  | _ => False
  end.

(** [steps acc l acc']: starting from [acc], each file of [l] in turn was
    either handed to the relocation with some folder or skipped as
    unreadable, which led to [acc'].  Every loop proceeds this way. *)
Inductive steps : outcome stats → list path → outcome stats → Prop :=
| steps_done acc : steps acc [] acc
| steps_relocate acc file_path folder l acc' :
    steps (relocate acc file_path folder) l acc' → steps acc (file_path :: l) acc'
| steps_skip acc file_path ev l acc' :
    is_failure ev →
    steps (skip acc file_path ev) l acc' → steps acc (file_path :: l) acc'.

(** The target paths a run first planned, read off its "Moved" and
    "Copied" messages: the target root, the folder, the file's own name. *)
Definition planned_target (target : path) (ev : event) : option path :=
  match ev with
  | Moved nm folder | Copied nm folder =>
      Some (Path.child (Path.joinpath target folder) nm)
  | _ => None
  end.

Definition planned_targets (target : path) (out : list event) : list path :=
  omap (planned_target target) out.

Definition is_regular (n : node) : Prop :=
  match n with File _ _ => True | Dir => False end.

(** ** Concrete inputs used in the examples below *)

(** The rule set of the specification's example. *)
Definition work_rules : rules :=
  Rules (Some "Others")
        (Some [Rule (Some (Conditions (Some [".docx"]) (Some "work") None)) (Some "Work")]).

Definition file_of_size (n : Z) : node := File (Stat n 1700000000 1700000000) "".

(** A source directory holding four files of the sizes the specification
    names. *)
Definition sizes_fs : filesystem :=
  list_to_map
    [ ([], Dir); (["src"], Dir);
      (["src"; "a.bin"], file_of_size 500000);
      (["src"; "b.bin"], file_of_size 5000000);
      (["src"; "c.bin"], file_of_size 200000000);
      (["src"; "d.bin"], file_of_size 1048576) ].

(** A source directory holding the two documents of the custom-rules
    example. *)
Definition work_fs : filesystem :=
  list_to_map
    [ ([], Dir); (["src"], Dir);
      (["src"; "work_report.docx"], file_of_size 2048);
      (["src"; "report.docx"], file_of_size 2048) ].

(** A run that only reports: the default of the command line. *)
Definition dry_organizer (source : path) : FolderOrganizer :=
  Organizer source source true false [] [].

(** A source directory that is a regular file. *)
Definition file_as_source_fs : filesystem :=
  list_to_map [ ([], Dir); (["src"], file_of_size 10) ].

(** A rule document with a default folder of its own and no rules. *)
Definition misc_rules : rules := Rules (Some "Misc") (Some []).

(** A state of the size loop whose next file has vanished since it was
    listed. *)
Definition stale_listing : outcome stats :=
  start (dry_organizer ["src"]) sizes_fs 1 "size".

(** A stand-in for [strftime] in the examples: the year a timestamp falls
    in, counting 31,556,952 seconds to the year. *)
Definition year_of (date_format : string) (timestamp : Z) : exn + string :=
  inr (pretty (1970 + timestamp / 31556952)%Z).

(** A target root in which a regular file named "Documents" stands where
    the directory of that name would have to be created. *)
Definition blocked_fs : filesystem :=
  list_to_map
    [ ([], Dir); (["src"], Dir); (["out"], Dir);
      (["out"; "Documents"], file_of_size 1);
      (["src"; "a.txt"], File (Stat 10 0 0) "a");
      (["src"; "b.png"], File (Stat 20 0 0) "b");
      (["src"; "c.txt"], File (Stat 30 0 0) "c") ].

Definition live_organizer (source target : path) (copy : bool) : FolderOrganizer :=
  Organizer source target false copy [] [].

(** Two photographs of the same name in two subdirectories of the source;
    the target root does not exist yet. *)
Definition photos_fs : filesystem :=
  list_to_map
    [ ([], Dir); (["Source"], Dir); (["Source"; "a"], Dir); (["Source"; "b"], Dir);
      (["Source"; "a"; "photo.jpg"], File (Stat 10 0 0) "first");
      (["Source"; "b"; "photo.jpg"], File (Stat 20 0 0) "second") ].

(** A photograph whose name is already taken in the target folder. *)
Definition taken_fs : filesystem :=
  list_to_map
    [ ([], Dir); (["Source"], Dir); (["Target"], Dir); (["Target"; "Images"], Dir);
      (["Target"; "Images"; "photo.jpg"], File (Stat 10 0 0) "old");
      (["Source"; "photo.jpg"], File (Stat 20 0 0) "new") ].

(** Three files in a source directory, to be organized into a separate
    target root. *)
Definition tidy_fs : filesystem :=
  list_to_map
    [ ([], Dir); (["src"], Dir);
      (["src"; "a.txt"], File (Stat 10 0 0) "a");
      (["src"; "b.png"], File (Stat 20 0 0) "b");
      (["src"; "c.txt"], File (Stat 30 0 0) "c") ].

(** A source directory, organized in place, one of whose files bears the
    name of a category. *)
Definition shadow_fs : filesystem :=
  list_to_map
    [ ([], Dir); (["src"], Dir);
      (["src"; "Images"], File (Stat 10 0 0) "list of images");
      (["src"; "b.png"], File (Stat 20 0 0) "picture") ].

(** Two files of the same name and of different sizes, one of them in a
    subdirectory. *)
Definition nested_fs : filesystem :=
  list_to_map
    [ ([], Dir); (["src"], Dir); (["src"; "sub"], Dir);
      (["src"; "x.bin"], File (Stat 500000 0 0) "small");
      (["src"; "sub"; "x.bin"], File (Stat 20000000 0 0) "large") ].

(** A stand-in for the file of the script in the examples, none of which
    looks into its text. *)
Definition short_script (moved_files : list path) (source_dir : path)
    : stat_result * (exn + string) :=
  (Stat 1024 0 0, inr "#!/usr/bin/env python3").

(** A stand-in for the reading of a source directory that is not plain;
    the source directories of the examples all are. *)
Definition unreadable (source_dir : path) : exn + path :=
  inl (OtherError "SyntaxError").

(** The working directory [work] as the source, organized in place,
    holding a file that bears the name [main] gives the undo script. *)
Definition rooted_fs : filesystem :=
  list_to_map
    [ ([], Dir); (["work"], Dir);
      (["work"; "undo_organization.py"], File (Stat 40 0 0) "an older script");
      (["work"; "b.png"], File (Stat 20 0 0) "picture") ].

(** A source directory with a backslash in its name, and what Python
    reads of that name between double quotes: backslash and [t] make a
    tab (code 9). *)
Definition escaped_fs : filesystem :=
  list_to_map
    [ ([], Dir); (["s\tmp"], Dir);
      (["s\tmp"; "a.txt"], File (Stat 10 0 0) "a") ].

Definition tab_literal (source_dir : path) : exn + path :=
  if bool_decide (source_dir = ["s\tmp"])
  then inr ["s" +:+ String (ascii_of_nat 9) "mp"]
  else inl (OtherError "SyntaxError").

(** A source directory whose only file lies in a subdirectory. *)
Definition deep_fs : filesystem :=
  list_to_map
    [ ([], Dir); (["src"], Dir); (["src"; "sub"], Dir);
      (["src"; "sub"; "y.txt"], File (Stat 10 0 0) "y") ].

(** ** The command line

    [main] reads the parsed arguments, constructs the organizer, runs the
    one method the flags select and prints the results.  The sample rule
    document, which nothing reads back in the same run, is represented by
    the document written, and writing it is taken to succeed. *)

(** What [json.loads] returns; the value of a number plays no part. *)
#[local] Unset Elimination Schemes.
Inductive json :=
| JNull
| JBool (b : bool)
| JNumber
| JString (s : string)
| JArray (elements : list json)
| JObject (members : list (string * json)).
#[local] Set Elimination Schemes.

(** Lines 172-176 on the items of the object [--by-name] gave, whose
    values need not be strings: [pattern.lower()] raises on any other
    value, once the loop reaches it. *)
Fixpoint json_pattern_folder (members : list (string * json)) (filename : string)
    : exn + string :=
  match members with
  | [] => inr "Others"
  | (folder_name, JString pattern) :: rest =>
      if Str.contains filename (Str.lower pattern) then inr folder_name
      else json_pattern_folder rest filename
  | _ :: _ => inl (OtherError "AttributeError")
  end.

(** [patterns.items()], which only an object has. *)
Definition items (patterns : json) : exn + list (string * json) :=
  match patterns with
  | JObject members => inr members
  | _ => inl (OtherError "AttributeError")
  end.

(** Lines 169-176 for one file: its folder, or the exception raised on
    the way. *)
Definition json_target_folder (patterns : json) (file_path : path) : exn + string :=
  let filename := Str.lower (Path.name file_path) in
  match items patterns with
  | inl e => inl e
  | inr members => json_pattern_folder members filename
  end.

(** The loop of [organize_by_name_pattern] on whatever [json.loads]
    returned.  An exception leaves the loop and the method; what was done
    before it stays done. *)
Fixpoint organize_by_name_pattern_json_loop (patterns : json) (file_list : list path)
    (acc : outcome stats) : outcome (exn + stats) :=
  match file_list with
  | [] => Outcome (inr (result acc)) (organizer acc) (files acc) (output acc)
  | file_path :: rest =>
      match json_target_folder patterns file_path with
      | inl e => Outcome (inl e) (organizer acc) (files acc) (output acc)
      | inr target_folder =>
          organize_by_name_pattern_json_loop patterns rest
            (relocate acc file_path target_folder)
      end
  end.

(** [organize_by_name_pattern] as [main] calls it, line 450. *)
Definition organize_by_name_pattern_json (self : FolderOrganizer) (fs : filesystem)
    (patterns : json) (recursive include_hidden : bool) : outcome (exn + stats) :=
  let file_list := get_files self fs recursive include_hidden in
  organize_by_name_pattern_json_loop patterns file_list
    (start self fs (length file_list) "name patterns").

(** The items of an object whose values are all strings. *)
Fixpoint strings (members : list (string * json)) : option (list (string * string)) :=
  match members with
  | [] => Some []
  | (folder_name, JString pattern) :: rest =>
      match strings rest with
      | Some l => Some ((folder_name, pattern) :: l)
      | None => None
      end
  | _ :: _ => None
  end.

(** The document [create_sample_rules] writes, as [organize_by_custom_rules]
    reads it back.  The keys [description] and [name], which the reader
    never looks at, are left out. *)
Definition sample_rules : rules :=
  Rules (Some "Others")
    (Some
       [ Rule (Some (Conditions (Some [".docx"; ".xlsx"; ".pptx"]) (Some "work") None))
              (Some "Work");
         Rule (Some (Conditions (Some [".png"; ".jpg"]) (Some "screenshot") None))
              (Some "Screenshots");
         Rule (Some (Conditions (Some [".mp4"; ".avi"; ".mkv"]) None
                                (Some (Int (100 * 1024 * 1024), Inf))))
              (Some "Large Videos");
         Rule (Some (Conditions (Some [".py"; ".js"; ".html"; ".css"]) None None))
              (Some "Projects") ]).

(** What [main] prints and logs: the messages of the organizer, and its
    own.  The lines of the result table are carried as the dictionary they
    are printed from. *)
Inductive message :=
| Said (ev : event)
| SampleRulesCreated (output_file : string)
| NoMethodSpecified
| OrganizationResults (st : stats)
| FailedToOrganize (n : nat)
| DryRunNotice
| Error (e : exn).

(** [create_sample_rules]: the file written, as its name and the document,
    and the message. *)
Definition create_sample_rules (output_file : string) : (string * rules) * list message :=
  ((output_file, sample_rules), [SampleRulesCreated output_file]).

(** The namespace [parse_args] returns. *)
Module Args.
Record t := Make {
  source_dir : string;
  target_dir : option string;
  by_type : bool;
  by_date : bool;
  by_size : bool;
  by_name : option string;
  custom_rules : option string;
  date_format : string;
  use_creation_date : bool;
  recursive : bool;
  include_hidden : bool;
  copy : bool;
  execute : bool;
  create_undo : bool;
  create_sample_rules : option string
}.
End Args.

(** The truth value of an optional string argument: false for [None] and
    for the empty string. *)
Definition truthy (s : option string) : bool :=
  match s with
  | Some s => negb (String.eqb s "")
  | None => false
  end.

(** How [main] ends: the exit status (0 when it returns, 1 after
    [exit(1)]), the file system it leaves, the undo script included, what
    was printed, and the files it wrote itself, as what they say: the
    sample document under its name, and the undo script. *)
Record finished := Finished {
  status : nat;
  disk : filesystem;
  printed : list message;
  sample_written : option (string * rules);
  script_written : option undo_script
}.

Section Main.

(** [datetime.fromtimestamp(timestamp).strftime(date_format)] *)
Variable strftime : string → Z → exn + string.

(** [json.loads] on the argument of [--by-name]. *)
Variable json_loads : string → exn + json.

(** Opening the rules file and parsing it, for a file that holds a
    document of the shape [rules] records. *)
Variable load_rules : filesystem → string → exn + rules.

(** The file of the undo script, see [create_undo_script]. *)
Variable script_file : list path → path → stat_result * (exn + string).

(** The working directory. *)
Variable cwd : path.

(** Lines 465-477 of [main], and its [except] clause for a method, or for
    [create_undo_script], that raised. *)
Definition show_results (a : Args.t) (run : outcome (exn + stats)) : finished :=
  let said := Said <$> output run in
  match result run with
  | inl e => Finished 1 (files run) (said ++ [Error e]) None None
  | inr st =>
      let org_stats := get_stats (organizer run) in
      let warned :=
        if 0 <? count_failed_files org_stats
        then [FailedToOrganize (count_failed_files org_stats)] else [] in
      let shown := said ++ [OrganizationResults st] ++ warned in
      if negb (Args.execute a) then
        Finished 0 (files run) (shown ++ [DryRunNotice]) None None
      else if Args.create_undo a then
        let made :=
          create_undo_script script_file cwd (organizer run) (files run)
                             "undo_organization.py" in
        match result made with
        | inl e =>
            Finished 1 (files made) (shown ++ (Said <$> output made) ++ [Error e])
                     None None
        | inr script =>
            Finished 0 (files made) (shown ++ (Said <$> output made)) None script
        end
      else Finished 0 (files run) shown None None
  end.

(** [main] *)
Definition main (a : Args.t) (fs : filesystem) : finished :=
  if truthy (Args.create_sample_rules a) then
    let w := create_sample_rules (default "" (Args.create_sample_rules a)) in
    Finished 0 fs w.2 (Some w.1) None
  else
    match __init__ fs (path_of cwd (Args.source_dir a))
                   (if truthy (Args.target_dir a)
                    then Some (path_of cwd (default "" (Args.target_dir a))) else None)
                   (negb (Args.execute a)) (Args.copy a) with
    | inl e => Finished 1 fs [Error e] None None
    | inr organizer =>
        let run s :=
          show_results a (organize strftime s organizer fs
                                   (Args.recursive a) (Args.include_hidden a)) in
        if Args.by_type a then run (ByType None)
        else if Args.by_date a then
          run (ByDate (Args.date_format a) (Args.use_creation_date a))
        else if Args.by_size a then run (BySize None)
        else if truthy (Args.by_name a) then
          match json_loads (default "" (Args.by_name a)) with
          | inl e => Finished 1 fs [Error e] None None
          | inr patterns =>
              show_results a (organize_by_name_pattern_json organizer fs patterns
                                (Args.recursive a) (Args.include_hidden a))
          end
        else if truthy (Args.custom_rules a) then
          run (ByCustomRules (load_rules fs (default "" (Args.custom_rules a))))
        else Finished 0 fs [NoMethodSpecified] None None
    end.

End Main.

(** ** Vocabulary of the further properties *)

Global Instance is_regular_dec n : Decision (is_regular n).
Proof. destruct n; simpl; apply _. Defined.

(** The regular files of a file system, and their number. *)
Definition regular_files (fs : filesystem) : filesystem :=
  filter (fun kv : path * node => is_regular kv.2) fs.

Definition file_count (fs : filesystem) : nat := size (regular_files fs).

(** The sum of the per-folder counts a method returns. *)
Definition total (st : stats) : nat := map_fold (fun _ n acc => n + acc) 0 st.

(** Strictly ascending in the order [sorted] uses. *)
Definition path_lt (p q : path) : Prop := Path.compare p q = Lt.

(** A name that [get_files] passes over unless hidden files are asked
    for. *)
Definition hidden (nm : string) : bool := Str.startswith nm ".".

(** [q] lies in [dir], directly or at any depth. *)
Definition directly_in (dir q : path) : Prop := ∃ nm, q = Path.child dir nm.
Definition below (dir q : path) : Prop := ∃ rest, rest ≠ [] ∧ q = dir ++ rest.

(** A table or a rule with the extensions dropped that are not written in
    lower case. *)
Definition lower_case_only (exts : list string) : list string :=
  List.filter (fun e => bool_decide (Str.lower e = e)) exts.

(** A name written in ASCII, on which [Str.lower] is Python's [lower]. *)
Definition ascii_only (nm : string) : Prop :=
  ∀ c, c ∈ String.list_ascii_of_string nm → nat_of_ascii c < 128.

(** * Properties *)

(** Closed equations are settled by evaluation; equality of finite maps is
    decided rather than compared term by term. *)
Ltac by_evaluation :=
  first [ apply (bool_decide_eq_true_1 _); vm_compute; reflexivity
        | vm_compute; reflexivity ].


(** ** Strings and names *)

Lemma app_cons c s t : String c s +:+ t = String c (s +:+ t).
Proof. reflexivity. Qed.

Lemma app_empty s : "" +:+ s = s.
Proof. reflexivity. Qed.

Lemma prefix_app p s : String.prefix p s = true ↔ ∃ b, s = p +:+ b.
Proof.
  revert s. induction p as [|c p IH]; intros s; simpl.
  - split; [intros _; by exists s | by destruct s].
  - destruct s as [|d s]; simpl.
    + split; [done | intros [b Hb]; discriminate].
    + destruct (ascii_dec c d) as [->|Hne].
      * rewrite IH. split; intros [b Hb]; exists b; rewrite app_cons in *; congruence.
      * split; [done | intros [b Hb]; rewrite app_cons in Hb; congruence].
Qed.

Lemma contains_empty p : Str.contains "" p = String.prefix p "".
Proof. simpl. by destruct p. Qed.

Lemma contains_cons c s p :
  Str.contains (String c s) p =
  if String.prefix p (String c s) then true else Str.contains s p.
Proof. reflexivity. Qed.

Lemma contains_spec s p : Str.contains s p = true ↔ ∃ a b, s = a +:+ p +:+ b.
Proof.
  induction s as [|c s IH].
  - rewrite contains_empty, prefix_app. split.
    + intros [b Hb]. by exists "", b.
    + intros ([|? a] & b & Hab); [|discriminate]. by exists b.
  - rewrite contains_cons. destruct (String.prefix p (String c s)) eqn:Hp.
    + split; [intros _ | done]. apply prefix_app in Hp as [b Hb]. by exists "", b.
    + rewrite IH. split.
      * intros (a & b & ->). by exists (String c a), b.
      * intros ([|d a] & b & Hab).
        -- rewrite app_empty in Hab.
           assert (String.prefix p (String c s) = true) by (apply prefix_app; eauto).
           congruence.
        -- rewrite app_cons in Hab. exists a, b. congruence.
Qed.

Lemma take_drop n s : Str.take n s +:+ Str.drop n s = s.
Proof.
  revert s. induction n as [|n IH]; intros [|c s]; simpl; try done.
  by rewrite app_cons, IH.
Qed.

Lemma stem_suffix nm : Path.name_stem nm +:+ Path.name_suffix nm = nm.
Proof.
  unfold Path.name_stem, Path.name_suffix. destruct (Path.suffix_index nm).
  - apply take_drop.
  - clear. induction nm; [done|]. rewrite app_cons. congruence.
Qed.

Lemma mem_spec x l : mem x l = true ↔ x ∈ l.
Proof. unfold mem. apply bool_decide_eq_true. Qed.

Lemma num_half_open lo hi x :
  (num_le lo (Int x) && num_lt (Int x) hi)%bool = true ↔ in_half_open lo hi x.
Proof.
  unfold in_half_open. destruct lo, hi; simpl;
    rewrite ?andb_true_iff, ?Z.leb_le, ?Z.ltb_lt; intuition congruence.
Qed.

Lemma num_closed lo hi x :
  (num_le lo (Int x) && num_le (Int x) hi)%bool = true ↔ in_closed lo hi x.
Proof.
  unfold in_closed. destruct lo, hi; simpl;
    rewrite ?andb_true_iff, ?Z.leb_le; intuition congruence.
Qed.

(** ** First match *)

Section FirstMatch.
Context {A : Type} (P : A → Prop) (p : A → bool).
Hypothesis reflect_p : ∀ a, p a = true ↔ P a.

Lemma first_match_find l : first_match P l (List.find p l).
Proof.
  induction l as [|a l IH]; simpl; [constructor|].
  destruct (p a) eqn:Hp.
  - constructor. by apply reflect_p.
  - constructor; [|done]. rewrite <- reflect_p. congruence.
Qed.

Lemma first_match_det l r1 r2 : first_match P l r1 → first_match P l r2 → r1 = r2.
Proof.
  intros H1. revert r2. induction H1; intros r2 H2; inversion H2; subst; auto; done.
Qed.

Lemma first_match_iff l r : first_match P l r ↔ r = List.find p l.
Proof.
  split; [|intros ->; apply first_match_find].
  intros H. eapply first_match_det; [done | apply first_match_find].
Qed.

(** What a first match is: everything before it fails, and it holds. *)
Lemma first_match_Some l a :
  first_match P l (Some a) ↔
  ∃ pre post, l = pre ++ a :: post ∧ P a ∧ Forall (fun x => ¬ P x) pre.
Proof.
  split.
  - remember (Some a) as r eqn:Hr. intros H. induction H; [done| |].
    + injection Hr as ->. by exists [], l.
    + destruct (IHfirst_match Hr) as (pre & post & -> & Ha & Hpre).
      exists (a0 :: pre), post. by repeat split; [|constructor].
  - intros (pre & post & -> & Ha & Hpre). induction Hpre; simpl.
    + by constructor.
    + by constructor.
Qed.

Lemma first_match_None l : first_match P l None ↔ Forall (fun x => ¬ P x) l.
Proof.
  split.
  - remember None as r eqn:Hr. intros H. induction H; [constructor|done|].
    constructor; auto.
  - intros H. induction H; by constructor.
Qed.
End FirstMatch.

(** ** The classifier computes the first match *)

Lemma type_folder_find categories file_ext :
  type_folder categories file_ext =
  folder_or fst "Others" (List.find (fun e => mem file_ext e.2) categories).
Proof.
  induction categories as [|[category exts] rest IH]; simpl; [done|].
  destruct (mem file_ext exts); [done | exact IH].
Qed.

Lemma size_folder_find size_ranges file_size :
  size_folder size_ranges file_size =
  folder_or fst "Unknown Size"
    (List.find (fun e => num_le e.2.1 (Int file_size) && num_lt (Int file_size) e.2.2)
               size_ranges).
Proof.
  induction size_ranges as [|[range_name [lo hi]] rest IH]; simpl; [done|].
  destruct (_ && _)%bool; [done | exact IH].
Qed.

Lemma pattern_folder_find patterns filename :
  pattern_folder patterns filename =
  folder_or fst "Others"
    (List.find (fun e => Str.contains filename (Str.lower e.2)) patterns).
Proof.
  induction patterns as [|[folder_name pattern] rest IH]; simpl; [done|].
  destruct (Str.contains filename (Str.lower pattern)); [done | exact IH].
Qed.

Lemma first_rule_find l filename file_ext file_size :
  first_rule l filename file_ext file_size =
  (fun r => default "Others" (rule_folder r)) <$>
  List.find (fun r => rule_match (default no_conditions (rule_conditions r))
                                 filename file_ext file_size) l.
Proof.
  induction l as [|r rest IH]; simpl; [done|].
  destruct (rule_match _ _ _ _); [done | exact IH].
Qed.

(** The three checks of a rule amount to a conjunction. *)
Lemma rule_match_and c filename file_ext file_size :
  rule_match c filename file_ext file_size =
  (match extensions c with Some exts => mem file_ext exts | None => true end &&
   match name_contains c with
   | Some s => Str.contains filename (Str.lower s) | None => true end &&
   match size_range c with
   | Some (lo, hi) => num_le lo (Int file_size) && num_le (Int file_size) hi
   | None => true end)%bool.
Proof.
  unfold rule_match. destruct c as [[exts|] [s|] [[lo hi]|]]; simpl;
    repeat match goal with |- context [if negb ?b then _ else _] => destruct b; simpl end;
    reflexivity.
Qed.

Lemma rule_match_spec c nm file_size :
  rule_match c (Str.lower nm) (Str.lower (Path.name_suffix nm)) file_size = true ↔
  conditions_hold c nm file_size.
Proof.
  rewrite rule_match_and, !andb_true_iff.
  unfold conditions_hold, occurs_ignoring_case.
  destruct c as [e n r]; simpl.
  assert (H1 : match e with
               | Some exts => mem (Str.lower (Path.name_suffix nm)) exts
               | None => true end = true ↔
               ∀ exts, e = Some exts → Str.lower (Path.name_suffix nm) ∈ exts).
  { destruct e as [exts|].
    - rewrite mem_spec. split; [by intros ? ? [= <-] | eauto].
    - split; [done | by intros _]. }
  assert (H2 : match n with
               | Some s => Str.contains (Str.lower nm) (Str.lower s)
               | None => true end = true ↔
               ∀ s, n = Some s → ∃ a b, Str.lower nm = a +:+ Str.lower s +:+ b).
  { destruct n as [s|].
    - rewrite contains_spec. split; [by intros ? ? [= <-] | eauto].
    - split; [done | by intros _]. }
  assert (H3 : match r with
               | Some (lo, hi) =>
                   (num_le lo (Int file_size) && num_le (Int file_size) hi)%bool
               | None => true end = true ↔
               ∀ lo hi, r = Some (lo, hi) → in_closed lo hi file_size).
  { destruct r as [[lo hi]|].
    - rewrite num_closed. split; [by intros ? ? ? [= <- <-] | eauto].
    - split; [done | by intros _]. }
  tauto.
Qed.

Lemma type_folder_assigned categories nm folder :
  type_folder categories (Str.lower (Path.name_suffix nm)) = folder ↔
  type_assigned categories nm folder.
Proof.
  rewrite type_folder_find. unfold type_assigned.
  set (P := fun e : string * list string => Str.lower (Path.name_suffix nm) ∈ e.2).
  set (p := fun e : string * list string => mem (Str.lower (Path.name_suffix nm)) e.2).
  assert (Hp : ∀ a, p a = true ↔ P a) by (intros; apply mem_spec).
  split.
  - intros <-. eexists. split; [by apply (first_match_find P p Hp)|done].
  - intros (r & Hr & ->). by apply (first_match_iff P p Hp) in Hr as ->.
Qed.

Lemma size_folder_assigned size_ranges file_size folder :
  size_folder size_ranges file_size = folder ↔ size_assigned size_ranges file_size folder.
Proof.
  rewrite size_folder_find. unfold size_assigned.
  set (P := fun e : string * (num * num) => in_half_open e.2.1 e.2.2 file_size).
  set (p := fun e : string * (num * num) =>
              (num_le e.2.1 (Int file_size) && num_lt (Int file_size) e.2.2)%bool).
  assert (Hp : ∀ a, p a = true ↔ P a) by (intros; apply num_half_open).
  split.
  - intros <-. eexists. split; [by apply (first_match_find P p Hp)|done].
  - intros (r & Hr & ->). by apply (first_match_iff P p Hp) in Hr as ->.
Qed.

Lemma pattern_folder_assigned patterns nm folder :
  pattern_folder patterns (Str.lower nm) = folder ↔ pattern_assigned patterns nm folder.
Proof.
  rewrite pattern_folder_find. unfold pattern_assigned.
  set (P := fun e : string * string => occurs_ignoring_case e.2 nm).
  set (p := fun e : string * string => Str.contains (Str.lower nm) (Str.lower e.2)).
  assert (Hp : ∀ a, p a = true ↔ P a) by (intros; apply contains_spec).
  split.
  - intros <-. eexists. split; [by apply (first_match_find P p Hp)|done].
  - intros (r & Hr & ->). by apply (first_match_iff P p Hp) in Hr as ->.
Qed.

Lemma custom_folder_assigned rs nm file_size folder :
  custom_folder rs nm file_size = folder ↔ custom_assigned rs nm file_size folder.
Proof.
  unfold custom_folder, custom_assigned. rewrite first_rule_find.
  set (P := rule_holds nm file_size).
  set (p := fun r => rule_match (default no_conditions (rule_conditions r))
                                (Str.lower nm) (Str.lower (Path.name_suffix nm)) file_size).
  assert (Hp : ∀ a, p a = true ↔ P a) by (intros; apply rule_match_spec).
  split.
  - intros <-. eexists. split; [by apply (first_match_find P p Hp)|].
    by destruct (List.find p _).
  - intros (r & Hr & ->). apply (first_match_iff P p Hp) in Hr as ->.
    by destruct (List.find p _).
Qed.

(** An assignment described by a first match is unique. *)
Lemma type_assigned_unique categories nm f1 f2 :
  type_assigned categories nm f1 → type_assigned categories nm f2 → f1 = f2.
Proof. rewrite <- !type_folder_assigned. congruence. Qed.

Lemma size_assigned_unique size_ranges file_size f1 f2 :
  size_assigned size_ranges file_size f1 → size_assigned size_ranges file_size f2 → f1 = f2.
Proof. rewrite <- !size_folder_assigned. congruence. Qed.

Lemma pattern_assigned_unique patterns nm f1 f2 :
  pattern_assigned patterns nm f1 → pattern_assigned patterns nm f2 → f1 = f2.
Proof. rewrite <- !pattern_folder_assigned. congruence. Qed.

Lemma custom_assigned_unique rs nm file_size f1 f2 :
  custom_assigned rs nm file_size f1 → custom_assigned rs nm file_size f2 → f1 = f2.
Proof. rewrite <- !custom_folder_assigned. congruence. Qed.

Example type_png : type_folder DEFAULT_CATEGORIES (Str.lower (Path.name_suffix "Holiday.PNG")) = "Images".
Proof. reflexivity. Qed.

Example type_xyz : type_folder DEFAULT_CATEGORIES (Str.lower (Path.name_suffix "data.xyz")) = "Others".
Proof. reflexivity. Qed.

Example suffix_examples :
  Path.name_suffix "a.tar.gz" = ".gz" ∧ Path.name_suffix ".bashrc" = "" ∧
  Path.name_suffix "Makefile" = "" ∧ Path.name_suffix "odd." = "" ∧
  Path.name_stem "a.tar.gz" = "a.tar" ∧ Path.name_stem ".bashrc" = ".bashrc".
Proof. repeat split; reflexivity. Qed.

Example joinpath_examples :
  Path.joinpath ["out"] "Images" = ["out"; "Images"] ∧
  Path.joinpath ["out"] "2024/01" = ["out"; "2024"; "01"] ∧
  Path.joinpath ["out"] "/abs/x" = ["abs"; "x"] ∧
  Path.joinpath ["out"] "./a//b/" = ["out"; "a"; "b"].
Proof. repeat split; reflexivity. Qed.

(** ** Classification by size (C5) *)

Lemma sizes_run_output :
  output (organize_by_size (dry_organizer ["src"]) sizes_fs None false false) =
    [ Organizing 4 "size";
      WouldMove ["src"; "a.bin"] ["src"; "Small (< 1MB)"; "a.bin"];
      WouldMove ["src"; "b.bin"] ["src"; "Medium (1-10MB)"; "b.bin"];
      WouldMove ["src"; "c.bin"] ["src"; "Very Large (> 100MB)"; "c.bin"];
      WouldMove ["src"; "d.bin"] ["src"; "Medium (1-10MB)"; "d.bin"] ].
Proof. vm_compute. reflexivity. Qed.

Lemma sizes_run_result :
  result (organize_by_size (dry_organizer ["src"]) sizes_fs None false false) =
    {[ "Small (< 1MB)" := 1; "Medium (1-10MB)" := 2; "Very Large (> 100MB)" := 1 ]}.
Proof. by_evaluation. Qed.

Lemma sizes_run_result_main :
  result (organize year_of (BySize None) (dry_organizer ["src"]) sizes_fs false false) =
    inr {[ "Small (< 1MB)" := 1; "Medium (1-10MB)" := 2; "Very Large (> 100MB)" := 1 ]}.
Proof. by_evaluation. Qed.

Lemma sizes_run_counts_main :
  get_stats (organizer (organize year_of (BySize None) (dry_organizer ["src"]) sizes_fs
                                 false false)) = Counts 0 0.
Proof. by_evaluation. Qed.

(** C5.  With the default ranges a file of 500,000 bytes goes to
    "Small (< 1MB)", one of 5,000,000 bytes to "Medium (1-10MB)", one of
    200,000,000 bytes to "Very Large (> 100MB)" and one of exactly 1,048,576
    bytes to "Medium (1-10MB)", both in the classifier and in a run of
    [organize_by_size] over a directory holding four such files.  In
    general the folder is that of the first declared range [[min, max)]
    containing the size, lower bound included and upper bound excluded, and
    "Unknown Size" when no range contains it. *)
Theorem size_ranges_half_open :
  size_folder DEFAULT_SIZE_RANGES 500000 = "Small (< 1MB)" ∧
  size_folder DEFAULT_SIZE_RANGES 5000000 = "Medium (1-10MB)" ∧
  size_folder DEFAULT_SIZE_RANGES 200000000 = "Very Large (> 100MB)" ∧
  size_folder DEFAULT_SIZE_RANGES 1048576 = "Medium (1-10MB)" ∧
  size_folder DEFAULT_SIZE_RANGES 1048575 = "Small (< 1MB)" ∧
  output (organize_by_size (dry_organizer ["src"]) sizes_fs None false false) =
    [ Organizing 4 "size";
      WouldMove ["src"; "a.bin"] ["src"; "Small (< 1MB)"; "a.bin"];
      WouldMove ["src"; "b.bin"] ["src"; "Medium (1-10MB)"; "b.bin"];
      WouldMove ["src"; "c.bin"] ["src"; "Very Large (> 100MB)"; "c.bin"];
      WouldMove ["src"; "d.bin"] ["src"; "Medium (1-10MB)"; "d.bin"] ] ∧
  result (organize_by_size (dry_organizer ["src"]) sizes_fs None false false) =
    {[ "Small (< 1MB)" := 1; "Medium (1-10MB)" := 2; "Very Large (> 100MB)" := 1 ]} ∧
  (∀ size_ranges file_size folder,
     size_folder size_ranges file_size = folder ↔
     size_assigned size_ranges file_size folder) ∧
  (∀ lo hi x,
     in_half_open (Int lo) (Int hi) x ↔ (lo ≤ x < hi)%Z) ∧
  (∀ lo x, in_half_open (Int lo) Inf x ↔ (lo ≤ x)%Z).
Proof.
  split; [vm_compute; reflexivity|].
  split; [vm_compute; reflexivity|].
  split; [vm_compute; reflexivity|].
  split; [vm_compute; reflexivity|].
  split; [vm_compute; reflexivity|].
  split; [exact sizes_run_output|].
  split; [exact sizes_run_result|].
  split; [|split].
  - intros. apply size_folder_assigned.
  - intros. unfold in_half_open. lia.
  - intros. unfold in_half_open. intuition lia.
Qed.

(** ** Classification by custom rules (C6) *)

(** C6.  Under the custom-rules strategy the rules are tried in declared
    order and the first rule all of whose present conditions hold gives the
    folder: extension in the listed set, substring in the name with case
    ignored, size within the closed range [[min, max]]; an absent condition
    always holds.  When no rule matches the configured default folder is
    returned, "Others" when none is configured.  With the single rule
    (extensions [.docx], name_contains "work") to "Work" and default
    "Others", [work_report.docx] goes to "Work" and [report.docx] to
    "Others". *)
Theorem custom_rules_first_full_match :
  _apply_custom_rules work_fs ["src"; "work_report.docx"] work_rules = inr "Work" ∧
  _apply_custom_rules work_fs ["src"; "report.docx"] work_rules = inr "Others" ∧
  (∀ file_size, custom_folder work_rules "work_report.docx" file_size = "Work") ∧
  (∀ file_size, custom_folder work_rules "report.docx" file_size = "Others") ∧
  (∀ fs file_path rs st folder,
     FS.stat fs file_path = inr st →
     (_apply_custom_rules fs file_path rs = inr folder ↔
      custom_assigned rs (Path.name file_path) (st_size st) folder)) ∧
  (∀ c filename file_ext file_size,
     rule_match c filename file_ext file_size = true ↔
     (∀ exts, extensions c = Some exts → file_ext ∈ exts) ∧
     (∀ s, name_contains c = Some s → ∃ a b, filename = a +:+ Str.lower s +:+ b) ∧
     (∀ lo hi, size_range c = Some (lo, hi) → in_closed lo hi file_size)) ∧
  (∀ lo hi x, in_closed (Int lo) (Int hi) x ↔ (lo ≤ x ≤ hi)%Z) ∧
  (∀ rs nm file_size,
     Forall (fun r => ¬ rule_holds nm file_size r) (default [] (rules_list rs)) →
     custom_folder rs nm file_size = default "Others" (default_folder rs)).
Proof.
  split_and!.
  - vm_compute; reflexivity.
  - vm_compute; reflexivity.
  - intros file_size. vm_compute; reflexivity.
  - intros file_size. vm_compute; reflexivity.
  - intros fs file_path rs st folder Hst. unfold _apply_custom_rules. rewrite Hst.
    rewrite <- custom_folder_assigned. split; congruence.
  - intros c filename file_ext file_size. rewrite rule_match_and, !andb_true_iff.
    destruct c as [[exts|] [s|] [[lo hi]|]]; cbn [extensions name_contains size_range];
      rewrite ?mem_spec, ?contains_spec, ?num_closed;
      split; intros; destruct_and?; split_and?; intros; simplify_eq; eauto.
  - intros lo hi x. unfold in_closed. lia.
  - intros rs nm file_size Hnone. apply custom_folder_assigned.
    exists None. split; [by apply first_match_None | done].
Qed.

(** ** Every file gets one folder (C1) *)

(** C1, as amended.  For every file whose metadata can be read, every
    strategy hands exactly one destination folder name to the relocation:
    the by-type, by-size, by-name-pattern and custom-rules strategies the
    folder of the first matching entry, the by-date strategy the formatted
    timestamp.  When nothing matches the fallback is returned: "Others" by
    type and by name pattern, "Unknown Size" by size, and the configured
    default folder by custom rules, which is "Others" only when the
    document configures none.  Each fallback is reached by some input. *)
Theorem every_strategy_assigns_one_folder :
  (∀ categories acc file_path, ∃ folder,
     by_type_body categories acc file_path = relocate acc file_path folder ∧
     ∀ f, type_assigned categories (Path.name file_path) f ↔ f = folder) ∧
  (∀ patterns acc file_path, ∃ folder,
     by_name_pattern_body patterns acc file_path = relocate acc file_path folder ∧
     ∀ f, pattern_assigned patterns (Path.name file_path) f ↔ f = folder) ∧
  (∀ size_ranges acc file_path st,
     FS.stat (files acc) file_path = inr st →
     ∃ folder,
       by_size_body size_ranges acc file_path = relocate acc file_path folder ∧
       ∀ f, size_assigned size_ranges (st_size st) f ↔ f = folder) ∧
  (∀ (strftime : string → Z → exn + string) date_format (use_creation_date : bool)
      (acc : outcome stats) file_path st folder,
     FS.stat (files acc) file_path = inr st →
     strftime date_format (if use_creation_date then st_ctime st else st_mtime st)
       = inr folder →
     by_date_body strftime date_format use_creation_date acc file_path
       = relocate acc file_path folder) ∧
  (∀ rs fs file_path st,
     FS.stat fs file_path = inr st →
     ∃ folder,
       _apply_custom_rules fs file_path rs = inr folder ∧
       ∀ f, custom_assigned rs (Path.name file_path) (st_size st) f ↔ f = folder) ∧
  (∀ categories nm,
     Forall (fun e => Str.lower (Path.name_suffix nm) ∉ e.2) categories →
     type_folder categories (Str.lower (Path.name_suffix nm)) = "Others") ∧
  (∀ patterns nm,
     Forall (fun e => ¬ occurs_ignoring_case e.2 nm) patterns →
     pattern_folder patterns (Str.lower nm) = "Others") ∧
  (∀ size_ranges file_size,
     Forall (fun e => ¬ in_half_open e.2.1 e.2.2 file_size) size_ranges →
     size_folder size_ranges file_size = "Unknown Size") ∧
  (∀ rs nm file_size,
     Forall (fun r => ¬ rule_holds nm file_size r) (default [] (rules_list rs)) →
     custom_folder rs nm file_size = default "Others" (default_folder rs)) ∧
  type_folder DEFAULT_CATEGORIES (Str.lower (Path.name_suffix "data.xyz")) = "Others" ∧
  pattern_folder [("Invoices", "invoice")] (Str.lower "README.txt") = "Others" ∧
  size_folder [("Tiny", (Int 0, Int 10))] 50 = "Unknown Size" ∧
  custom_folder work_rules "report.docx" 2048 = "Others" ∧
  custom_folder (Rules None None) "report.docx" 2048 = "Others" ∧
  custom_folder misc_rules "report.docx" 2048 = "Misc".
Proof.
  split_and!.
  - intros categories acc file_path. eexists. split; [reflexivity|].
    intros f. rewrite <- type_folder_assigned. split; [intros <- | intros ->]; reflexivity.
  - intros patterns acc file_path. eexists. split; [reflexivity|].
    intros f. rewrite <- pattern_folder_assigned. split; [intros <- | intros ->]; reflexivity.
  - intros size_ranges acc file_path st Hst. eexists. split.
    + unfold by_size_body. rewrite Hst. reflexivity.
    + intros f. rewrite <- size_folder_assigned. split; [intros <- | intros ->]; reflexivity.
  - intros strftime date_format use_creation_date acc file_path st folder Hst Hfmt.
    unfold by_date_body. by rewrite Hst, Hfmt.
  - intros rs fs file_path st Hst. eexists. split.
    + unfold _apply_custom_rules. rewrite Hst. reflexivity.
    + intros f. rewrite <- custom_folder_assigned. split; [intros <- | intros ->]; reflexivity.
  - intros categories nm Hnone. apply type_folder_assigned.
    exists None. split; [by apply first_match_None | done].
  - intros patterns nm Hnone. apply pattern_folder_assigned.
    exists None. split; [by apply first_match_None | done].
  - intros size_ranges file_size Hnone. apply size_folder_assigned.
    exists None. split; [by apply first_match_None | done].
  - intros rs nm file_size Hnone. apply custom_folder_assigned.
    exists None. split; [by apply first_match_None | done].
  - vm_compute; reflexivity.
  - vm_compute; reflexivity.
  - vm_compute; reflexivity.
  - vm_compute; reflexivity.
  - vm_compute; reflexivity.
  - vm_compute; reflexivity.
Qed.

(** C1 fails as stated on two counts.  A rule document that configures
    the default folder "Misc" sends a file that matches no rule to "Misc",
    not to "Others"; and under the size strategy a listed file whose
    metadata cannot be read is counted in no folder at all: the statistics
    stay empty and the file is recorded as failed. *)
Lemma fallback_is_not_always_others :
  first_rule (default [] (rules_list misc_rules))
             (Str.lower "report.docx") (Str.lower (Path.name_suffix "report.docx")) 2048
    = None ∧
  _apply_custom_rules work_fs ["src"; "report.docx"] misc_rules = inr "Misc" ∧
  "Misc" ≠ "Others" ∧
  FS.stat (files stale_listing) ["src"; "gone.bin"] = inl FileNotFoundError ∧
  result (by_size_body DEFAULT_SIZE_RANGES stale_listing ["src"; "gone.bin"]) = ∅ ∧
  failed_files (organizer (by_size_body DEFAULT_SIZE_RANGES stale_listing ["src"; "gone.bin"]))
    = [["src"; "gone.bin"]] ∧
  output (by_size_body DEFAULT_SIZE_RANGES stale_listing ["src"; "gone.bin"])
    = [Organizing 1 "size"; FailedToGetSize "gone.bin" FileNotFoundError].
Proof. split_and!; [vm_compute; reflexivity.. | discriminate | | | | ]; vm_compute; reflexivity. Qed.

(** ** The pre-flight check (C3) *)

(** C3, as amended.  Construction fails with [FileNotFoundError], before
    anything is touched, exactly when the source root does not exist; when
    it exists, as a directory or as anything else, construction succeeds
    with empty move and failure logs. *)
Theorem init_requires_existing_source fs source target dry copy :
  (__init__ fs source target dry copy = inl FileNotFoundError ↔
   FS.exists_ fs source = false) ∧
  (__init__ fs source target dry copy
     = inr (Organizer source (default source target) dry copy [] []) ↔
   FS.exists_ fs source = true) ∧
  (FS.is_dir fs source = true →
   __init__ fs source target dry copy
     = inr (Organizer source (default source target) dry copy [] [])).
Proof.
  unfold __init__, FS.exists_, FS.is_dir. simpl.
  destruct (fs !! source) as [[]|]; simpl; split_and!; try split; congruence.
Qed.

(** C3 fails as stated when the source root exists but is a regular file:
    construction succeeds, and the run that follows finds no files, touches
    nothing and reports no failure. *)
Lemma init_accepts_a_regular_file :
  FS.exists_ file_as_source_fs ["src"] = true ∧
  FS.is_dir file_as_source_fs ["src"] = false ∧
  __init__ file_as_source_fs ["src"] None true false = inr (dry_organizer ["src"]) ∧
  __init__ file_as_source_fs ["src"] None false false
    = inr (Organizer ["src"] ["src"] false false [] []) ∧
  organize_by_type (Organizer ["src"] ["src"] false false [] []) file_as_source_fs
                   None false false
    = Outcome ∅ (Organizer ["src"] ["src"] false false [] []) file_as_source_fs
              [Organizing 0 "type"].
Proof. split_and!; vm_compute; reflexivity. Qed.

(** ** The conflict loop *)

Lemma string_length_app s t : String.length (s +:+ t) = String.length s + String.length t.
Proof. induction s as [|c s IH]; [done|]. rewrite app_cons. simpl. by rewrite IH. Qed.

Lemma app_inj_r s1 s2 t : s1 +:+ t = s2 +:+ t → s1 = s2.
Proof.
  revert s2. induction s1 as [|c s1 IH]; intros [|d s2] H; [done| | |].
  - apply (f_equal String.length) in H. rewrite !string_length_app in H. simpl in H. lia.
  - apply (f_equal String.length) in H. rewrite !string_length_app in H. simpl in H. lia.
  - rewrite !app_cons in H. injection H as -> H. f_equal. by apply IH.
Qed.

Lemma numbered_inj original_target : Inj (=) (=) (numbered original_target).
Proof.
  intros j k H. unfold numbered in H.
  apply String.app_inj in H. apply (String.app_inj "_") in H.
  apply app_inj_r in H. by apply (inj pretty) in H.
Qed.

(** The plain name is none of the numbered ones. *)
Lemma numbered_ne_name original_target k :
  numbered original_target k ≠ Path.name original_target.
Proof.
  unfold numbered, Path.stem, Path.suffix.
  rewrite <- (stem_suffix (Path.name original_target)) at 3.
  intros H. apply String.app_inj in H.
  apply (f_equal String.length) in H. rewrite !string_length_app in H.
  simpl in H. lia.
Qed.

Lemma exists_lookup (fs : filesystem) p : FS.exists_ fs p = true ↔ is_Some (fs !! p).
Proof. unfold FS.exists_. destruct (fs !! p); split; try done; by intros []. Qed.

Lemma not_exists_lookup (fs : filesystem) p : FS.exists_ fs p = false ↔ fs !! p = None.
Proof. unfold FS.exists_. by destruct (fs !! p). Qed.

(** Not all of [n + 1] differently numbered names can be taken in a file
    system of [n] entries. *)
Lemma numbered_not_all_taken (fs : filesystem) dir original_target c :
  ¬ ∀ k, c ≤ k < c + S (size fs) →
         FS.exists_ fs (Path.child dir (numbered original_target k)) = true.
Proof.
  intros Hall.
  set (l := (fun k => Path.child dir (numbered original_target k)) <$> seq c (S (size fs))).
  assert (NoDup l) as Hnd.
  { apply NoDup_fmap_2; [|apply NoDup_seq].
    intros j k H. unfold Path.child in H. apply app_inj_1 in H as [_ H]; [|done].
    injection H as H. by apply numbered_inj in H. }
  assert (list_to_set l ⊆ dom fs) as Hsub.
  { intros p Hp. apply elem_of_list_to_set in Hp.
    apply list_elem_of_fmap in Hp as (k & -> & Hk). apply elem_of_seq in Hk.
    apply elem_of_dom, exists_lookup, Hall. lia. }
  apply subseteq_size in Hsub.
  rewrite size_list_to_set, size_dom in Hsub by done.
  unfold l in Hsub. rewrite length_fmap, length_seq in Hsub. lia.
Qed.

(** When the bound is reached every name tried so far was taken. *)
Lemma while_exists_None fuel dry fs dir original_target target_path c :
  while_exists fuel dry fs dir original_target target_path c = None →
  ∀ k, c ≤ k < c + fuel →
       FS.exists_ fs (Path.child dir (numbered original_target k)) = true.
Proof.
  revert target_path c. induction fuel as [|fuel IH]; intros target_path c H k Hk; [lia|].
  simpl in H. destruct (FS.exists_ fs target_path && negb dry) eqn:Hc; [|done].
  destruct (decide (k = c)) as [->|Hne].
  - destruct fuel as [|fuel]; simpl in H.
    + destruct (FS.exists_ fs (Path.child _ _) && negb dry) eqn:Hc'; [|done].
      by apply andb_true_iff in Hc' as [].
    + destruct (FS.exists_ fs (Path.child _ _) && negb dry) eqn:Hc'; [|done].
      by apply andb_true_iff in Hc' as [].
  - apply (IH _ _ H). lia.
Qed.

(** The loop ends within the bound [resolve] gives it. *)
Lemma while_exists_terminates dry fs dir original_target target_path c :
  is_Some (while_exists (S (size fs)) dry fs dir original_target target_path c).
Proof.
  destruct (while_exists _ _ _ _ _ _ _) eqn:H; [done|].
  destruct (numbered_not_all_taken fs dir original_target c).
  by apply (while_exists_None _ _ _ _ _ _ _ H).
Qed.

(** What the loop returns in a live run: a free path, which is the first
    path tried or the first free numbered one after [c]. *)
Lemma while_exists_Some fuel fs dir original_target target_path c r :
  while_exists fuel false fs dir original_target target_path c = Some r →
  FS.exists_ fs r = false ∧
  (r = target_path ∨
   FS.exists_ fs target_path = true ∧
   ∃ n, c ≤ n ∧ r = Path.child dir (numbered original_target n) ∧
        ∀ k, c ≤ k < n →
             FS.exists_ fs (Path.child dir (numbered original_target k)) = true).
Proof.
  revert target_path c. induction fuel as [|fuel IH]; intros target_path c H; simpl in H.
  - rewrite andb_true_r in H. destruct (FS.exists_ fs target_path) eqn:He; [done|].
    injection H as <-. auto.
  - rewrite andb_true_r in H. destruct (FS.exists_ fs target_path) eqn:He.
    + apply IH in H as [Hfree [->|(Hex & n & Hn & -> & Hall)]].
      * split; [done|]. right. split; [done|]. exists c. split_and!; [lia|done|].
        intros k Hk. lia.
      * split; [done|]. right. split; [done|]. exists n. split_and!; [lia|done|].
        intros k Hk. destruct (decide (k = c)) as [->|]; [done|]. apply Hall. lia.
    + injection H as <-. auto.
Qed.

Lemma resolve_dry fs dir target_path : resolve true fs dir target_path = target_path.
Proof. unfold resolve. simpl. by rewrite andb_false_r. Qed.

Lemma resolve_live fs dir target_path :
  let r := resolve false fs dir target_path in
  FS.exists_ fs r = false ∧
  (r = target_path ∨
   FS.exists_ fs target_path = true ∧
   ∃ n, 1 ≤ n ∧ r = Path.child dir (numbered target_path n) ∧
        ∀ k, 1 ≤ k < n →
             FS.exists_ fs (Path.child dir (numbered target_path k)) = true).
Proof.
  unfold resolve.
  destruct (while_exists_terminates false fs dir target_path target_path 1) as [r Hr].
  rewrite Hr. simpl. by apply while_exists_Some in Hr.
Qed.

Lemma resolve_free fs dir target_path :
  FS.exists_ fs target_path = false → resolve false fs dir target_path = target_path.
Proof.
  intros H. unfold resolve. simpl. by rewrite H.
Qed.

(** The script's loop is the relocator's loop of a live run. *)
Lemma undo_while_exists_same fuel fs dir original_target target_path c :
  undo_while_exists fuel fs dir original_target target_path c =
  while_exists fuel false fs dir original_target target_path c.
Proof.
  revert target_path c. induction fuel as [|fuel IH]; intros; simpl;
    rewrite andb_true_r; [done|]. by rewrite IH.
Qed.

(** ** The file system operations *)

Lemma grows_by_dirs_refl fs : grows_by_dirs fs fs.
Proof. intros q. by left. Qed.

Lemma grows_by_dirs_trans fs1 fs2 fs3 :
  grows_by_dirs fs1 fs2 → grows_by_dirs fs2 fs3 → grows_by_dirs fs1 fs3.
Proof.
  intros H12 H23 q. destruct (H12 q) as [H|[H H']], (H23 q) as [G|[G G']];
    rewrite ?G, ?G', ?H, ?H' in *; auto; congruence.
Qed.

Lemma grows_by_dirs_insert (fs : filesystem) d :
  fs !! d = None → grows_by_dirs fs (<[d := Dir]> fs).
Proof.
  intros H q. destruct (decide (d = q)) as [->|Hne].
  - right. by rewrite lookup_insert_eq.
  - left. by rewrite lookup_insert_ne.
Qed.

Lemma grows_by_dirs_Some fs fs' q n :
  grows_by_dirs fs fs' → fs !! q = Some n → fs' !! q = Some n.
Proof. intros H Hq. destruct (H q) as [->|[? _]]; congruence. Qed.

Lemma grows_by_dirs_None fs fs' q :
  grows_by_dirs fs fs' → fs' !! q = None → fs !! q = None.
Proof. intros H Hq. destruct (H q) as [<-|[? ?]]; congruence. Qed.

Lemma mkdir_fold_raised p e l : foldl (FS.mkdir_one p) (inl e) l = inl e.
Proof. by induction l. Qed.

Lemma mkdir_fold p l fs fs' :
  foldl (FS.mkdir_one p) (inr fs) l = inr fs' →
  grows_by_dirs fs fs' ∧ ∀ d, d ∈ l → fs' !! d = Some Dir.
Proof.
  revert fs. induction l as [|d l IH]; intros fs H; simpl in H.
  - injection H as <-. split; [apply grows_by_dirs_refl | by intros ? ?%elem_of_nil].
  - destruct (fs !! d) as [[]|] eqn:Hd.
    + by rewrite mkdir_fold_raised in H.
    + apply IH in H as [Hg Hl]. split; [done|].
      intros d' [->|?]%elem_of_cons; [|by auto]. by eapply grows_by_dirs_Some.
    + apply IH in H as [Hg Hl]. split.
      * eapply grows_by_dirs_trans; [by apply grows_by_dirs_insert | done].
      * intros d' [->|?]%elem_of_cons; [|by auto].
        eapply grows_by_dirs_Some; [done|]. by rewrite lookup_insert_eq.
Qed.

(** [mkdir] only adds directories, and leaves the directory in place. *)
Lemma mkdir_spec fs p fs' :
  FS.mkdir fs p = inr fs' → grows_by_dirs fs fs' ∧ fs' !! p = Some Dir.
Proof.
  intros H. apply mkdir_fold in H as [Hg Hl]. split; [done|].
  apply Hl. unfold FS.ancestors. apply list_elem_of_In, in_map_iff.
  exists (length p). split; [by rewrite firstn_all | apply in_seq; lia].
Qed.

Lemma parent_child dir nm : Path.parent (Path.child dir nm) = dir.
Proof. apply removelast_last. Qed.

Lemma name_child dir nm : Path.name (Path.child dir nm) = nm.
Proof. apply last_last. Qed.

Lemma child_inj dir nm1 nm2 : Path.child dir nm1 = Path.child dir nm2 → nm1 = nm2.
Proof. intros H. apply app_inj_1 in H as [_ H]; [congruence | done]. Qed.

(** Moving a regular file to a free path either fails, changing nothing,
    or takes the file from its old path to the new one. *)
Lemma move_file_to_free (fs : filesystem) src dst st data :
  fs !! src = Some (File st data) → fs !! dst = None →
  FS.move fs src dst =
  match fs !! Path.parent dst with
  | Some Dir => inr (<[dst := File st data]> (delete src fs))
  | Some (File _ _) => inl NotADirectoryError
  | None => inl FileNotFoundError
  end.
Proof.
  intros Hsrc Hdst. unfold FS.move, FS.is_dir, FS.rename. rewrite Hdst, Hsrc.
  by destruct (fs !! Path.parent dst) as [[]|].
Qed.

(** Copying a regular file to a free path either fails, changing nothing,
    or adds the copy. *)
Lemma copy_file_to_free (fs : filesystem) src dst st data :
  fs !! src = Some (File st data) → fs !! dst = None →
  FS.copy2 fs src dst =
  match fs !! Path.parent dst with
  | Some Dir => inr (<[dst := File st data]> fs)
  | Some (File _ _) => inl NotADirectoryError
  | None => inl FileNotFoundError
  end.
Proof.
  intros Hsrc Hdst. unfold FS.copy2, FS.is_dir. rewrite Hdst. cbv zeta iota.
  rewrite Hsrc, Hdst, bool_decide_eq_false_2 by congruence.
  by destruct (fs !! Path.parent dst) as [[]|].
Qed.

(** A missing source makes both fail. *)
Lemma move_missing (fs : filesystem) src dst :
  fs !! src = None → fs !! dst = None → FS.move fs src dst = inl FileNotFoundError.
Proof. intros Hsrc Hdst. unfold FS.move, FS.is_dir, FS.rename. by rewrite Hdst, Hsrc. Qed.

Lemma copy_missing (fs : filesystem) src dst :
  fs !! src = None → fs !! dst = None → FS.copy2 fs src dst = inl FileNotFoundError.
Proof.
  intros Hsrc Hdst. unfold FS.copy2, FS.is_dir. rewrite Hdst. cbv zeta iota.
  by rewrite Hsrc.
Qed.

(** ** One relocation *)

(** In a dry run [_move_file] returns [True], changes neither the object
    nor the file system, and reports the target path first computed. *)
Lemma move_file_dry self fs source_path folder :
  dry_run self = true →
  _move_file self fs source_path folder =
  Outcome true self fs
    [WouldMove source_path
       (Path.child (Path.joinpath (target_dir self) folder) (Path.name source_path))].
Proof.
  intros H. unfold _move_file. rewrite H. cbv beta iota zeta. by rewrite resolve_dry.
Qed.

(** In a live run [_move_file] creates the directory, resolves the target
    path, and moves or copies; an exception of any of these is caught and
    turned into a recorded failure. *)
Lemma move_file_live self fs source_path folder :
  dry_run self = false →
  _move_file self fs source_path folder =
  let tdir := Path.joinpath (target_dir self) folder in
  match FS.mkdir fs tdir with
  | inl e =>
      record_failure false self fs source_path (FailedToMove (Path.name source_path) e)
  | inr fs1 =>
      let target_path :=
        resolve false fs1 tdir (Path.child tdir (Path.name source_path)) in
      match (if copy_files self then FS.copy2 fs1 source_path target_path
             else FS.move fs1 source_path target_path) with
      | inl e =>
          record_failure false self fs1 source_path
                         (FailedToMove (Path.name source_path) e)
      | inr fs2 =>
          Outcome true (record_move self target_path) fs2
                  [if copy_files self then Copied (Path.name source_path) folder
                   else Moved (Path.name source_path) folder]
      end
  end.
Proof.
  intros H. unfold _move_file. rewrite H. cbv beta iota zeta.
  destruct (FS.mkdir _ _); [done|]. by destruct (copy_files self).
Qed.

Lemma same_settings_refl a : same_settings a a.
Proof. by repeat split. Qed.

Lemma same_settings_trans a b c : same_settings a b → same_settings b c → same_settings a c.
Proof. unfold same_settings. intros (?&?&?&?) (?&?&?&?). split_and!; congruence. Qed.

Lemma move_file_settings self fs source_path folder :
  same_settings self (organizer (_move_file self fs source_path folder)).
Proof.
  destruct (dry_run self) eqn:Hd.
  - rewrite move_file_dry by done. apply same_settings_refl.
  - rewrite move_file_live by done. cbv zeta.
    destruct (FS.mkdir _ _); [by repeat split|].
    destruct (if copy_files self then _ else _); by repeat split.
Qed.

(** A relocation adds one entry to exactly one of the two logs, and says
    so in its result. *)
Lemma move_file_logs self fs source_path folder :
  dry_run self = false →
  let r := _move_file self fs source_path folder in
  (result r = true ∧ failed_files (organizer r) = failed_files self ∧
   ∃ target_path, moved_files (organizer r) = moved_files self ++ [target_path]) ∨
  (result r = false ∧ moved_files (organizer r) = moved_files self ∧
   failed_files (organizer r) = failed_files self ++ [source_path] ∧
   ∃ e, output r = [FailedToMove (Path.name source_path) e]).
Proof.
  intros H. cbv zeta. rewrite move_file_live by done. cbv zeta.
  destruct (FS.mkdir _ _); [right; by eauto|].
  destruct (if copy_files self then _ else _); [right; by eauto|].
  left. by eauto.
Qed.

(** ** The loops *)

Lemma relocate_dry acc file_path folder :
  dry_run (organizer acc) = true →
  relocate acc file_path folder =
  Outcome (count folder (result acc)) (organizer acc) (files acc)
    (output acc ++
     [WouldMove file_path
        (Path.child (Path.joinpath (target_dir (organizer acc)) folder)
                    (Path.name file_path))]).
Proof. intros H. unfold relocate. by rewrite move_file_dry. Qed.

Lemma steps_app acc l1 acc1 l2 acc2 :
  steps acc l1 acc1 → steps acc1 l2 acc2 → steps acc (l1 ++ l2) acc2.
Proof.
  induction 1 as [|acc f folder l acc' _ IH|acc f ev l acc' Hev _ IH]; intros H2; simpl.
  - done.
  - eapply steps_relocate. by apply IH.
  - eapply steps_skip; [done | by apply IH].
Qed.

Lemma by_type_steps categories l acc :
  steps acc l (foldl (by_type_body categories) acc l).
Proof.
  revert acc. induction l as [|f l IH]; intros acc; simpl; [constructor|].
  eapply steps_relocate. apply IH.
Qed.

Lemma by_name_pattern_steps patterns l acc :
  steps acc l (foldl (by_name_pattern_body patterns) acc l).
Proof.
  revert acc. induction l as [|f l IH]; intros acc; simpl; [constructor|].
  eapply steps_relocate. apply IH.
Qed.

Lemma by_size_steps size_ranges l acc :
  steps acc l (foldl (by_size_body size_ranges) acc l).
Proof.
  revert acc. induction l as [|f l IH]; intros acc; simpl; [constructor|].
  specialize (IH (by_size_body size_ranges acc f)). unfold by_size_body in IH at 1.
  destruct (FS.stat (files acc) f).
  - by eapply steps_skip; [|apply IH].
  - eapply steps_relocate. apply IH.
Qed.

Lemma by_date_steps strftime date_format use_creation_date l acc :
  steps acc l (foldl (by_date_body strftime date_format use_creation_date) acc l).
Proof.
  revert acc. induction l as [|f l IH]; intros acc; simpl; [constructor|].
  specialize (IH (by_date_body strftime date_format use_creation_date acc f)).
  unfold by_date_body in IH at 1.
  destruct (FS.stat (files acc) f) as [e|st].
  - by eapply steps_skip; [|apply IH].
  - destruct (strftime _ _).
    + by eapply steps_skip; [|apply IH].
    + eapply steps_relocate. apply IH.
Qed.

(** The custom-rules loop proceeds likewise until it finishes or a file's
    size cannot be read. *)
Lemma custom_rules_steps rs l acc :
  let r := organize_by_custom_rules_loop rs l acc in
  ∃ pre post acc',
    l = pre ++ post ∧ steps acc pre acc' ∧
    organizer r = organizer acc' ∧ files r = files acc' ∧ output r = output acc' ∧
    match result r with
    | inr st => post = [] ∧ st = result acc'
    | inl e => ∃ f post', post = f :: post' ∧ FS.stat (files acc') f = inl e
    end.
Proof.
  revert acc. induction l as [|f l IH]; intros acc; simpl.
  - exists [], [], acc. split_and!; [done|constructor|done..].
  - unfold _apply_custom_rules. destruct (FS.stat (files acc) f) as [e|st] eqn:Hst.
    + exists [], (f :: l), acc. split_and!; [done|constructor|..]; simpl; eauto.
    + destruct (IH (relocate acc f (custom_folder rs (Path.name f) (st_size st))))
        as (pre & post & acc' & -> & Hsteps & ? & ? & ? & ?).
      exists (f :: pre), post, acc'. split_and!; try done.
      eapply steps_relocate. apply Hsteps.
Qed.

(** Every method's loop, seen as steps from its starting state. *)
Lemma organize_loop_steps strftime s self fs l :
  let r := organize_loop strftime s self fs l in
  ∃ pre post acc0 acc',
    l = pre ++ post ∧ steps acc0 pre acc' ∧
    organizer acc0 = self ∧ files acc0 = fs ∧ result acc0 = ∅ ∧
    organizer r = organizer acc' ∧ files r = files acc' ∧
    (∀ t, planned_targets t (output acc0) = []) ∧ output r = output acc' ∧
    match result r with
    | inr st => post = [] ∧ st = result acc'
    | inl e =>
        s = ByCustomRules (inl e) ∨
        ∃ f post', post = f :: post' ∧ FS.stat (files acc') f = inl e
    end.
Proof.
  destruct s as [c|fmt ucd|c|pats|[e|rs]]; simpl.
  - exists l, [], (start self fs (length l) "type"),
      (organize_by_type_loop (default DEFAULT_CATEGORIES c) self fs l).
    rewrite app_nil_r. split_and!; try done. apply by_type_steps.
  - exists l, [], (start self fs (length l) "date"),
      (organize_by_date_loop strftime fmt ucd self fs l).
    rewrite app_nil_r. split_and!; try done. apply by_date_steps.
  - exists l, [], (start self fs (length l) "size"),
      (organize_by_size_loop (default DEFAULT_SIZE_RANGES c) self fs l).
    rewrite app_nil_r. split_and!; try done. apply by_size_steps.
  - exists l, [], (start self fs (length l) "name patterns"),
      (organize_by_name_pattern_loop pats self fs l).
    rewrite app_nil_r. split_and!; try done. apply by_name_pattern_steps.
  - exists [], l, (Outcome ∅ self fs []), (Outcome ∅ self fs []).
    split_and!; [done|constructor|done..|by left].
  - destruct (custom_rules_steps rs l (start self fs (length l) "custom rules"))
      as (pre & post & acc' & Hl & Hsteps & Ho & Hf & Hout & Hr).
    exists pre, post, (start self fs (length l) "custom rules"), acc'.
    split_and!; try done.
    destruct (result _); [by right | done].
Qed.

Lemma organize_is_loop strftime s self fs recursive include_hidden :
  organize strftime s self fs recursive include_hidden =
  organize_loop strftime s self fs (get_files self fs recursive include_hidden).
Proof. by destruct s as [| | | |[]]. Qed.

Lemma relocate_settings acc file_path folder :
  same_settings (organizer acc) (organizer (relocate acc file_path folder)).
Proof. apply move_file_settings. Qed.

Lemma skip_settings acc file_path ev :
  same_settings (organizer acc) (organizer (skip acc file_path ev)).
Proof. by repeat split. Qed.

Lemma steps_settings acc l acc' :
  steps acc l acc' → same_settings (organizer acc) (organizer acc').
Proof.
  induction 1 as [|acc f folder l acc' _ IH|acc f ev l acc' Hev _ IH].
  - apply same_settings_refl.
  - eapply same_settings_trans; [apply relocate_settings | apply IH].
  - eapply same_settings_trans; [apply skip_settings | apply IH].
Qed.

(** A dry run leaves the file system and the move log as they were. *)
Lemma steps_dry acc l acc' :
  steps acc l acc' → dry_run (organizer acc) = true →
  files acc' = files acc ∧ moved_files (organizer acc') = moved_files (organizer acc).
Proof.
  induction 1 as [|acc f folder l acc' _ IH|acc f ev l acc' Hev _ IH]; intros Hd.
  - done.
  - rewrite relocate_dry in IH by done. by apply IH.
  - by apply IH.
Qed.

(** In a live run every file of the listing ends in exactly one of the two
    logs: the failures, in listing order, are some of the listed files, and
    the others were moved. *)
Lemma steps_live acc l acc' :
  steps acc l acc' → dry_run (organizer acc) = false →
  ∃ ml fl,
    moved_files (organizer acc') = moved_files (organizer acc) ++ ml ∧
    failed_files (organizer acc') = failed_files (organizer acc) ++ fl ∧
    length ml + length fl = length l ∧ sublist fl l.
Proof.
  induction 1 as [|acc f folder l acc' _ IH|acc f ev l acc' Hev _ IH]; intros Hd.
  - exists [], []. by rewrite !app_nil_r.
  - destruct IH as (ml & fl & Hm & Hf & Hlen & Hsub).
    { destruct (relocate_settings acc f folder) as (_ & _ & <- & _). done. }
    unfold relocate in Hm, Hf. simpl in Hm, Hf.
    destruct (move_file_logs (organizer acc) (files acc) f folder Hd)
      as [(_ & Hf' & t & Hm')|(_ & Hm' & Hf' & _)]; rewrite Hm', Hf' in *.
    + exists (t :: ml), fl. rewrite <- app_assoc in Hm.
      split_and!; [done|done|simpl; lia|by apply sublist_cons].
    + exists ml, (f :: fl). rewrite <- app_assoc in Hf.
      split_and!; [done|done|simpl; lia|by apply sublist_skip].
  - destruct IH as (ml & fl & Hm & Hf & Hlen & Hsub); [done|].
    simpl in Hm, Hf. exists ml, (f :: fl). rewrite <- app_assoc in Hf.
    split_and!; [done|done|simpl; lia|by apply sublist_skip].
Qed.

(** ** Two dry runs side by side *)

Section Lockstep.
Variable body : outcome stats → path → outcome stats.
Hypothesis body_step : ∀ acc f,
  (∃ folder, body acc f = relocate acc f folder) ∨ (∃ ev, body acc f = skip acc f ev).
Hypothesis body_reads_files_only : ∀ acc1 acc2 f,
  dry_run (organizer acc1) = true → dry_run (organizer acc2) = true →
  files acc1 = files acc2 → result acc1 = result acc2 →
  result (body acc1 f) = result (body acc2 f).

Lemma body_dry acc f :
  dry_run (organizer acc) = true →
  dry_run (organizer (body acc f)) = true ∧ files (body acc f) = files acc.
Proof.
  intros Hd. destruct (body_step acc f) as [[folder ->]|[ev ->]].
  - by rewrite relocate_dry.
  - done.
Qed.

Lemma fold_lockstep l acc1 acc2 :
  dry_run (organizer acc1) = true → dry_run (organizer acc2) = true →
  files acc1 = files acc2 → result acc1 = result acc2 →
  result (foldl body acc1 l) = result (foldl body acc2 l).
Proof.
  revert acc1 acc2. induction l as [|f l IH]; intros acc1 acc2 H1 H2 Hf Hr; simpl; [done|].
  destruct (body_dry acc1 f H1) as [? ?], (body_dry acc2 f H2) as [? ?].
  apply IH; [done|done|congruence|by apply body_reads_files_only].
Qed.
End Lockstep.

Lemma by_type_lockstep categories l acc1 acc2 :
  dry_run (organizer acc1) = true → dry_run (organizer acc2) = true →
  files acc1 = files acc2 → result acc1 = result acc2 →
  result (foldl (by_type_body categories) acc1 l) =
  result (foldl (by_type_body categories) acc2 l).
Proof.
  apply fold_lockstep.
  - intros acc f. left. by eexists.
  - intros a1 a2 f H1 H2 Hf Hr. unfold by_type_body.
    rewrite !relocate_dry by done. simpl. by rewrite Hr.
Qed.

Lemma by_name_pattern_lockstep patterns l acc1 acc2 :
  dry_run (organizer acc1) = true → dry_run (organizer acc2) = true →
  files acc1 = files acc2 → result acc1 = result acc2 →
  result (foldl (by_name_pattern_body patterns) acc1 l) =
  result (foldl (by_name_pattern_body patterns) acc2 l).
Proof.
  apply fold_lockstep.
  - intros acc f. left. by eexists.
  - intros a1 a2 f H1 H2 Hf Hr. unfold by_name_pattern_body.
    rewrite !relocate_dry by done. simpl. by rewrite Hr.
Qed.

Lemma by_size_lockstep size_ranges l acc1 acc2 :
  dry_run (organizer acc1) = true → dry_run (organizer acc2) = true →
  files acc1 = files acc2 → result acc1 = result acc2 →
  result (foldl (by_size_body size_ranges) acc1 l) =
  result (foldl (by_size_body size_ranges) acc2 l).
Proof.
  apply fold_lockstep.
  - intros acc f. unfold by_size_body. destruct (FS.stat _ _); [right|left]; by eexists.
  - intros a1 a2 f H1 H2 Hf Hr. unfold by_size_body. rewrite Hf.
    destruct (FS.stat _ _); [done|]. rewrite !relocate_dry by done. simpl. by rewrite Hr.
Qed.

Lemma by_date_lockstep strftime date_format use_creation_date l acc1 acc2 :
  dry_run (organizer acc1) = true → dry_run (organizer acc2) = true →
  files acc1 = files acc2 → result acc1 = result acc2 →
  result (foldl (by_date_body strftime date_format use_creation_date) acc1 l) =
  result (foldl (by_date_body strftime date_format use_creation_date) acc2 l).
Proof.
  apply fold_lockstep.
  - intros acc f. unfold by_date_body. destruct (FS.stat _ _); [right; by eexists|].
    destruct (strftime _ _); [right|left]; by eexists.
  - intros a1 a2 f H1 H2 Hf Hr. unfold by_date_body. rewrite Hf.
    destruct (FS.stat _ _); [done|]. destruct (strftime _ _); [done|].
    rewrite !relocate_dry by done. simpl. by rewrite Hr.
Qed.

Lemma custom_rules_lockstep rs l acc1 acc2 :
  dry_run (organizer acc1) = true → dry_run (organizer acc2) = true →
  files acc1 = files acc2 → result acc1 = result acc2 →
  result (organize_by_custom_rules_loop rs l acc1) =
  result (organize_by_custom_rules_loop rs l acc2).
Proof.
  revert acc1 acc2. induction l as [|f l IH]; intros acc1 acc2 H1 H2 Hf Hr; simpl.
  - by rewrite Hr.
  - rewrite Hf. destruct (_apply_custom_rules _ _ _); [done|].
    apply IH; rewrite !relocate_dry by done; simpl; congruence.
Qed.

Lemma get_files_settings a b fs recursive include_hidden :
  same_settings a b →
  get_files a fs recursive include_hidden = get_files b fs recursive include_hidden.
Proof. intros (H & _). unfold get_files. by rewrite H. Qed.

Lemma organize_loop_settings strftime s self fs l :
  same_settings self (organizer (organize_loop strftime s self fs l)).
Proof.
  destruct (organize_loop_steps strftime s self fs l)
    as (pre & post & acc0 & acc' & _ & Hsteps & <- & _ & _ & -> & _).
  by apply steps_settings in Hsteps.
Qed.

Lemma organize_loop_dry strftime s self fs l :
  dry_run self = true →
  files (organize_loop strftime s self fs l) = fs ∧
  moved_files (organizer (organize_loop strftime s self fs l)) = moved_files self.
Proof.
  intros Hd.
  destruct (organize_loop_steps strftime s self fs l)
    as (pre & post & acc0 & acc' & _ & Hsteps & <- & <- & _ & -> & -> & _).
  by apply steps_dry in Hsteps.
Qed.

Lemma organize_loop_lockstep strftime s self1 self2 fs l :
  dry_run self1 = true → dry_run self2 = true →
  result (organize_loop strftime s self1 fs l) =
  result (organize_loop strftime s self2 fs l).
Proof.
  intros H1 H2. destruct s as [c|fmt ucd|c|pats|[e|rs]]; simpl; [f_equal..|done|].
  - by apply by_type_lockstep.
  - by apply by_date_lockstep.
  - by apply by_size_lockstep.
  - by apply by_name_pattern_lockstep.
  - by apply custom_rules_lockstep.
Qed.

(** ** Dry runs (C7) *)

(** C7.  In dry-run mode a relocation leaves the file system as it was,
    and so does a whole run of any strategy; running the strategy again,
    on the same object or on a fresh one, over the unchanged directory
    gives the same statistics and again changes nothing. *)
Theorem dry_run_is_idempotent strftime s self fs recursive include_hidden :
  dry_run self = true →
  let first := organize strftime s self fs recursive include_hidden in
  let again :=
    organize strftime s (organizer first) (files first) recursive include_hidden in
  (∀ source_path folder, files (_move_file self fs source_path folder) = fs) ∧
  files first = fs ∧
  files again = fs ∧
  result again = result first ∧
  organize strftime s self (files first) recursive include_hidden = first.
Proof.
  intros Hd first again. subst first again. rewrite !organize_is_loop.
  destruct (organize_loop_dry strftime s self fs
              (get_files self fs recursive include_hidden) Hd) as [Hfs _].
  pose proof (organize_loop_settings strftime s self fs
                (get_files self fs recursive include_hidden)) as Hset.
  rewrite Hfs. split_and!.
  - intros source_path folder. by rewrite move_file_dry.
  - done.
  - apply organize_loop_dry. destruct Hset as (_ & _ & <- & _). done.
  - rewrite <- (get_files_settings _ _ _ _ _ Hset).
    apply organize_loop_lockstep; [|done]. destruct Hset as (_ & _ & <- & _). done.
  - done.
Qed.

Lemma dry_run_is_idempotent_witness :
  dry_run (dry_organizer ["src"]) = true ∧
  let first := organize year_of (BySize None) (dry_organizer ["src"]) sizes_fs false false in
  let again := organize year_of (BySize None) (organizer first) (files first) false false in
  (∀ source_path folder,
     files (_move_file (dry_organizer ["src"]) sizes_fs source_path folder) = sizes_fs) ∧
  files first = sizes_fs ∧
  files again = sizes_fs ∧
  result again = result first ∧
  organize year_of (BySize None) (dry_organizer ["src"]) (files first) false false = first.
Proof.
  split; [reflexivity|].
  apply (dry_run_is_idempotent year_of (BySize None) (dry_organizer ["src"]) sizes_fs
           false false).
  reflexivity.
Defined.

(** ** The move log after a dry run (C9) *)

(** C9.  An organizer constructed in dry-run mode has an empty move log
    after a run of any strategy: [get_stats] reports zero moved files and
    [create_undo_script] writes no script, leaves the file system as it
    finds it and only prints its notice.  The per-folder statistics of such
    a run can be non-zero all the same, as in the run over four files of
    which two fall in "Medium (1-10MB)". *)
Theorem dry_run_logs_no_move strftime s fs source target copy recursive include_hidden
    self output_file script_file :
  __init__ fs source target true copy = inr self →
  let run := organize strftime s self fs recursive include_hidden in
  moved_files (organizer run) = [] ∧
  count_moved_files (get_stats (organizer run)) = 0 ∧
  (∀ cwd fs', create_undo_script script_file cwd (organizer run) fs' output_file =
              Outcome (inr None) (organizer run) fs' [NoUndoNeeded]) ∧
  (result (organize year_of (BySize None) (dry_organizer ["src"]) sizes_fs false false)
     = inr {[ "Small (< 1MB)" := 1; "Medium (1-10MB)" := 2; "Very Large (> 100MB)" := 1 ]} ∧
   get_stats (organizer (organize year_of (BySize None) (dry_organizer ["src"]) sizes_fs
                                  false false)) = Counts 0 0).
Proof.
  intros Hinit run. subst run. rewrite organize_is_loop.
  unfold __init__ in Hinit. destruct (negb _); [done|]. injection Hinit as <-.
  match goal with |- context [organize_loop _ _ ?self _ ?l] =>
    destruct (organize_loop_dry strftime s self fs l eq_refl) as [_ Hm] end.
  split; [exact Hm|]. split; [unfold get_stats; by rewrite Hm|].
  split; [intros cwd fs'; unfold create_undo_script; by rewrite Hm|].
  split; [exact sizes_run_result_main | exact sizes_run_counts_main].
Qed.

Lemma dry_run_logs_no_move_witness :
  __init__ sizes_fs ["src"] None true false = inr (dry_organizer ["src"]) ∧
  let run := organize year_of (BySize None) (dry_organizer ["src"]) sizes_fs false false in
  moved_files (organizer run) = [] ∧
  count_moved_files (get_stats (organizer run)) = 0 ∧
  (∀ cwd fs',
     create_undo_script short_script cwd (organizer run) fs' "undo_organization.py" =
     Outcome (inr None) (organizer run) fs' [NoUndoNeeded]) ∧
  (result (organize year_of (BySize None) (dry_organizer ["src"]) sizes_fs false false)
     = inr {[ "Small (< 1MB)" := 1; "Medium (1-10MB)" := 2; "Very Large (> 100MB)" := 1 ]} ∧
   get_stats (organizer (organize year_of (BySize None) (dry_organizer ["src"]) sizes_fs
                                  false false)) = Counts 0 0).
Proof.
  split; [vm_compute; reflexivity|].
  apply (dry_run_logs_no_move year_of (BySize None) sizes_fs ["src"] None false false false
           (dry_organizer ["src"]) "undo_organization.py" short_script).
  vm_compute; reflexivity.
Defined.

(** ** Failures (C8) *)

Lemma blocked_run_logs :
  let r := organize_by_type (live_organizer ["src"] ["out"] false) blocked_fs None
                            false false in
  result r = {[ "Images" := 1 ]} ∧
  moved_files (organizer r) = [["out"; "Images"; "b.png"]] ∧
  failed_files (organizer r) = [["src"; "a.txt"]; ["src"; "c.txt"]] ∧
  output r = [ Organizing 3 "type";
               FailedToMove "a.txt" FileExistsError;
               Moved "b.png" "Images";
               FailedToMove "c.txt" FileExistsError ] ∧
  files r !! ["src"; "a.txt"] = blocked_fs !! ["src"; "a.txt"] ∧
  files r !! ["src"; "c.txt"] = blocked_fs !! ["src"; "c.txt"] ∧
  files r !! ["out"; "Images"; "b.png"] = blocked_fs !! ["src"; "b.png"].
Proof. cbv zeta. split_and!; by_evaluation. Qed.

(** C8.  In a live run [_move_file] never raises.  When the directory
    creation, the move or the copy raises, the file is appended to the
    failure list, its name and the exception are logged, the move log is
    left alone and [False] is returned; when they succeed the resolved
    target path is appended to the move log.  A failing stat under the
    date and size strategies is handled the same way.  A run that returns
    has put every listed file in exactly one of the two logs, the failed
    ones in listing order, whatever failed on the way; and only the
    custom-rules strategy can fail to return.  In the example the files
    before and after the one that is moved both fail, and each is tried
    once. *)
Theorem failures_are_recorded_and_the_batch_continues :
  (∀ self fs source_path folder,
     dry_run self = false →
     _move_file self fs source_path folder =
     let tdir := Path.joinpath (target_dir self) folder in
     match FS.mkdir fs tdir with
     | inl e =>
         record_failure false self fs source_path (FailedToMove (Path.name source_path) e)
     | inr fs1 =>
         let target_path :=
           resolve false fs1 tdir (Path.child tdir (Path.name source_path)) in
         match (if copy_files self then FS.copy2 fs1 source_path target_path
                else FS.move fs1 source_path target_path) with
         | inl e =>
             record_failure false self fs1 source_path
                            (FailedToMove (Path.name source_path) e)
         | inr fs2 =>
             Outcome true (record_move self target_path) fs2
                     [if copy_files self then Copied (Path.name source_path) folder
                      else Moved (Path.name source_path) folder]
         end
     end) ∧
  (∀ (r : bool) self fs source_path ev,
     let o := organizer (record_failure r self fs source_path ev) in
     result (record_failure r self fs source_path ev) = r ∧
     failed_files o = failed_files self ++ [source_path] ∧
     moved_files o = moved_files self ∧
     files (record_failure r self fs source_path ev) = fs ∧
     output (record_failure r self fs source_path ev) = [ev]) ∧
  (∀ self target_path,
     moved_files (record_move self target_path) = moved_files self ++ [target_path] ∧
     failed_files (record_move self target_path) = failed_files self) ∧
  (∀ size_ranges acc file_path e,
     FS.stat (files acc) file_path = inl e →
     let r := by_size_body size_ranges acc file_path in
     result r = result acc ∧ files r = files acc ∧
     moved_files (organizer r) = moved_files (organizer acc) ∧
     failed_files (organizer r) = failed_files (organizer acc) ++ [file_path] ∧
     output r = output acc ++ [FailedToGetSize (Path.name file_path) e]) ∧
  (∀ (strftime : string → Z → exn + string) date_format use_creation_date acc file_path e,
     FS.stat (files acc) file_path = inl e →
     let r := by_date_body strftime date_format use_creation_date acc file_path in
     result r = result acc ∧ files r = files acc ∧
     moved_files (organizer r) = moved_files (organizer acc) ∧
     failed_files (organizer r) = failed_files (organizer acc) ++ [file_path] ∧
     output r = output acc ++ [FailedToGetDate (Path.name file_path) e]) ∧
  (∀ strftime s self fs file_list,
     dry_run self = false →
     let r := organize_loop strftime s self fs file_list in
     (∀ st, result r = inr st →
        ∃ moved failed,
          moved_files (organizer r) = moved_files self ++ moved ∧
          failed_files (organizer r) = failed_files self ++ failed ∧
          length moved + length failed = length file_list ∧
          sublist failed file_list) ∧
     (∀ e, result r = inl e → ∃ loaded, s = ByCustomRules loaded)) ∧
  (let r := organize_by_type (live_organizer ["src"] ["out"] false) blocked_fs None
                             false false in
   result r = {[ "Images" := 1 ]} ∧
   moved_files (organizer r) = [["out"; "Images"; "b.png"]] ∧
   failed_files (organizer r) = [["src"; "a.txt"]; ["src"; "c.txt"]] ∧
   output r = [ Organizing 3 "type";
                FailedToMove "a.txt" FileExistsError;
                Moved "b.png" "Images";
                FailedToMove "c.txt" FileExistsError ] ∧
   files r !! ["src"; "a.txt"] = blocked_fs !! ["src"; "a.txt"] ∧
   files r !! ["src"; "c.txt"] = blocked_fs !! ["src"; "c.txt"] ∧
   files r !! ["out"; "Images"; "b.png"] = blocked_fs !! ["src"; "b.png"]).
Proof.
  split; [intros; by apply move_file_live|].
  split; [done|]. split; [done|].
  split.
  { intros size_ranges acc file_path e Hst. unfold by_size_body. by rewrite Hst. }
  split.
  { intros strftime date_format ucd acc file_path e Hst. unfold by_date_body.
    by rewrite Hst. }
  split; [|exact blocked_run_logs].
  intros strftime s self fs file_list Hd r.
  destruct (organize_loop_steps strftime s self fs file_list)
    as (pre & post & acc0 & acc' & Hl & Hsteps & Ho & _ & _ & Ho' & _ & _ & _ & Hr).
  fold r in Ho', Hr. split.
  - intros st Hst. rewrite Hst in Hr. destruct Hr as [-> _]. rewrite app_nil_r in Hl.
    subst pre. rewrite <- Ho in Hd. destruct (steps_live _ _ _ Hsteps Hd)
      as (ml & fl & Hm & Hf & Hlen & Hsub).
    exists ml, fl. rewrite Ho', <- Ho. done.
  - intros e He. rewrite He in Hr. destruct Hr as [->|(f & post' & -> & Hf)]; [by eexists|].
    destruct s as [c|fmt ucd|c|pats|[e'|rs]]; try done; by eexists.
Qed.

(** ** Name collisions (C2) *)

Lemma resolve_parent fs dir nm :
  Path.parent (resolve false fs dir (Path.child dir nm)) = dir.
Proof.
  destruct (resolve_live fs dir (Path.child dir nm)) as [_ [->|(_ & n & _ & -> & _)]];
    apply parent_child.
Qed.

(** A live relocation of a regular file succeeds as soon as the target
    directory could be created, and puts the file at the resolved path. *)
Lemma move_regular_file self fs source_path folder st data fs1 :
  dry_run self = false →
  fs !! source_path = Some (File st data) →
  FS.mkdir fs (Path.joinpath (target_dir self) folder) = inr fs1 →
  let tdir := Path.joinpath (target_dir self) folder in
  let r := resolve false fs1 tdir (Path.child tdir (Path.name source_path)) in
  _move_file self fs source_path folder =
  Outcome true (record_move self r)
    (if copy_files self then <[r := File st data]> fs1
     else <[r := File st data]> (delete source_path fs1))
    [if copy_files self then Copied (Path.name source_path) folder
     else Moved (Path.name source_path) folder].
Proof.
  intros Hd Hsrc Hmk tdir r. rewrite move_file_live by done. cbv zeta. rewrite Hmk.
  fold tdir. fold r. apply mkdir_spec in Hmk as [Hg Hdir].
  assert (fs1 !! source_path = Some (File st data)) as Hsrc1
    by by eapply grows_by_dirs_Some.
  assert (fs1 !! r = None) as Hfree.
  { apply not_exists_lookup. apply (resolve_live fs1 tdir). }
  assert (fs1 !! Path.parent r = Some Dir) as Hpar.
  { unfold r. by rewrite resolve_parent. }
  destruct (copy_files self).
  - by rewrite (copy_file_to_free _ _ _ st data), Hpar.
  - by rewrite (move_file_to_free _ _ _ st data), Hpar.
Qed.

(** The directories [mkdir] walks through all exist afterwards, and a second
    call on them changes nothing ([exist_ok=True]). *)
Lemma mkdir_ancestors fs p fs' d :
  FS.mkdir fs p = inr fs' → d ∈ FS.ancestors p → fs' !! d = Some Dir.
Proof. intros H Hd. apply mkdir_fold in H as [_ Hl]. by apply Hl. Qed.

Lemma mkdir_fold_existing (p : path) (l : list path) (fs : filesystem) :
  (∀ d, d ∈ l → fs !! d = Some Dir) → foldl (FS.mkdir_one p) (inr fs) l = inr fs.
Proof.
  induction l as [|d l IH]; intros H; simpl; [done|].
  rewrite (H d) by by left. apply IH. intros d' Hd'. apply H. by right.
Qed.

(** One round of the loop: the target is taken and the name numbered 1 is
    free. *)
Lemma resolve_first_numbered fs dir target_path :
  FS.exists_ fs target_path = true →
  FS.exists_ fs (Path.child dir (numbered target_path 1)) = false →
  resolve false fs dir target_path = Path.child dir (numbered target_path 1).
Proof.
  intros H1 H2. unfold resolve. cbn [while_exists]. rewrite H1. cbn [negb andb].
  destruct (size fs); cbn [while_exists]; by rewrite H2.
Qed.

Lemma numbered_one t : numbered t 1 = Path.stem t +:+ "_1" +:+ Path.suffix t.
Proof. reflexivity. Qed.

(** Two files of one name sent to the same folder, whose target and first
    numbered name are both free: the first takes the name, the second the
    name numbered 1. *)
Lemma two_files_one_target self fs p1 p2 folder st1 data1 st2 data2 fs1 :
  dry_run self = false →
  p1 ≠ p2 → Path.name p1 = Path.name p2 →
  fs !! p1 = Some (File st1 data1) → fs !! p2 = Some (File st2 data2) →
  FS.mkdir fs (Path.joinpath (target_dir self) folder) = inr fs1 →
  let tdir := Path.joinpath (target_dir self) folder in
  let t := Path.child tdir (Path.name p1) in
  let t1 := Path.child tdir (Path.stem t +:+ "_1" +:+ Path.suffix t) in
  fs1 !! t = None → fs1 !! t1 = None →
  let first := _move_file self fs p1 folder in
  let second := _move_file (organizer first) (files first) p2 folder in
  moved_files (organizer second) = moved_files self ++ [t; t1] ∧
  failed_files (organizer second) = failed_files self ∧
  files second !! t = Some (File st1 data1) ∧
  files second !! t1 = Some (File st2 data2).
Proof.
  intros Hd Hne Hname Hp1 Hp2 Hmk tdir t t1 Ht Ht1 first second.
  assert (t1 = Path.child tdir (numbered t 1)) as Ht1eq by done.
  assert (t ≠ t1) as Htt.
  { rewrite Ht1eq. unfold t. intros Heq. apply child_inj in Heq.
    symmetry in Heq. revert Heq. rewrite <- (name_child tdir (Path.name p1)) at 2.
    apply numbered_ne_name. }
  pose proof (move_regular_file self fs p1 folder st1 data1 fs1 Hd Hp1 Hmk) as H1.
  cbv zeta in H1. fold tdir in H1. fold t in H1.
  rewrite resolve_free in H1 by by apply not_exists_lookup.
  pose proof Hmk as Hmk'. apply mkdir_spec in Hmk' as [Hg _].
  set (fs2 := if copy_files self then <[t := File st1 data1]> fs1
              else <[t := File st1 data1]> (delete p1 fs1)) in *.
  assert (∀ q, q ≠ t → q ≠ p1 → fs2 !! q = fs1 !! q) as Hfs2.
  { intros q ? ?. unfold fs2. destruct (copy_files self).
    - by rewrite lookup_insert_ne.
    - by rewrite lookup_insert_ne, lookup_delete_ne. }
  assert (fs2 !! t = Some (File st1 data1)) as Hfs2t.
  { unfold fs2. destruct (copy_files self); by rewrite lookup_insert_eq. }
  assert (fs1 !! p1 = Some (File st1 data1)) as Hp11 by by eapply grows_by_dirs_Some.
  assert (fs1 !! p2 = Some (File st2 data2)) as Hp21 by by eapply grows_by_dirs_Some.
  assert (FS.mkdir fs2 tdir = inr fs2) as Hmk2.
  { apply mkdir_fold_existing. intros d Hdin.
    pose proof (mkdir_ancestors _ _ _ _ Hmk Hdin) as Hdir.
    rewrite Hfs2; [done| |]; intros ->; congruence. }
  assert (fs2 !! p2 = Some (File st2 data2)) as Hp22.
  { rewrite Hfs2; [done| |]; [intros -> | done]; congruence. }
  subst second first. rewrite H1. cbn [organizer files].
  rewrite (move_regular_file (record_move self t) fs2 p2 folder st2 data2 fs2); try done.
  cbn [target_dir record_move copy_files organizer files moved_files failed_files].
  fold tdir. rewrite <- Hname. fold t.
  rewrite resolve_first_numbered.
  - rewrite <- Ht1eq, <- app_assoc. split_and!; [done|done| |].
    + destruct (copy_files self).
      * rewrite lookup_insert_ne by done. done.
      * rewrite lookup_insert_ne, lookup_delete_ne; [done| |done]. intros ->. congruence.
    + destruct (copy_files self); by rewrite lookup_insert_eq.
  - apply exists_lookup. by eexists.
  - apply not_exists_lookup. rewrite <- Ht1eq, Hfs2; [done|done|]. intros ->. congruence.
Qed.

Lemma photos_run :
  let r := organize_by_type (live_organizer ["Source"] ["Target"] false) photos_fs None
                            true false in
  moved_files (organizer r)
    = [["Target"; "Images"; "photo.jpg"]; ["Target"; "Images"; "photo_1.jpg"]] ∧
  failed_files (organizer r) = [] ∧
  files r !! ["Target"; "Images"; "photo.jpg"] = photos_fs !! ["Source"; "a"; "photo.jpg"] ∧
  files r !! ["Target"; "Images"; "photo_1.jpg"] = photos_fs !! ["Source"; "b"; "photo.jpg"] ∧
  photos_fs !! ["Source"; "a"; "photo.jpg"] = Some (File (Stat 10 0 0) "first") ∧
  photos_fs !! ["Source"; "b"; "photo.jpg"] = Some (File (Stat 20 0 0) "second") ∧
  files r !! ["Source"; "a"; "photo.jpg"] = None ∧
  files r !! ["Source"; "b"; "photo.jpg"] = None.
Proof. cbv zeta. split_and!; by_evaluation. Qed.

Lemma taken_runs :
  FS.exists_ taken_fs ["Target"; "Images"; "photo.jpg"] = true ∧
  _move_file (Organizer ["Source"] ["Target"] true false [] []) taken_fs
             ["Source"; "photo.jpg"] "Images"
    = Outcome true (Organizer ["Source"] ["Target"] true false [] []) taken_fs
              [WouldMove ["Source"; "photo.jpg"] ["Target"; "Images"; "photo.jpg"]] ∧
  moved_files (organizer (_move_file (live_organizer ["Source"] ["Target"] false) taken_fs
                                     ["Source"; "photo.jpg"] "Images"))
    = [["Target"; "Images"; "photo_1.jpg"]].
Proof.
  split_and!; [by_evaluation| |by_evaluation].
  by rewrite move_file_dry.
Qed.

(** C2.  In a live run the path a file is relocated to is free: it is the
    initial target path when no file exists there, and otherwise the first
    free one among stem_1suffix, stem_2suffix, ... in the target directory,
    every lower number being taken.  Two distinct files of one name sent
    one after the other to the same folder, where that name and the name
    numbered 1 are free, end up under the name and under stem_1suffix, each
    with the contents of its source and both in the move log; so do two
    files [photo.jpg] from two subdirectories in a run by type, as
    [Target/Images/photo.jpg] and [Target/Images/photo_1.jpg].  In a dry run the existence of the target plays
    no part: the relocation reports the initial target path whatever the
    file system holds, even where a live run would have renamed. *)
Theorem collisions_get_a_numbered_name :
  (∀ self fs source_path folder st data fs1,
     dry_run self = false →
     fs !! source_path = Some (File st data) →
     FS.mkdir fs (Path.joinpath (target_dir self) folder) = inr fs1 →
     let tdir := Path.joinpath (target_dir self) folder in
     let target_path := Path.child tdir (Path.name source_path) in
     ∃ r,
       moved_files (organizer (_move_file self fs source_path folder))
         = moved_files self ++ [r] ∧
       files (_move_file self fs source_path folder) !! r = Some (File st data) ∧
       FS.exists_ fs1 r = false ∧
       (FS.exists_ fs1 target_path = false → r = target_path) ∧
       (FS.exists_ fs1 target_path = true →
        ∃ n, 1 ≤ n ∧
             r = Path.child tdir (Path.stem target_path +:+ "_" +:+ pretty n +:+
                                  Path.suffix target_path) ∧
             ∀ k, 1 ≤ k < n →
                  FS.exists_ fs1
                    (Path.child tdir (Path.stem target_path +:+ "_" +:+ pretty k +:+
                                      Path.suffix target_path)) = true)) ∧
  (∀ self fs p1 p2 folder st1 data1 st2 data2 fs1,
     dry_run self = false →
     p1 ≠ p2 → Path.name p1 = Path.name p2 →
     fs !! p1 = Some (File st1 data1) → fs !! p2 = Some (File st2 data2) →
     FS.mkdir fs (Path.joinpath (target_dir self) folder) = inr fs1 →
     let tdir := Path.joinpath (target_dir self) folder in
     let t := Path.child tdir (Path.name p1) in
     let t1 := Path.child tdir (Path.stem t +:+ "_1" +:+ Path.suffix t) in
     fs1 !! t = None → fs1 !! t1 = None →
     let first := _move_file self fs p1 folder in
     let second := _move_file (organizer first) (files first) p2 folder in
     moved_files (organizer second) = moved_files self ++ [t; t1] ∧
     failed_files (organizer second) = failed_files self ∧
     files second !! t = Some (File st1 data1) ∧
     files second !! t1 = Some (File st2 data2)) ∧
  (let r := organize_by_type (live_organizer ["Source"] ["Target"] false) photos_fs None
                             true false in
   moved_files (organizer r)
     = [["Target"; "Images"; "photo.jpg"]; ["Target"; "Images"; "photo_1.jpg"]] ∧
   failed_files (organizer r) = [] ∧
   files r !! ["Target"; "Images"; "photo.jpg"] = photos_fs !! ["Source"; "a"; "photo.jpg"] ∧
   files r !! ["Target"; "Images"; "photo_1.jpg"] = photos_fs !! ["Source"; "b"; "photo.jpg"] ∧
   photos_fs !! ["Source"; "a"; "photo.jpg"] = Some (File (Stat 10 0 0) "first") ∧
   photos_fs !! ["Source"; "b"; "photo.jpg"] = Some (File (Stat 20 0 0) "second") ∧
   files r !! ["Source"; "a"; "photo.jpg"] = None ∧
   files r !! ["Source"; "b"; "photo.jpg"] = None) ∧
  (∀ self fs source_path folder,
     dry_run self = true →
     _move_file self fs source_path folder =
     Outcome true self fs
       [WouldMove source_path
          (Path.child (Path.joinpath (target_dir self) folder) (Path.name source_path))]) ∧
  (FS.exists_ taken_fs ["Target"; "Images"; "photo.jpg"] = true ∧
   _move_file (Organizer ["Source"] ["Target"] true false [] []) taken_fs
              ["Source"; "photo.jpg"] "Images"
     = Outcome true (Organizer ["Source"] ["Target"] true false [] []) taken_fs
               [WouldMove ["Source"; "photo.jpg"] ["Target"; "Images"; "photo.jpg"]] ∧
   moved_files (organizer (_move_file (live_organizer ["Source"] ["Target"] false) taken_fs
                                      ["Source"; "photo.jpg"] "Images"))
     = [["Target"; "Images"; "photo_1.jpg"]]).
Proof.
  split; [|split; [exact two_files_one_target
                  |split; [exact photos_run
                          |split; [intros; by apply move_file_dry | exact taken_runs]]]].
  intros self fs source_path folder st data fs1 Hd Hsrc Hmk tdir target_path.
  rewrite (move_regular_file self fs source_path folder st data fs1) by done.
  fold tdir. fold target_path. cbn [organizer files moved_files record_move].
  exists (resolve false fs1 tdir target_path).
  destruct (resolve_live fs1 tdir target_path) as [Hfree Hcases].
  split_and!.
  - done.
  - destruct (copy_files self); by rewrite lookup_insert_eq.
  - done.
  - intros Hno. destruct Hcases as [->|[Hex _]]; [done | congruence].
  - intros Hex. destruct Hcases as [Heq|[_ Hn]]; [|exact Hn].
    rewrite Heq in Hfree. congruence.
Qed.

(** ** A live run, file by file *)

Lemma planned_targets_app target out1 out2 :
  planned_targets target (out1 ++ out2) =
  planned_targets target out1 ++ planned_targets target out2.
Proof. apply omap_app. Qed.

Lemma steps_failed_mono acc l acc' f :
  steps acc l acc' → dry_run (organizer acc) = false →
  f ∈ failed_files (organizer acc) → f ∈ failed_files (organizer acc').
Proof.
  intros Hsteps Hd Hf. destruct (steps_live _ _ _ Hsteps Hd) as (_ & fl & _ & -> & _).
  apply elem_of_app. by left.
Qed.

(** The ledger of a live run: for every listed file that did not fail, its
    folder and the path it was logged under.  The logged path holds the
    file; whatever else existed and was not listed is still there (in copy
    mode, whatever existed at all). *)
Lemma steps_ledger acc l acc' :
  steps acc l acc' →
  dry_run (organizer acc) = false →
  NoDup l →
  (∀ f, f ∈ l → ∃ st data, files acc !! f = Some (File st data)) →
  ∃ ledger : list (path * string * path),
    moved_files (organizer acc') = moved_files (organizer acc) ++ ledger.*2 ∧
    planned_targets (target_dir (organizer acc)) (output acc') =
      planned_targets (target_dir (organizer acc)) (output acc) ++
      ((fun e : path * string * path =>
          Path.child (Path.joinpath (target_dir (organizer acc)) e.1.2)
                     (Path.name e.1.1)) <$> ledger) ∧
    (∀ f folder r, (f, folder, r) ∈ ledger →
       f ∈ l ∧ files acc' !! r = files acc !! f) ∧
    (∀ f, f ∈ l →
       f ∈ failed_files (organizer acc') ∨ ∃ folder r, (f, folder, r) ∈ ledger) ∧
    (∀ q n, files acc !! q = Some n →
       copy_files (organizer acc) = true ∨ q ∉ l → files acc' !! q = Some n) ∧
    NoDup ledger.*2 ∧
    (∀ r, r ∈ ledger.*2 →
       files acc !! r = None ∨ (copy_files (organizer acc) = false ∧ r ∈ l)).
Proof.
  induction 1 as [acc|acc f folder l acc' Hsteps IH|acc f ev l acc' Hev Hsteps IH];
    intros Hd Hnd Hfiles.
  - exists []. rewrite !app_nil_r.
    split_and!; [done | done | by intros ? ? ? ?%elem_of_nil | by intros ? ?%elem_of_nil
                | by intros | constructor | by intros ? ?%elem_of_nil].
  - apply NoDup_cons in Hnd as [Hfl Hnd].
    destruct (Hfiles f) as (st & data & Hf); [by left|].
    destruct (relocate_settings acc f folder) as (_ & Htgt & Hdry & Hcopy).
    destruct (FS.mkdir (files acc) (Path.joinpath (target_dir (organizer acc)) folder))
      as [e|fs1] eqn:Hmk.
    + (* the directory could not be created: the file is recorded as failed *)
      assert (relocate acc f folder =
              Outcome (result acc)
                (organizer (record_failure false (organizer acc) (files acc) f
                              (FailedToMove (Path.name f) e)))
                (files acc) (output acc ++ [FailedToMove (Path.name f) e])) as Hrel.
      { unfold relocate. rewrite move_file_live by done. cbv zeta. by rewrite Hmk. }
      destruct IH as (ledger & Hm & Hp & He & Hfail & Hframe & Hnd' & Hfresh).
      { by rewrite <- Hdry. } { done. }
      { intros f' Hf'. rewrite Hrel. simpl. apply Hfiles. by right. }
      rewrite Hrel in Hm, Hp, He, Hframe, Hfresh. simpl in Hm, Hp, He, Hframe, Hfresh.
      exists ledger. split_and!.
      * done.
      * rewrite Hp, planned_targets_app. simpl. by rewrite app_nil_r.
      * intros f' folder' r' Hin. destruct (He _ _ _ Hin). split; [by right | done].
      * intros f' [->|Hin]%elem_of_cons; [|by apply Hfail]. left.
        eapply steps_failed_mono; [done| |].
        -- by rewrite <- Hdry.
        -- rewrite Hrel. simpl. apply elem_of_app. right. by left.
      * intros q n Hq Hor. apply Hframe; [done|].
        destruct Hor as [?|Hq']; [by left|]. right. intros ?. apply Hq'. by right.
      * done.
      * intros r Hr. destruct (Hfresh r Hr) as [?|[? ?]]; [by left|].
        right. split; [done | by right].
    + (* the file lands at the resolved path *)
      set (tdir := Path.joinpath (target_dir (organizer acc)) folder) in *.
      set (r := resolve false fs1 tdir (Path.child tdir (Path.name f))).
      pose proof (move_regular_file (organizer acc) (files acc) f folder st data fs1
                    Hd Hf Hmk) as Hmv. cbv zeta in Hmv. fold tdir in Hmv. fold r in Hmv.
      apply mkdir_spec in Hmk as [Hg _].
      assert (fs1 !! r = None) as Hfree
        by (apply not_exists_lookup; apply (resolve_live fs1 tdir)).
      assert (∀ q n, files acc !! q = Some n → q ≠ r) as Hne.
      { intros q n Hq ->. apply (grows_by_dirs_Some _ _ _ _ Hg) in Hq. congruence. }
      assert (∀ q n, files acc !! q = Some n →
                     copy_files (organizer acc) = true ∨ q ≠ f →
                     files (relocate acc f folder) !! q = Some n) as Hstep.
      { intros q n Hq Hor. unfold relocate. rewrite Hmv. simpl.
        pose proof (Hne _ _ Hq). pose proof (grows_by_dirs_Some _ _ _ _ Hg Hq).
        destruct (copy_files (organizer acc)).
        - by rewrite lookup_insert_ne.
        - destruct Hor as [?|?]; [done|].
          by rewrite lookup_insert_ne, lookup_delete_ne. }
      destruct IH as (ledger & Hm & Hp & He & Hfail & Hframe & Hnd' & Hfresh).
      { by rewrite <- Hdry. } { done. }
      { intros f' Hf'. destruct (Hfiles f') as (st' & data' & Hf''); [by right|].
        exists st', data'. apply Hstep; [done|]. right. intros ->. done. }
      rewrite <- Htgt, <- Hcopy in *.
      assert (moved_files (organizer (relocate acc f folder)) =
              moved_files (organizer acc) ++ [r]) as Hm1
        by (unfold relocate; by rewrite Hmv).
      assert (planned_targets (target_dir (organizer acc)) (output (relocate acc f folder)) =
              planned_targets (target_dir (organizer acc)) (output acc) ++
              [Path.child tdir (Path.name f)]) as Hp1.
      { unfold relocate. rewrite Hmv. simpl. rewrite planned_targets_app. f_equal.
        by destruct (copy_files (organizer acc)). }
      assert (files (relocate acc f folder) !! r = Some (File st data)) as Hr1.
      { unfold relocate. rewrite Hmv. simpl.
        destruct (copy_files (organizer acc)); by rewrite lookup_insert_eq. }
      exists ((f, folder, r) :: ledger). split_and!.
      * rewrite Hm, Hm1, <- app_assoc. done.
      * rewrite Hp, Hp1, <- app_assoc. done.
      * intros f' folder' r' [Heq|Hin]%elem_of_cons.
        -- injection Heq as -> -> ->. split; [by left|]. rewrite Hf.
           apply Hframe; [done|]. right. intros Hin.
           destruct (Hfiles r) as (? & ? & Hr); [by right|]. by eapply Hne.
        -- destruct (He _ _ _ Hin) as [Hl Heq]. split; [by right|].
           rewrite Heq. destruct (Hfiles f') as (st' & data' & Hf''); [by right|].
           rewrite Hf''. apply Hstep; [done|]. right. by intros ->.
      * intros f' [->|Hin]%elem_of_cons.
        -- right. exists folder, r. by left.
        -- destruct (Hfail _ Hin) as [?|(folder' & r' & ?)]; [by left|].
           right. exists folder', r'. by right.
      * intros q n Hq Hor. apply Hframe.
        -- apply Hstep; [done|]. destruct Hor as [?|Hq']; [by left|].
           right. intros ->. apply Hq'. by left.
        -- destruct Hor as [?|Hq']; [by left|]. right. intros ?. apply Hq'. by right.
      * rewrite fmap_cons. apply NoDup_cons. split; [|done]. simpl.
        intros Hin. destruct (Hfresh r Hin) as [Hnone|[_ Hrl]]; [congruence|].
        destruct (Hfiles r) as (? & ? & Hr); [by right|]. by eapply Hne.
      * rewrite fmap_cons. intros r' [->|Hin]%elem_of_cons.
        -- left. simpl. by eapply grows_by_dirs_None.
        -- destruct (Hfresh r' Hin) as [Hnone|[? ?]]; [|right; split; [done|by right]].
           unfold relocate in Hnone. rewrite Hmv in Hnone. simpl in Hnone.
           destruct (copy_files (organizer acc)) eqn:Hc.
           ++ left. apply lookup_insert_None in Hnone as [Hnone _].
              by eapply grows_by_dirs_None.
           ++ apply lookup_insert_None in Hnone as [Hnone _].
              apply lookup_delete_None in Hnone as [->|Hnone].
              ** right. split; [done | by left].
              ** left. by eapply grows_by_dirs_None.
  - apply NoDup_cons in Hnd as [Hfl Hnd].
    destruct IH as (ledger & Hm & Hp & He & Hfail & Hframe & Hnd' & Hfresh); [done|done|..].
    { intros f' Hf'. simpl. apply Hfiles. by right. }
    simpl in Hm, Hp, He, Hframe, Hfresh.
    exists ledger. split_and!.
    + done.
    + rewrite Hp, planned_targets_app. simpl. destruct ev; try done; by rewrite app_nil_r.
    + intros f' folder' r' Hin. destruct (He _ _ _ Hin). split; [by right | done].
    + intros f' [->|Hin]%elem_of_cons; [|by apply Hfail]. left.
      eapply steps_failed_mono; [done|done|].
      simpl. apply elem_of_app. right. by left.
    + intros q n Hq Hor. apply Hframe; [done|].
      destruct Hor as [?|Hq']; [by left|]. right. intros ?. apply Hq'. by right.
    + done.
    + intros r Hr. destruct (Hfresh r Hr) as [?|[? ?]]; [by left|].
      right. split; [done | by right].
Qed.

(** ** Enumeration *)

Lemma get_files_spec self fs recursive include_hidden :
  NoDup (get_files self fs recursive include_hidden) ∧
  ∀ f, f ∈ get_files self fs recursive include_hidden →
       (∃ st data, fs !! f = Some (File st data)) ∧
       fs !! source_dir self = Some Dir.
Proof.
  unfold get_files.
  set (keep := fun item : path =>
         FS.is_file fs item &&
         negb (negb include_hidden && Str.startswith (Path.name item) ".")).
  set (R := fun p q : path => Is_true (Path.leb p q)).
  pose proof (merge_sort_Permutation R
                (List.filter keep (FS.glob fs (source_dir self) recursive))) as Hperm.
  split.
  - rewrite Hperm. apply NoDup_ListNoDup, List.NoDup_filter. unfold FS.glob.
    destruct (FS.is_dir fs (source_dir self)); [|constructor].
    apply List.NoDup_filter, NoDup_ListNoDup, NoDup_fst_map_to_list.
  - intros f Hf. rewrite Hperm in Hf.
    apply list_elem_of_In, filter_In in Hf as [Hglob Hkeep].
    apply andb_true_iff in Hkeep as [Hfile _]. split.
    + unfold FS.is_file in Hfile. destruct (fs !! f) as [[st data|]|]; by eauto.
    + unfold FS.glob in Hglob. unfold FS.is_dir in Hglob.
      by destruct (fs !! source_dir self) as [[]|].
Qed.

(** ** The undo script, entry by entry *)

Lemma undo_resolve fs source target_path :
  default target_path
    (undo_while_exists (S (size fs)) fs source target_path target_path 1) =
  resolve false fs source target_path.
Proof. unfold resolve. by rewrite undo_while_exists_same. Qed.

(** A logged path that holds a regular file is moved into the source root,
    to the path the relocator's own conflict policy picks there. *)
Lemma undo_body_file source acc p st data :
  undo_files acc !! p = Some (File st data) →
  undo_files acc !! source = Some Dir →
  undo_body source acc p =
  UndoState
    (<[resolve false (undo_files acc) source (Path.child source (Path.name p))
       := File st data]> (delete p (undo_files acc)))
    (S (success_count acc))
    (undo_output acc ++ [MovedBack (Path.name p)]).
Proof.
  intros Hp Hsrc. unfold undo_body. unfold FS.exists_ at 1. rewrite Hp, undo_resolve.
  set (r := resolve false _ _ _).
  assert (undo_files acc !! r = None) as Hfree
    by (apply not_exists_lookup; apply (resolve_live (undo_files acc) source)).
  rewrite (move_file_to_free _ _ _ st data) by done.
  unfold r. by rewrite resolve_parent, Hsrc.
Qed.

(** A logged path that no longer exists is reported and passed over. *)
Lemma undo_body_missing source acc p :
  undo_files acc !! p = None →
  undo_body source acc p =
  UndoState (undo_files acc) (success_count acc) (undo_output acc ++ [FileNotFound p]).
Proof. intros Hp. unfold undo_body, FS.exists_. by rewrite Hp. Qed.

(** Whatever happens to an entry, the script prints one line for it and
    goes on to the next. *)
Lemma undo_body_output source acc p :
  ∃ ev, undo_output (undo_body source acc p) = undo_output acc ++ [ev].
Proof.
  unfold undo_body. destruct (FS.exists_ _ _); [|by eexists].
  destruct (FS.move _ _ _); by eexists.
Qed.

Lemma undo_fold_output source log acc :
  length (undo_output (foldl (undo_body source) acc log)) =
  length (undo_output acc) + length log.
Proof.
  revert acc. induction log as [|p log IH]; intros acc; simpl; [lia|].
  rewrite IH. destruct (undo_body_output source acc p) as [ev ->].
  rewrite length_app. simpl. lia.
Qed.

(** When the logged files have pairwise distinct names and the source root
    holds nothing under these names, each is restored under its name. *)
Lemma undo_restores source (entries : list (path * node)) acc :
  NoDup (Path.name <$> entries.*1) →
  (∀ r n, (r, n) ∈ entries → undo_files acc !! r = Some n ∧ is_regular n) →
  (∀ r, r ∈ entries.*1 → undo_files acc !! Path.child source (Path.name r) = None) →
  undo_files acc !! source = Some Dir →
  let u := foldl (undo_body source) acc entries.*1 in
  (∀ r n, (r, n) ∈ entries →
     undo_files u !! Path.child source (Path.name r) = Some n ∧ undo_files u !! r = None) ∧
  success_count u = success_count acc + length entries ∧
  undo_output u = undo_output acc ++ ((fun r => MovedBack (Path.name r)) <$> entries.*1) ∧
  (∀ q, q ∉ entries.*1 →
        q ∉ ((fun r => Path.child source (Path.name r)) <$> entries.*1) →
        undo_files u !! q = undo_files acc !! q).
Proof.
  revert acc. induction entries as [|[r n] entries IH]; intros acc Hnd Hin Hfree Hsrc; simpl.
  - rewrite app_nil_r. split_and!; try done. by intros ? ? ?%elem_of_nil.
  - rewrite fmap_cons in Hnd. apply NoDup_cons in Hnd as [Hname Hnd]. simpl in Hname.
    destruct (Hin r n) as [Hr Hreg]; [by left|].
    destruct n as [st data|]; [|done].
    assert (undo_files acc !! Path.child source (Path.name r) = None) as Hd
      by (apply Hfree; by left).
    rewrite (undo_body_file source acc r st data) by done.
    rewrite resolve_free by by apply not_exists_lookup.
    set (d := Path.child source (Path.name r)) in *.
    set (acc1 := UndoState _ _ _).
    assert (∀ r', r' ∈ entries.*1 → Path.name r' ≠ Path.name r) as Hnames.
    { intros r' Hr' Heq. apply Hname. rewrite <- Heq.
      apply list_elem_of_fmap. by exists r'. }
    assert (∀ r' n', (r', n') ∈ entries → r' ≠ r ∧ r' ≠ d ∧ undo_files acc !! r' = Some n')
      as Hrest.
    { intros r' n' Hr'. destruct (Hin r' n') as [Hl _]; [by right|]. split_and!; [| |done].
      - intros ->. eapply Hnames; [|done]. apply list_elem_of_fmap. by exists (r, n').
      - intros ->. congruence. }
    destruct (IH acc1) as (Hall & Hcount & Hout & Hframe).
    + done.
    + intros r' n' Hr'. destruct (Hrest _ _ Hr') as (? & ? & ?).
      destruct (Hin r' n') as [_ ?]; [by right|]. split; [|done].
      unfold acc1. simpl. by rewrite lookup_insert_ne, lookup_delete_ne.
    + intros r' Hr'. unfold acc1. simpl.
      rewrite lookup_insert_ne.
      * rewrite lookup_delete. case_decide; [done|]. apply Hfree. by right.
      * intros Heq. apply child_inj in Heq. by eapply Hnames.
    + unfold acc1. simpl. rewrite lookup_insert_ne, lookup_delete_ne; [done| |].
      * intros Heq. congruence.
      * intros Heq. congruence.
    + assert (r ∉ entries.*1) as Hr1.
      { intros Hr'. by eapply Hnames. }
      assert (d ∉ entries.*1) as Hd1.
      { intros (x & Heq & Hx)%list_elem_of_fmap. destruct x as [r' n']. simpl in Heq.
        subst r'. destruct (Hrest _ _ Hx) as (_ & ? & _). done. }
      assert (d ∉ ((fun r => Path.child source (Path.name r)) <$> entries.*1)) as Hd2.
      { intros (r' & Heq & Hr')%list_elem_of_fmap. apply child_inj in Heq.
        by eapply Hnames. }
      assert (r ∉ ((fun r => Path.child source (Path.name r)) <$> entries.*1)) as Hr2.
      { intros (r' & -> & Hr')%list_elem_of_fmap.
        specialize (Hfree r' (list_elem_of_further _ _ _ Hr')). congruence. }
      assert (r ≠ d) as Hrd by (intros Heq; congruence).
      split_and!.
      * intros r' n' [Heq|Hr']%elem_of_cons.
        -- injection Heq as -> ->. rewrite !Hframe by done. unfold acc1. simpl.
           by rewrite lookup_insert_eq, lookup_insert_ne, lookup_delete_eq.
        -- by apply Hall.
      * etrans; [exact Hcount|]. unfold acc1. simpl. lia.
      * etrans; [exact Hout|]. unfold acc1. simpl. by rewrite <- app_assoc.
      * intros q Hq1 Hq2. apply not_elem_of_cons in Hq1 as [? ?].
        apply not_elem_of_cons in Hq2 as [? ?]. rewrite Hframe by done.
        unfold acc1. simpl. by rewrite lookup_insert_ne, lookup_delete_ne.
Qed.

(** ** Writing the script and reading it back *)

Lemma script_path cwd :
  path_of cwd "undo_organization.py" = Path.child cwd "undo_organization.py".
Proof. reflexivity. Qed.

Lemma write_text_spec fs cwd name st text fs' :
  FS.write_text fs cwd name st text = inr fs' →
  fs' = <[path_of cwd name := File st text]> fs ∧ fs !! path_of cwd name ≠ Some Dir.
Proof.
  unfold FS.write_text, path_of. destruct (String.eqb name ""); [done|].
  destruct (fs !! Path.joinpath cwd name) as [[? ?|]|] eqn:Hp; try done;
    (destruct (fs !! Path.parent _) as [[? ?|]|]; try done);
    (destruct (Str.endswith name "/"); try done); by intros [= <-].
Qed.

Lemma write_text_default fs cwd st text :
  fs !! cwd = Some Dir →
  fs !! Path.child cwd "undo_organization.py" ≠ Some Dir →
  FS.write_text fs cwd "undo_organization.py" st text =
  inr (<[Path.child cwd "undo_organization.py" := File st text]> fs).
Proof.
  intros Hroot Hp. unfold FS.write_text.
  change (Path.joinpath cwd "undo_organization.py")
    with (Path.child cwd "undo_organization.py").
  change (String.eqb "undo_organization.py" "") with false.
  change (Str.endswith "undo_organization.py" "/") with false.
  rewrite parent_child, Hroot.
  by destruct (fs !! Path.child cwd "undo_organization.py") as [[? ?|]|].
Qed.

(** A script that was written holds the move log and the source directory
    of the object, and is the one change to the file system. *)
Lemma create_undo_script_written script_file cwd self fs output_file script :
  let made := create_undo_script script_file cwd self fs output_file in
  result made = inr (Some script) →
  script = UndoScript (moved_files self) (source_dir self) ∧
  moved_files self ≠ [] ∧
  organizer made = self ∧
  output made = [UndoScriptCreated output_file] ∧
  ∃ st text, script_file (moved_files self) (source_dir self) = (st, inr text) ∧
             files made = <[path_of cwd output_file := File st text]> fs ∧
             fs !! path_of cwd output_file ≠ Some Dir.
Proof.
  unfold create_undo_script. destruct (moved_files self) as [|t log] eqn:Hm; [done|].
  destruct (script_file _ _) as [st [e|text]].
  - by destruct (FS.write_text _ _ _ _ _).
  - destruct (FS.write_text _ _ _ _ _) as [e|fs'] eqn:Hw; [done|]. simpl.
    intros [= <-]. apply write_text_spec in Hw as [-> ?].
    split_and!; try done. by exists st, text.
Qed.

Lemma reread_plain source_literal source_dir :
  plain_path source_dir = true → reread source_literal source_dir = inr source_dir.
Proof. intros H. unfold reread. by rewrite H. Qed.

Lemma run_script_plain source_literal script fs :
  plain_path (script_source_dir script) = true →
  run_script source_literal script fs = inr (undo_organization script fs).
Proof. intros H. unfold run_script. rewrite reread_plain by done. by destruct script. Qed.

(** A run that returned and whose script was written, for a source
    directory that is plain: the script is run on the file system the run
    left, with the script added to it. *)
Lemma run_then_undo_written script_file source_literal cwd strftime s self fs
    recursive include_hidden st script :
  let run := organize strftime s self fs recursive include_hidden in
  let made :=
    create_undo_script script_file cwd (organizer run) (files run) "undo_organization.py" in
  result run = inr st →
  result made = inr (Some script) →
  plain_path (source_dir self) = true →
  run_then_undo script_file source_literal cwd strftime s self fs recursive include_hidden =
    Some (inr (undo_organization
                 (UndoScript (moved_files (organizer run)) (source_dir self))
                 (files made))) ∧
  moved_files (organizer run) ≠ [] ∧
  ∃ st' text,
    files made = <[Path.child cwd "undo_organization.py" := File st' text]> (files run) ∧
    files run !! Path.child cwd "undo_organization.py" ≠ Some Dir.
Proof.
  intros run made Hret Hmade Hplain. unfold run_then_undo. fold run. rewrite Hret.
  fold made. rewrite Hmade.
  destruct (create_undo_script_written script_file cwd (organizer run) (files run)
              "undo_organization.py" script Hmade)
    as (-> & Hne & _ & _ & st' & text & _ & Hfiles & Hdir).
  fold made in Hfiles. rewrite script_path in Hfiles, Hdir.
  assert (source_dir (organizer run) = source_dir self) as Hsrc.
  { unfold run. rewrite organize_is_loop.
    by destruct (organize_loop_settings strftime s self fs
                   (get_files self fs recursive include_hidden)) as (<- & _). }
  rewrite Hsrc. rewrite run_script_plain by done.
  split_and!; [done|done|]. by exists st', text.
Qed.

(** ** Undoing a move run (C4) *)

Lemma fmap_eq_pointwise {A B} (f g : A → B) (l : list A) x :
  f <$> l = g <$> l → x ∈ l → f x = g x.
Proof.
  induction l as [|a l IH]; intros Heq Hx; [by apply elem_of_nil in Hx|].
  rewrite !fmap_cons in Heq. injection Heq as Ha Hl.
  apply elem_of_cons in Hx as [->|Hx]; auto.
Qed.

(** The round trip: after a live move run that returned, in which every
    logged path is the one first planned, the script brings every file
    that was moved back to the source root under its own name, provided
    the logged files have pairwise distinct names and the source root holds
    nothing under these names when the script starts. *)
Lemma undo_round_trip strftime s source target fs recursive include_hidden st fs1 :
  let self := live_organizer source target false in
  let run := organize strftime s self fs recursive include_hidden in
  let u := undo_organization (UndoScript (moved_files (organizer run)) source) fs1 in
  result run = inr st →
  moved_files (organizer run) = planned_targets target (output run) →
  NoDup (Path.name <$> moved_files (organizer run)) →
  (∀ t, t ∈ moved_files (organizer run) → fs1 !! t = files run !! t) →
  (files run !! source = Some Dir → fs1 !! source = Some Dir) →
  Forall (fun t => fs1 !! Path.child source (Path.name t) = None)
         (moved_files (organizer run)) →
  (∀ f n, f ∈ get_files self fs recursive include_hidden →
          f ∉ failed_files (organizer run) →
          fs !! f = Some n →
          undo_files u !! Path.child source (Path.name f) = Some n) ∧
  (∀ t, t ∈ moved_files (organizer run) → undo_files u !! t = None) ∧
  success_count u = length (moved_files (organizer run)).
Proof.
  intros self run u Hret Hplan Hnames Hsame Hroot Hfree. subst u run.
  rewrite organize_is_loop in *.
  set (l := get_files self fs recursive include_hidden) in *.
  destruct (get_files_spec self fs recursive include_hidden) as [Hnd Hl]. fold l in Hnd, Hl.
  destruct (organize_loop_steps strftime s self fs l)
    as (pre & post & acc0 & acc' & Hpp & Hsteps & Ho & Hf & _ & Ho' & Hf' & Hout0 & Hout & Hr).
  rewrite Hret in Hr. destruct Hr as [-> _]. rewrite app_nil_r in Hpp. subst pre.
  rewrite Ho', Hf', Hout in *.
  destruct (steps_ledger acc0 l acc' Hsteps)
    as (ledger & Hm & Hp & He & Hfail & Hframe & _ & _).
  { by rewrite Ho. } { done. }
  { intros f Hin. rewrite Hf. by apply Hl. }
  rewrite Ho in Hm, Hp, Hframe. rewrite Hf in He, Hframe. simpl in Hm, Hp.
  rewrite Hout0 in Hp. simpl in Hp. rewrite Hm, Hp in Hplan.
  rewrite Hm in *. clear Hm.
  assert (∀ f folder r, (f, folder, r) ∈ ledger →
            Path.name r = Path.name f ∧
            ∃ st0 data, fs !! f = Some (File st0 data) ∧
                        files acc' !! r = Some (File st0 data)) as Hled.
  { intros f folder r Hin. destruct (He _ _ _ Hin) as [Hfl Hr]. split.
    - pose proof (fmap_eq_pointwise _ _ _ _ Hplan Hin) as Heq. simpl in Heq.
      rewrite Heq. apply name_child.
    - destruct (Hl f Hfl) as [(st0 & data & Hf0) _]. exists st0, data.
      split; [done | congruence]. }
  assert (ledger = [] ∨ files acc' !! source = Some Dir) as [Hnil|Hsrc].
  { destruct ledger as [|[[f0 folder0] r0] ledger0]; [by left | right].
    destruct (He f0 folder0 r0) as [Hin0 _]; [by left|].
    destruct (Hl f0 Hin0) as [_ Hdir]. apply Hframe; [done|]. right.
    intros Hin. destruct (Hl _ Hin) as [(? & ? & ?) _].
    change (source_dir self) with source in Hdir. congruence. }
  { subst ledger. simpl. split_and!; [|by intros ? ?%elem_of_nil|done].
    intros f n Hin Hnf _. destruct (Hfail f Hin) as [?|(? & ? & ?%elem_of_nil)]; done. }
  set (entries := (fun e : path * string * path => (e.2, default Dir (fs !! e.1.1)))
                  <$> ledger).
  assert (entries.*1 = ledger.*2) as Hlog.
  { unfold entries. rewrite <- list_fmap_compose. done. }
  destruct (undo_restores source entries (UndoState fs1 0 []))
    as (Hall & Hcount & _ & _).
  - by rewrite Hlog.
  - intros r n (e & Heq & Hin)%list_elem_of_fmap. destruct e as [[f folder] r'].
    injection Heq as -> ->. destruct (Hled _ _ _ Hin) as [_ (st0 & data & Hf0 & Hr0)].
    simpl. rewrite Hf0. simpl. split; [|done]. rewrite Hsame; [done|].
    apply list_elem_of_fmap. by exists (f, folder, r').
  - intros r Hin. rewrite Hlog in Hin. simpl.
    by apply (proj1 (Forall_forall _ _) Hfree).
  - simpl. by apply Hroot.
  - rewrite Hlog in Hall, Hcount. simpl in Hcount.
    unfold undo_organization. simpl. split_and!.
    + intros f n Hin Hnf Hfn. destruct (Hfail f Hin) as [?|(folder & r & Hled')]; [done|].
      destruct (Hled _ _ _ Hled') as [Hname _]. rewrite <- Hname.
      apply (Hall r n). apply list_elem_of_fmap. exists (f, folder, r).
      split; [|done]. simpl. by rewrite Hfn.
    + intros t (e & -> & Hin)%list_elem_of_fmap. destruct e as [[f folder] r].
      destruct (Hled _ _ _ Hin) as [_ (st0 & data & Hf0 & _)].
      apply (Hall r (File st0 data)). apply list_elem_of_fmap. exists (f, folder, r).
      split; [|done]. simpl. by rewrite Hf0.
    + rewrite Hcount. unfold entries. by rewrite !length_fmap.
Qed.

Lemma undo_body_raises source acc p e :
  FS.exists_ (undo_files acc) p = true →
  FS.move (undo_files acc) p
          (resolve false (undo_files acc) source (Path.child source (Path.name p))) = inl e →
  undo_body source acc p =
  UndoState (undo_files acc) (success_count acc)
            (undo_output acc ++ [FailedToMoveBack p e]).
Proof. intros Hex Hmv. unfold undo_body. by rewrite Hex, undo_resolve, Hmv. Qed.

Lemma undo_body_files source acc1 acc2 p :
  undo_files acc1 = undo_files acc2 →
  undo_files (undo_body source acc1 p) = undo_files (undo_body source acc2 p).
Proof.
  intros H. unfold undo_body. rewrite H. destruct (FS.exists_ _ _); [|done].
  by destruct (FS.move _ _ _).
Qed.

Lemma undo_fold_files source log acc1 acc2 :
  undo_files acc1 = undo_files acc2 →
  undo_files (foldl (undo_body source) acc1 log) =
  undo_files (foldl (undo_body source) acc2 log).
Proof.
  revert acc1 acc2. induction log as [|p log IH]; intros acc1 acc2 H; simpl; [done|].
  by apply IH, undo_body_files.
Qed.

(** The script works through the log in order: undoing a log is undoing
    its first part and then the rest. *)
Lemma undo_in_order source log1 log2 fs :
  undo_files (undo_organization (UndoScript (log1 ++ log2) source) fs) =
  undo_files (undo_organization (UndoScript log2 source)
                (undo_files (undo_organization (UndoScript log1 source) fs))).
Proof. unfold undo_organization. simpl. rewrite foldl_app. by apply undo_fold_files. Qed.

Lemma undo_one_line_each source log fs :
  length (undo_output (undo_organization (UndoScript log source) fs)) = length log + 1.
Proof.
  unfold undo_organization. simpl. rewrite length_app, undo_fold_output. simpl. lia.
Qed.

(** Examples of a run followed by its script are settled by running
    both. *)
Lemma ran_spec (r : option (exn + undo_state)) (P : undo_state → Prop) :
  match r with Some (inr u) => P u | _ => False end → ∃ u, r = Some (inr u) ∧ P u.
Proof. destruct r as [[e|u]|]; try done. intros H. by exists u. Qed.

Ltac by_running := apply ran_spec; vm_compute; repeat split.

Lemma tidy_round_trip_facts :
  let self := live_organizer ["src"] ["out"] false in
  let run := organize year_of (ByType None) self tidy_fs false false in
  let made :=
    create_undo_script short_script [] (organizer run) (files run) "undo_organization.py" in
  result run = inr {[ "Documents" := 2; "Images" := 1 ]} ∧
  result made = inr (Some (UndoScript (moved_files (organizer run)) ["src"])) ∧
  plain_path ["src"] = true ∧
  moved_files (organizer run) = planned_targets ["out"] (output run) ∧
  NoDup (Path.name <$> moved_files (organizer run)) ∧
  (Path.child [] "undo_organization.py" ∉ moved_files (organizer run)) ∧
  Forall (fun t => files made !! Path.child ["src"] (Path.name t) = None)
         (moved_files (organizer run)).
Proof. cbv zeta. split_and!; by_evaluation. Qed.

Lemma photos_undo_facts :
  ∃ u, run_then_undo short_script unreadable [] year_of (ByType None)
                     (live_organizer ["Source"] ["Target"] false) photos_fs true false
       = Some (inr u) ∧
       undo_files u !! ["Source"; "photo.jpg"] = Some (File (Stat 10 0 0) "first") ∧
       undo_files u !! ["Source"; "photo_1.jpg"] = Some (File (Stat 20 0 0) "second") ∧
       undo_files u !! ["Source"; "a"; "photo.jpg"] = None ∧
       undo_files u !! ["Source"; "b"; "photo.jpg"] = None ∧
       undo_output u = [MovedBack "photo.jpg"; MovedBack "photo_1.jpg"; MovedBackTotal 2].
Proof. by_running. Qed.

(** C4, as amended.  After a live move run that returned and whose forward
    pass had no name collisions (every logged path is the one first
    planned), running the script that [create_undo_script] wrote restores
    every moved file to the source root under its original name and
    empties the logged paths, provided that the moved files have pairwise
    distinct names, that the script, written into the working directory as
    [undo_organization.py], did not replace one of them, that the source
    directory is written in plain characters (the script holds it between
    double quotes, unescaped), and that the source root holds nothing
    under these names when the script starts, the script itself included.
    With a move log that is not empty, [create_undo_script] writes the
    script, which holds the log and the source directory, and changes
    nothing else.  In general the script takes the logged paths in logged
    order and prints one line for each: a path that no longer exists is
    passed over; one that holds a file is moved into the source root under
    its own basename, or under the first free stem_N suffix when that is
    taken, by the very loop the relocator uses; a move that raises is
    reported and the next entry is taken.  A file renamed by a collision in
    the forward pass comes back under the name it was given, as
    [photo_1.jpg] does. *)
Theorem undo_restores_moved_files :
  (∀ script_file source_literal cwd strftime s source target fs recursive
     include_hidden st script,
     let self := live_organizer source target false in
     let run := organize strftime s self fs recursive include_hidden in
     let made :=
       create_undo_script script_file cwd (organizer run) (files run)
                          "undo_organization.py" in
     result run = inr st →
     result made = inr (Some script) →
     plain_path source = true →
     moved_files (organizer run) = planned_targets target (output run) →
     NoDup (Path.name <$> moved_files (organizer run)) →
     Path.child cwd "undo_organization.py" ∉ moved_files (organizer run) →
     Forall (fun t => files made !! Path.child source (Path.name t) = None)
            (moved_files (organizer run)) →
     ∃ u, run_then_undo script_file source_literal cwd strftime s self fs
                        recursive include_hidden = Some (inr u) ∧
          (∀ f n, f ∈ get_files self fs recursive include_hidden →
                  f ∉ failed_files (organizer run) →
                  fs !! f = Some n →
                  undo_files u !! Path.child source (Path.name f) = Some n) ∧
          (∀ t, t ∈ moved_files (organizer run) → undo_files u !! t = None) ∧
          success_count u = length (moved_files (organizer run))) ∧
  (∀ script_file cwd self fs st text,
     moved_files self ≠ [] →
     script_file (moved_files self) (source_dir self) = (st, inr text) →
     fs !! cwd = Some Dir →
     fs !! Path.child cwd "undo_organization.py" ≠ Some Dir →
     create_undo_script script_file cwd self fs "undo_organization.py" =
     Outcome (inr (Some (UndoScript (moved_files self) (source_dir self)))) self
             (<[Path.child cwd "undo_organization.py" := File st text]> fs)
             [UndoScriptCreated "undo_organization.py"]) ∧
  (∀ source_literal script fs,
     plain_path (script_source_dir script) = true →
     run_script source_literal script fs = inr (undo_organization script fs)) ∧
  (∀ source log1 log2 fs,
     undo_files (undo_organization (UndoScript (log1 ++ log2) source) fs) =
     undo_files (undo_organization (UndoScript log2 source)
                   (undo_files (undo_organization (UndoScript log1 source) fs)))) ∧
  (∀ source log fs,
     length (undo_output (undo_organization (UndoScript log source) fs)) = length log + 1) ∧
  (∀ source acc p,
     undo_files acc !! p = None →
     undo_body source acc p =
     UndoState (undo_files acc) (success_count acc)
               (undo_output acc ++ [FileNotFound p])) ∧
  (∀ source acc p st data,
     undo_files acc !! p = Some (File st data) →
     undo_files acc !! source = Some Dir →
     undo_body source acc p =
     UndoState
       (<[resolve false (undo_files acc) source (Path.child source (Path.name p))
          := File st data]> (delete p (undo_files acc)))
       (S (success_count acc))
       (undo_output acc ++ [MovedBack (Path.name p)])) ∧
  (∀ source acc p e,
     FS.exists_ (undo_files acc) p = true →
     FS.move (undo_files acc) p
             (resolve false (undo_files acc) source (Path.child source (Path.name p)))
       = inl e →
     undo_body source acc p =
     UndoState (undo_files acc) (success_count acc)
               (undo_output acc ++ [FailedToMoveBack p e])) ∧
  (∀ fs dir target_path,
     let r := resolve false fs dir target_path in
     FS.exists_ fs r = false ∧
     (r = target_path ∨
      FS.exists_ fs target_path = true ∧
      ∃ n, 1 ≤ n ∧ r = Path.child dir (numbered target_path n) ∧
           ∀ k, 1 ≤ k < n →
                FS.exists_ fs (Path.child dir (numbered target_path k)) = true)) ∧
  (∀ fuel fs dir original_target target_path c,
     undo_while_exists fuel fs dir original_target target_path c =
     while_exists fuel false fs dir original_target target_path c) ∧
  (∃ u, run_then_undo short_script unreadable [] year_of (ByType None)
                      (live_organizer ["Source"] ["Target"] false) photos_fs true false
        = Some (inr u) ∧
        undo_files u !! ["Source"; "photo.jpg"] = Some (File (Stat 10 0 0) "first") ∧
        undo_files u !! ["Source"; "photo_1.jpg"] = Some (File (Stat 20 0 0) "second") ∧
        undo_files u !! ["Source"; "a"; "photo.jpg"] = None ∧
        undo_files u !! ["Source"; "b"; "photo.jpg"] = None ∧
        undo_output u
          = [MovedBack "photo.jpg"; MovedBack "photo_1.jpg"; MovedBackTotal 2]).
Proof.
  split.
  { intros script_file source_literal cwd strftime s source target fs recursive
      include_hidden st script self run made Hret Hmade Hplain Hplan Hnames Hscript Hfree.
    destruct (run_then_undo_written script_file source_literal cwd strftime s self fs
                recursive include_hidden st script Hret Hmade Hplain)
      as (Hrun & _ & st' & text & Hfiles & Hdir).
    fold run made in Hrun, Hfiles, Hdir.
    eexists. split; [exact Hrun|].
    apply (undo_round_trip strftime s source target fs recursive include_hidden st);
      try done.
    - intros t Ht. rewrite Hfiles. apply lookup_insert_ne. by intros <-.
    - intros Hsrc. rewrite Hfiles, lookup_insert_ne; [done|]. intros <-. by apply Hdir. }
  split.
  { intros script_file cwd self fs st text Hne Hfile Hroot Hp. unfold create_undo_script.
    destruct (moved_files self) eqn:Hm; [done|].
    by rewrite Hfile, write_text_default. }
  split; [exact run_script_plain|].
  split; [exact undo_in_order|].
  split; [exact undo_one_line_each|].
  split; [exact undo_body_missing|].
  split; [exact undo_body_file|].
  split; [exact undo_body_raises|].
  split; [exact resolve_live|].
  split; [exact undo_while_exists_same|].
  exact photos_undo_facts.
Qed.

Lemma undo_restores_moved_files_witness :
  let self := live_organizer ["src"] ["out"] false in
  let run := organize year_of (ByType None) self tidy_fs false false in
  let made :=
    create_undo_script short_script [] (organizer run) (files run) "undo_organization.py" in
  (result run = inr {[ "Documents" := 2; "Images" := 1 ]} ∧
   result made = inr (Some (UndoScript (moved_files (organizer run)) ["src"])) ∧
   plain_path ["src"] = true ∧
   moved_files (organizer run) = planned_targets ["out"] (output run) ∧
   NoDup (Path.name <$> moved_files (organizer run)) ∧
   (Path.child [] "undo_organization.py" ∉ moved_files (organizer run)) ∧
   Forall (fun t => files made !! Path.child ["src"] (Path.name t) = None)
          (moved_files (organizer run))) ∧
  ∃ u, run_then_undo short_script unreadable [] year_of (ByType None) self tidy_fs
                     false false = Some (inr u) ∧
       (∀ f n, f ∈ get_files self tidy_fs false false →
               f ∉ failed_files (organizer run) →
               tidy_fs !! f = Some n →
               undo_files u !! Path.child ["src"] (Path.name f) = Some n) ∧
       (∀ t, t ∈ moved_files (organizer run) → undo_files u !! t = None) ∧
       success_count u = length (moved_files (organizer run)).
Proof.
  cbv zeta. split; [exact tidy_round_trip_facts|].
  destruct tidy_round_trip_facts as (H1 & H2 & H3 & H4 & H5 & H6 & H7).
  exact (proj1 undo_restores_moved_files short_script unreadable [] year_of (ByType None)
           ["src"] ["out"] tidy_fs false false _ _ H1 H2 H3 H4 H5 H6 H7).
Defined.

(** C4 fails as stated in four ways, each without any name collision in
    the forward pass.  Organizing in place a directory that holds a file
    called [Images] and a picture creates the folder [Images] once the file
    has left; the script then finds the name taken and restores the file as
    [Images_1].  After a recursive run by size over [x.bin] and
    [sub/x.bin], the script gives the name [x.bin] in the source root to
    the file that came from [sub] and restores the other as [x_1.bin].  And
    when the working directory itself is organized and holds a file called
    [undo_organization.py], that file is moved to [Code], the script is
    written in its place, and running it restores the file as
    [undo_organization_1.py].  Last, a source directory with a backslash
    in its name is read back by the script as another directory, here one
    that does not exist: the move back fails and the file stays in the
    target tree. *)
Lemma undo_renames_without_forward_collision :
  (let self := live_organizer ["src"] ["src"] false in
   let run := organize year_of (ByType None) self shadow_fs false false in
   moved_files (organizer run) = planned_targets ["src"] (output run) ∧
   moved_files (organizer run) = [["src"; "Others"; "Images"]; ["src"; "Images"; "b.png"]] ∧
   failed_files (organizer run) = [] ∧
   shadow_fs !! ["src"; "Images"] = Some (File (Stat 10 0 0) "list of images") ∧
   ∃ u, run_then_undo short_script unreadable [] year_of (ByType None) self shadow_fs
                      false false = Some (inr u) ∧
        undo_files u !! ["src"; "Images"] = Some Dir ∧
        undo_files u !! ["src"; "Images_1"] = Some (File (Stat 10 0 0) "list of images")) ∧
  (let self := live_organizer ["src"] ["out"] false in
   let run := organize year_of (BySize None) self nested_fs true false in
   moved_files (organizer run) = planned_targets ["out"] (output run) ∧
   moved_files (organizer run)
     = [["out"; "Large (10-100MB)"; "x.bin"]; ["out"; "Small (< 1MB)"; "x.bin"]] ∧
   failed_files (organizer run) = [] ∧
   nested_fs !! ["src"; "x.bin"] = Some (File (Stat 500000 0 0) "small") ∧
   ∃ u, run_then_undo short_script unreadable [] year_of (BySize None) self nested_fs
                      true false = Some (inr u) ∧
        undo_files u !! ["src"; "x.bin"] = Some (File (Stat 20000000 0 0) "large") ∧
        undo_files u !! ["src"; "x_1.bin"] = Some (File (Stat 500000 0 0) "small")) ∧
  (let self := live_organizer ["work"] ["work"] false in
   let run := organize year_of (ByType None) self rooted_fs false false in
   moved_files (organizer run) = planned_targets ["work"] (output run) ∧
   moved_files (organizer run)
     = [["work"; "Images"; "b.png"]; ["work"; "Code"; "undo_organization.py"]] ∧
   failed_files (organizer run) = [] ∧
   NoDup (Path.name <$> moved_files (organizer run)) ∧
   Forall (fun t => files run !! Path.child ["work"] (Path.name t) = None)
          (moved_files (organizer run)) ∧
   rooted_fs !! ["work"; "undo_organization.py"]
     = Some (File (Stat 40 0 0) "an older script") ∧
   ∃ u, run_then_undo short_script unreadable ["work"] year_of (ByType None) self
                      rooted_fs false false = Some (inr u) ∧
        undo_files u !! ["work"; "b.png"] = Some (File (Stat 20 0 0) "picture") ∧
        undo_files u !! ["work"; "undo_organization.py"]
          = Some (File (Stat 1024 0 0) "#!/usr/bin/env python3") ∧
        undo_files u !! ["work"; "undo_organization_1.py"]
          = Some (File (Stat 40 0 0) "an older script")) ∧
  (let self := live_organizer ["s\tmp"] ["out"] false in
   let run := organize year_of (ByType None) self escaped_fs false false in
   moved_files (organizer run) = planned_targets ["out"] (output run) ∧
   moved_files (organizer run) = [["out"; "Documents"; "a.txt"]] ∧
   failed_files (organizer run) = [] ∧
   plain_path ["s\tmp"] = false ∧
   ∃ u, run_then_undo short_script tab_literal [] year_of (ByType None) self escaped_fs
                      false false = Some (inr u) ∧
        undo_output u
          = [FailedToMoveBack ["out"; "Documents"; "a.txt"] FileNotFoundError;
             MovedBackTotal 0] ∧
        undo_files u !! ["s\tmp"; "a.txt"] = None ∧
        undo_files u !! ["out"; "Documents"; "a.txt"] = Some (File (Stat 10 0 0) "a")).
Proof.
  cbv zeta. split_and!; first [by_running | by_evaluation].
Qed.

(** ** Undoing a copy run (C10) *)

(** The script moves every logged file into the source root, whatever the
    root already holds: to the plain name if that is free, to a numbered
    one otherwise.  Nothing else is touched. *)
Lemma undo_into_root source (entries : list (path * node)) acc :
  NoDup entries.*1 →
  (∀ r n, (r, n) ∈ entries →
     undo_files acc !! r = Some n ∧ is_regular n ∧ Path.parent r ≠ source) →
  undo_files acc !! source = Some Dir →
  let u := foldl (undo_body source) acc entries.*1 in
  (∀ r n, (r, n) ∈ entries →
     undo_files u !! r = None ∧
     ∃ d, Path.parent d = source ∧ undo_files u !! d = Some n ∧
          undo_files acc !! d = None ∧
          (d = Path.child source (Path.name r) ∨
           ∃ k, 1 ≤ k ∧
                d = Path.child source (numbered (Path.child source (Path.name r)) k))) ∧
  (∀ q, q ∉ entries.*1 →
        Path.parent q ≠ source ∨ is_Some (undo_files acc !! q) →
        undo_files u !! q = undo_files acc !! q).
Proof.
  revert acc. induction entries as [|[r n] entries IH]; intros acc Hnd Hin Hsrc; simpl.
  - split; [by intros ? ? ?%elem_of_nil | done].
  - rewrite fmap_cons in Hnd. apply NoDup_cons in Hnd as [Hr1 Hnd]. simpl in Hr1.
    destruct (Hin r n) as (Hr & Hreg & Hpar); [by left|].
    destruct n as [st data|]; [|done].
    rewrite (undo_body_file source acc r st data) by done.
    destruct (resolve_live (undo_files acc) source (Path.child source (Path.name r)))
      as [Hfree Hshape].
    pose proof (resolve_parent (undo_files acc) source (Path.name r)) as Hdpar.
    set (d := resolve false (undo_files acc) source (Path.child source (Path.name r))) in *.
    apply not_exists_lookup in Hfree.
    set (acc1 := UndoState _ _ _).
    assert (r ≠ d) as Hrd by (intros Heq; congruence).
    assert (∀ q, q ≠ r → q ≠ d → undo_files acc1 !! q = undo_files acc !! q) as Hstep.
    { intros q ? ?. unfold acc1. simpl. by rewrite lookup_insert_ne, lookup_delete_ne. }
    assert (∀ r' n', (r', n') ∈ entries → r' ≠ r ∧ r' ≠ d) as Hrest.
    { intros r' n' Hr'. destruct (Hin r' n') as (_ & _ & Hpar'); [by right|]. split.
      - intros ->. apply Hr1. apply list_elem_of_fmap. by exists (r, n').
      - intros Heq. congruence. }
    destruct (IH acc1) as (Hall & Hframe).
    + done.
    + intros r' n' Hr'. destruct (Hrest _ _ Hr') as [? ?].
      destruct (Hin r' n') as (? & ? & ?); [by right|]. by rewrite Hstep.
    + rewrite Hstep; [done| |]; intros Heq; congruence.
    + assert (d ∉ entries.*1) as Hd1.
      { intros (x & Heq & Hx)%list_elem_of_fmap. destruct x as [r' n']. simpl in Heq.
        subst r'. by destruct (Hrest _ _ Hx). }
      split.
      * intros r' n' [Heq|Hr']%elem_of_cons.
        -- injection Heq as -> ->. split.
           ++ rewrite Hframe by (done || by left). unfold acc1. simpl.
              by rewrite lookup_insert_ne, lookup_delete_eq.
           ++ exists d. split_and!; [done| |done|].
              ** rewrite Hframe; unfold acc1; simpl; rewrite ?lookup_insert_eq; try done.
                 right. by eexists.
              ** destruct Hshape as [?|(_ & k & ? & ? & _)]; [by left | right; by eauto].
        -- destruct (Hall _ _ Hr') as (Hgone & d' & Hdp & Hd' & Hfree' & Hsh').
           split; [done|]. exists d'. split_and!; try done.
           unfold acc1 in Hfree'. simpl in Hfree'.
           apply lookup_insert_None in Hfree' as [Hfree' _].
           apply lookup_delete_None in Hfree' as [->|?]; [|done]. congruence.
      * intros q Hq Hor. apply not_elem_of_cons in Hq as [? ?].
        assert (q ≠ d) as Hqd.
        { intros ->. destruct Hor as [?|[? ?]]; congruence. }
        rewrite Hframe; [by apply Hstep | done |].
        destruct Hor as [?|?]; [by left | right]. by rewrite Hstep.
Qed.

Lemma child_parent_name (f : path) :
  f ≠ [] → Path.child (Path.parent f) (Path.name f) = f.
Proof. intros H. symmetry. by apply app_removelast_last. Qed.

(** A copy is logged exactly as a move is. *)
Lemma copy_logs_like_move source target moved failed fs source_path folder st data :
  fs !! source_path = Some (File st data) →
  moved_files (organizer (_move_file (Organizer source target false true moved failed)
                                     fs source_path folder)) =
  moved_files (organizer (_move_file (Organizer source target false false moved failed)
                                     fs source_path folder)).
Proof.
  intros Hsrc. destruct (FS.mkdir fs (Path.joinpath target folder)) as [e|fs1] eqn:Hmk.
  - rewrite !move_file_live by done. cbv zeta. simpl. by rewrite Hmk.
  - by rewrite !(move_regular_file _ fs source_path folder st data fs1).
Qed.

(** A copy run followed by the script, started on a file system that
    holds all the run left: the originals stay where they were, and every
    copy leaves the target tree for the source root. *)
Lemma copy_run_then_undo strftime s source target fs recursive include_hidden st fs1 :
  let self := live_organizer source target true in
  let run := organize strftime s self fs recursive include_hidden in
  let u := undo_organization (UndoScript (moved_files (organizer run)) source) fs1 in
  result run = inr st →
  (∀ q n, files run !! q = Some n → fs1 !! q = Some n) →
  Forall (fun t => Path.parent t ≠ source) (moved_files (organizer run)) →
  (∀ f n, f ∈ get_files self fs recursive include_hidden → fs !! f = Some n →
          files run !! f = Some n ∧ undo_files u !! f = Some n) ∧
  (∀ t, t ∈ moved_files (organizer run) →
     undo_files u !! t = None ∧
     ∃ d n, files run !! t = Some n ∧ is_regular n ∧
            Path.parent d = source ∧ undo_files u !! d = Some n ∧
            fs1 !! d = None ∧
            (d = Path.child source (Path.name t) ∨
             ∃ k, 1 ≤ k ∧
                  d = Path.child source (numbered (Path.child source (Path.name t)) k))) ∧
  (moved_files (organizer run) = planned_targets target (output run) →
   ∀ f n, f ∈ get_files self fs recursive include_hidden →
          f ∉ failed_files (organizer run) →
          Path.parent f = source →
          fs !! f = Some n →
          ∃ k, 1 ≤ k ∧ undo_files u !! Path.child source (numbered f k) = Some n).
Proof.
  intros self run u Hret Hext Hpar. subst u run.
  rewrite organize_is_loop in *.
  set (l := get_files self fs recursive include_hidden) in *.
  destruct (get_files_spec self fs recursive include_hidden) as [Hnd Hl]. fold l in Hnd, Hl.
  change (source_dir self) with source in Hl.
  destruct (organize_loop_steps strftime s self fs l)
    as (pre & post & acc0 & acc' & Hpp & Hsteps & Ho & Hf & _ & Ho' & Hf' & Hout0 & Hout & Hr).
  rewrite Hret in Hr. destruct Hr as [-> _]. rewrite app_nil_r in Hpp. subst pre.
  rewrite Ho', Hf', Hout in *.
  destruct (steps_ledger acc0 l acc' Hsteps)
    as (ledger & Hm & Hp & He & Hfail & Hframe & Hndl & Hfresh).
  { by rewrite Ho. } { done. }
  { intros f Hin. rewrite Hf. by apply Hl. }
  rewrite Ho in Hm, Hp, Hframe, Hfresh. rewrite Hf in He, Hframe, Hfresh.
  simpl in Hm, Hp, Hframe, Hfresh.
  rewrite Hout0 in Hp. simpl in Hp. rewrite Hm in *. clear Hm.
  assert (∀ q n, fs !! q = Some n → files acc' !! q = Some n) as Hkeep
    by (intros q n Hq; apply Hframe; [done | by left]).
  assert (∀ r, r ∈ ledger.*2 → fs !! r = None) as Hnew.
  { intros r Hr. by destruct (Hfresh r Hr) as [?|[? _]]. }
  assert (∀ f folder r, (f, folder, r) ∈ ledger →
            ∃ st0 data, fs !! f = Some (File st0 data) ∧
                        files acc' !! r = Some (File st0 data)) as Hled.
  { intros f folder r Hin. destruct (He _ _ _ Hin) as [Hfl Hr].
    destruct (Hl f Hfl) as [(st0 & data & Hf0) _]. exists st0, data.
    split; [done | congruence]. }
  assert (ledger = [] ∨ files acc' !! source = Some Dir) as [Hnil|Hsrc].
  { destruct ledger as [|[[f0 folder0] r0] ledger0]; [by left | right].
    destruct (He f0 folder0 r0) as [Hin0 _]; [by left|].
    destruct (Hl f0 Hin0) as [_ Hdir]. by apply Hkeep. }
  { subst ledger. simpl. split_and!.
    - intros f n Hin Hfn. split; [by apply Hkeep | by apply Hext, Hkeep].
    - by intros ? ?%elem_of_nil.
    - intros _ f n Hin Hnf _ _.
      destruct (Hfail f Hin) as [?|(? & ? & ?%elem_of_nil)]; done. }
  set (entries := (fun e : path * string * path => (e.2, default Dir (fs !! e.1.1)))
                  <$> ledger).
  assert (entries.*1 = ledger.*2) as Hlog.
  { unfold entries. rewrite <- list_fmap_compose. done. }
  assert (∀ f folder r st0 data, (f, folder, r) ∈ ledger → fs !! f = Some (File st0 data) →
            (r, File st0 data) ∈ entries) as Hentry.
  { intros f folder r st0 data Hin Hf0. apply list_elem_of_fmap. exists (f, folder, r).
    split; [|done]. simpl. by rewrite Hf0. }
  destruct (undo_into_root source entries (UndoState fs1 0 []))
    as (Hall & Hundo).
  - by rewrite Hlog.
  - intros r n (e & Heq & Hin)%list_elem_of_fmap. destruct e as [[f folder] r'].
    injection Heq as -> ->. destruct (Hled _ _ _ Hin) as (st0 & data & Hf0 & Hr0).
    simpl. rewrite Hf0. split_and!; [by apply Hext|done|].
    apply (proj1 (Forall_forall _ _) Hpar). apply list_elem_of_fmap. by exists (f, folder, r').
  - simpl. by apply Hext.
  - rewrite Hlog in Hall, Hundo. simpl in Hall, Hundo.
    unfold undo_organization. simpl. split_and!.
    + intros f n Hin Hfn. split; [by apply Hkeep|].
      rewrite Hundo; [by apply Hext, Hkeep| |].
      * intros Hr. apply Hnew in Hr. congruence.
      * right. exists n. by apply Hext, Hkeep.
    + intros t (e & -> & Hin)%list_elem_of_fmap. destruct e as [[f folder] r].
      destruct (Hled _ _ _ Hin) as (st0 & data & Hf0 & Hr0).
      destruct (Hall r (File st0 data)) as (Hgone & d & ? & ? & ? & ?); [by eapply Hentry|].
      split; [done|]. exists d, (File st0 data). by split_and!.
    + intros Hplan f n Hin Hnf Hpf Hfn.
      destruct (Hfail f Hin) as [?|(folder & r & Hin')]; [done|].
      destruct (Hled _ _ _ Hin') as (st0 & data & Hf0 & Hr0).
      rewrite Hp in Hplan.
      pose proof (fmap_eq_pointwise _ _ _ _ Hplan Hin') as Heq. simpl in Heq.
      assert (Path.name r = Path.name f) as Hname by (rewrite Heq; apply name_child).
      assert (Path.child source (Path.name r) = f) as Hchild.
      { rewrite Hname, <- Hpf. apply child_parent_name. intros ->.
        simpl in Hpf. subst source. destruct (Hl [] Hin) as [_ ?]. congruence. }
      destruct (Hall r (File st0 data)) as (_ & d & _ & Hd & Hfree & Hshape);
        [by eapply Hentry|].
      rewrite Hchild in Hshape. destruct Hshape as [->|(k & Hk & ->)].
      * apply Hkeep, Hext in Hf0. congruence.
      * exists k. split; [done|]. congruence.
Qed.

(** [create_undo_script] does not look at the mode the object ran in. *)
Lemma create_undo_script_any_mode script_file cwd source target dry copied moved failed
    fs output_file :
  let made :=
    create_undo_script script_file cwd (Organizer source target dry copied moved failed)
                       fs output_file in
  let made' :=
    create_undo_script script_file cwd (Organizer source target dry false moved failed)
                       fs output_file in
  result made = result made' ∧ files made = files made' ∧ output made = output made'.
Proof.
  unfold create_undo_script. simpl. destruct moved; [done|].
  destruct (script_file _ _) as [st [e|text]]; by destruct (FS.write_text _ _ _ _ _).
Qed.

Lemma tidy_copy_facts :
  let self := live_organizer ["src"] ["out"] true in
  let run := organize year_of (ByType None) self tidy_fs false false in
  let made :=
    create_undo_script short_script [] (organizer run) (files run) "undo_organization.py" in
  result run = inr {[ "Documents" := 2; "Images" := 1 ]} ∧
  result made = inr (Some (UndoScript (moved_files (organizer run)) ["src"])) ∧
  plain_path ["src"] = true ∧
  files run !! Path.child [] "undo_organization.py" = None ∧
  Forall (fun t => Path.parent t ≠ ["src"]) (moved_files (organizer run)) ∧
  moved_files (organizer run) = planned_targets ["out"] (output run).
Proof. cbv zeta. split_and!; by_evaluation. Qed.

Lemma tidy_copy_undo_facts :
  let run := organize year_of (ByType None) (live_organizer ["src"] ["out"] true)
                      tidy_fs false false in
  let moved := organize year_of (ByType None) (live_organizer ["src"] ["out"] false)
                        tidy_fs false false in
  moved_files (organizer run) = moved_files (organizer moved) ∧
  moved_files (organizer run)
    = [["out"; "Documents"; "a.txt"]; ["out"; "Images"; "b.png"];
       ["out"; "Documents"; "c.txt"]] ∧
  ∃ u, run_then_undo short_script unreadable [] year_of (ByType None)
                     (live_organizer ["src"] ["out"] true) tidy_fs false false
       = Some (inr u) ∧
       undo_files u !! ["src"; "a.txt"] = Some (File (Stat 10 0 0) "a") ∧
       undo_files u !! ["src"; "a_1.txt"] = Some (File (Stat 10 0 0) "a") ∧
       undo_files u !! ["src"; "b.png"] = Some (File (Stat 20 0 0) "b") ∧
       undo_files u !! ["src"; "b_1.png"] = Some (File (Stat 20 0 0) "b") ∧
       undo_files u !! ["src"; "c.txt"] = Some (File (Stat 30 0 0) "c") ∧
       undo_files u !! ["src"; "c_1.txt"] = Some (File (Stat 30 0 0) "c") ∧
       undo_files u !! ["out"; "Documents"; "a.txt"] = None ∧
       undo_files u !! ["out"; "Images"; "b.png"] = None ∧
       undo_files u !! ["out"; "Documents"; "c.txt"] = None ∧
       undo_output u
         = [MovedBack "a.txt"; MovedBack "b.png"; MovedBack "c.txt"; MovedBackTotal 3].
Proof. cbv zeta. split_and!; first [by_running | by_evaluation]. Qed.

(** C10, as amended.  In live copy mode a successful copy appends its
    destination to the move log exactly as a move does, and the original
    stays where it was; [create_undo_script] does not look at the mode, so
    the script written after a copy run holds the paths of the copies.
    Running it moves every copy out of the target tree into the source
    root (copies placed directly in the source root set aside, the source
    directory written in plain characters, and the script written without
    replacing a file): no original is touched, no copy is deleted or left in
    place, and each copy arrives under its own name or, where that is
    taken, under a stem_N suffix.  The copy of a file that lies directly
    in the source root and kept its name in the forward pass meets its
    original there and is given a numbered name beside it, N at least 1. *)
Theorem copies_are_logged_and_undone_like_moves :
  (∀ source target moved failed fs source_path folder st data,
     fs !! source_path = Some (File st data) →
     moved_files (organizer (_move_file (Organizer source target false true moved failed)
                                        fs source_path folder)) =
     moved_files (organizer (_move_file (Organizer source target false false moved failed)
                                        fs source_path folder))) ∧
  (∀ source target moved failed fs source_path folder st data fs1,
     fs !! source_path = Some (File st data) →
     FS.mkdir fs (Path.joinpath target folder) = inr fs1 →
     let tdir := Path.joinpath target folder in
     let r := resolve false fs1 tdir (Path.child tdir (Path.name source_path)) in
     _move_file (Organizer source target false true moved failed) fs source_path folder =
     Outcome true (Organizer source target false true (moved ++ [r]) failed)
             (<[r := File st data]> fs1) [Copied (Path.name source_path) folder] ∧
     fs1 !! source_path = Some (File st data) ∧ fs1 !! r = None) ∧
  (∀ script_file cwd source target dry copied moved failed fs output_file,
     let made :=
       create_undo_script script_file cwd (Organizer source target dry copied moved failed)
                          fs output_file in
     let made' :=
       create_undo_script script_file cwd (Organizer source target dry false moved failed)
                          fs output_file in
     result made = result made' ∧ files made = files made' ∧
     output made = output made') ∧
  (∀ script_file source_literal cwd strftime s source target fs recursive
     include_hidden st script,
     let self := live_organizer source target true in
     let run := organize strftime s self fs recursive include_hidden in
     let made :=
       create_undo_script script_file cwd (organizer run) (files run)
                          "undo_organization.py" in
     result run = inr st →
     result made = inr (Some script) →
     plain_path source = true →
     files run !! Path.child cwd "undo_organization.py" = None →
     Forall (fun t => Path.parent t ≠ source) (moved_files (organizer run)) →
     script = UndoScript (moved_files (organizer run)) source ∧
     ∃ u, run_then_undo script_file source_literal cwd strftime s self fs
                        recursive include_hidden = Some (inr u) ∧
          (∀ f n, f ∈ get_files self fs recursive include_hidden → fs !! f = Some n →
                  files run !! f = Some n ∧ undo_files u !! f = Some n) ∧
          (∀ t, t ∈ moved_files (organizer run) →
             undo_files u !! t = None ∧
             ∃ d n, files run !! t = Some n ∧ is_regular n ∧
                    Path.parent d = source ∧ undo_files u !! d = Some n ∧
                    files made !! d = None ∧
                    (d = Path.child source (Path.name t) ∨
                     ∃ k, 1 ≤ k ∧
                          d = Path.child source
                                (numbered (Path.child source (Path.name t)) k))) ∧
          (moved_files (organizer run) = planned_targets target (output run) →
           ∀ f n, f ∈ get_files self fs recursive include_hidden →
                  f ∉ failed_files (organizer run) →
                  Path.parent f = source →
                  fs !! f = Some n →
                  ∃ k, 1 ≤ k ∧
                       undo_files u !! Path.child source (numbered f k) = Some n)) ∧
  (let run := organize year_of (ByType None) (live_organizer ["src"] ["out"] true)
                       tidy_fs false false in
   let moved := organize year_of (ByType None) (live_organizer ["src"] ["out"] false)
                         tidy_fs false false in
   moved_files (organizer run) = moved_files (organizer moved) ∧
   moved_files (organizer run)
     = [["out"; "Documents"; "a.txt"]; ["out"; "Images"; "b.png"];
        ["out"; "Documents"; "c.txt"]] ∧
   ∃ u, run_then_undo short_script unreadable [] year_of (ByType None)
                      (live_organizer ["src"] ["out"] true) tidy_fs false false
        = Some (inr u) ∧
        undo_files u !! ["src"; "a.txt"] = Some (File (Stat 10 0 0) "a") ∧
        undo_files u !! ["src"; "a_1.txt"] = Some (File (Stat 10 0 0) "a") ∧
        undo_files u !! ["src"; "b.png"] = Some (File (Stat 20 0 0) "b") ∧
        undo_files u !! ["src"; "b_1.png"] = Some (File (Stat 20 0 0) "b") ∧
        undo_files u !! ["src"; "c.txt"] = Some (File (Stat 30 0 0) "c") ∧
        undo_files u !! ["src"; "c_1.txt"] = Some (File (Stat 30 0 0) "c") ∧
        undo_files u !! ["out"; "Documents"; "a.txt"] = None ∧
        undo_files u !! ["out"; "Images"; "b.png"] = None ∧
        undo_files u !! ["out"; "Documents"; "c.txt"] = None ∧
        undo_output u
          = [MovedBack "a.txt"; MovedBack "b.png"; MovedBack "c.txt"; MovedBackTotal 3]).
Proof.
  split; [exact copy_logs_like_move|].
  split.
  { intros source target moved failed fs source_path folder st data fs1 Hsrc Hmk tdir r.
    split_and!.
    - by rewrite (move_regular_file _ fs source_path folder st data fs1).
    - apply mkdir_spec in Hmk as [Hg _]. by eapply grows_by_dirs_Some.
    - apply not_exists_lookup. apply (resolve_live fs1 tdir). }
  split; [exact create_undo_script_any_mode|].
  split; [|exact tidy_copy_undo_facts].
  intros script_file source_literal cwd strftime s source target fs recursive
    include_hidden st script self run made Hret Hmade Hplain Hscript Hpar.
  destruct (run_then_undo_written script_file source_literal cwd strftime s self fs
              recursive include_hidden st script Hret Hmade Hplain)
    as (Hrun & _ & st' & text & Hfiles & _).
  destruct (create_undo_script_written script_file cwd (organizer run) (files run)
              "undo_organization.py" script Hmade) as (Hs & _).
  fold run made in Hrun, Hfiles.
  split.
  { rewrite Hs. f_equal. unfold run. rewrite organize_is_loop.
    by destruct (organize_loop_settings strftime s self fs
                   (get_files self fs recursive include_hidden)) as (<- & _). }
  eexists. split; [exact Hrun|]. rewrite Hfiles.
  apply (copy_run_then_undo strftime s source target fs recursive include_hidden st);
    try done.
  intros q n Hq. rewrite lookup_insert_ne; [done|]. intros <-.
  unfold run in Hscript. fold self in Hq. congruence.
Qed.

Lemma copies_are_logged_and_undone_like_moves_witness :
  let self := live_organizer ["src"] ["out"] true in
  let run := organize year_of (ByType None) self tidy_fs false false in
  let made :=
    create_undo_script short_script [] (organizer run) (files run) "undo_organization.py" in
  (result run = inr {[ "Documents" := 2; "Images" := 1 ]} ∧
   result made = inr (Some (UndoScript (moved_files (organizer run)) ["src"])) ∧
   plain_path ["src"] = true ∧
   files run !! Path.child [] "undo_organization.py" = None ∧
   Forall (fun t => Path.parent t ≠ ["src"]) (moved_files (organizer run)) ∧
   moved_files (organizer run) = planned_targets ["out"] (output run)) ∧
  UndoScript (moved_files (organizer run)) ["src"]
    = UndoScript (moved_files (organizer run)) ["src"] ∧
  ∃ u, run_then_undo short_script unreadable [] year_of (ByType None) self tidy_fs
                     false false = Some (inr u) ∧
       (∀ f n, f ∈ get_files self tidy_fs false false → tidy_fs !! f = Some n →
               files run !! f = Some n ∧ undo_files u !! f = Some n) ∧
       (∀ t, t ∈ moved_files (organizer run) →
          undo_files u !! t = None ∧
          ∃ d n, files run !! t = Some n ∧ is_regular n ∧
                 Path.parent d = ["src"] ∧ undo_files u !! d = Some n ∧
                 files made !! d = None ∧
                 (d = Path.child ["src"] (Path.name t) ∨
                  ∃ k, 1 ≤ k ∧
                       d = Path.child ["src"]
                             (numbered (Path.child ["src"] (Path.name t)) k))) ∧
       (moved_files (organizer run) = planned_targets ["out"] (output run) →
        ∀ f n, f ∈ get_files self tidy_fs false false →
               f ∉ failed_files (organizer run) →
               Path.parent f = ["src"] →
               tidy_fs !! f = Some n →
               ∃ k, 1 ≤ k ∧ undo_files u !! Path.child ["src"] (numbered f k) = Some n).
Proof.
  cbv zeta. split; [exact tidy_copy_facts|].
  destruct tidy_copy_facts as (H1 & H2 & H3 & H4 & H5 & _).
  exact (proj1 (proj2 (proj2 (proj2 copies_are_logged_and_undone_like_moves)))
           short_script unreadable [] year_of (ByType None) ["src"] ["out"] tidy_fs
           false false _ _ H1 H2 H3 H4 H5).
Defined.

(** C10 fails as stated for a file that does not lie directly in the
    source root.  After a recursive copy run over [sub/y.txt] the script
    moves the copy to [y.txt] in the source root, where the name is free:
    it arrives without a suffix, and no duplicate stands beside the
    original, which is still in [sub]. *)
Lemma a_copy_from_a_subdirectory_returns_unsuffixed :
  let self := live_organizer ["src"] ["out"] true in
  let run := organize year_of (ByType None) self deep_fs true false in
  result run = inr {[ "Documents" := 1 ]} ∧
  moved_files (organizer run) = [["out"; "Documents"; "y.txt"]] ∧
  moved_files (organizer run) = planned_targets ["out"] (output run) ∧
  failed_files (organizer run) = [] ∧
  files run !! ["src"; "sub"; "y.txt"] = Some (File (Stat 10 0 0) "y") ∧
  files run !! ["out"; "Documents"; "y.txt"] = Some (File (Stat 10 0 0) "y") ∧
  ∃ u, run_then_undo short_script unreadable [] year_of (ByType None) self deep_fs
                     true false = Some (inr u) ∧
       undo_output u = [MovedBack "y.txt"; MovedBackTotal 1] ∧
       undo_files u !! ["src"; "y.txt"] = Some (File (Stat 10 0 0) "y") ∧
       undo_files u !! ["src"; "sub"; "y.txt"] = Some (File (Stat 10 0 0) "y") ∧
       undo_files u !! ["src"; "y_1.txt"] = None ∧
       undo_files u !! ["src"; "sub"; "y_1.txt"] = None ∧
       undo_files u !! ["out"; "Documents"; "y.txt"] = None.
Proof. cbv zeta. split_and!; first [by_running | by_evaluation]. Qed.

(** * Further properties of the code *)

(** ** Letter case *)

Lemma lower_ascii_idemp c : Str.lower_ascii (Str.lower_ascii c) = Str.lower_ascii c.
Proof. destruct c as [[] [] [] [] [] [] [] []]; reflexivity. Qed.

Lemma lower_ascii_dot c : Ascii.eqb (Str.lower_ascii c) "." = Ascii.eqb c ".".
Proof. destruct c as [[] [] [] [] [] [] [] []]; reflexivity. Qed.

Lemma lower_idemp s : Str.lower (Str.lower s) = Str.lower s.
Proof. induction s as [|c s IH]; simpl; [done|]. by rewrite lower_ascii_idemp, IH. Qed.

Lemma length_lower s : String.length (Str.lower s) = String.length s.
Proof. induction s as [|c s IH]; simpl; [done|]. by rewrite IH. Qed.

Lemma rfind_lower s : Str.rfind "." (Str.lower s) = Str.rfind "." s.
Proof.
  induction s as [|c s IH]; [done|].
  cbn [Str.lower Str.rfind]. by rewrite IH, lower_ascii_dot.
Qed.

Lemma drop_lower i s : Str.drop i (Str.lower s) = Str.lower (Str.drop i s).
Proof.
  revert s. induction i as [|i IH]; intros [|c s]; simpl; by try apply IH.
Qed.

(** Lower-casing a name and cutting its extension commute. *)
Lemma name_suffix_lower nm : Path.name_suffix (Str.lower nm) = Str.lower (Path.name_suffix nm).
Proof.
  unfold Path.name_suffix, Path.suffix_index. rewrite rfind_lower, length_lower.
  destruct (Str.rfind "." nm) as [i|]; [|done].
  destruct (_ && _)%bool; [apply drop_lower | done].
Qed.

Lemma pattern_folder_lower patterns filename :
  pattern_folder (List.map (fun e : string * string => (e.1, Str.lower e.2)) patterns) filename
  = pattern_folder patterns filename.
Proof.
  induction patterns as [|[folder_name pattern] rest IH]; [done|].
  cbn [List.map pattern_folder fst snd]. by rewrite lower_idemp, IH.
Qed.

(** X1.  The case of the ASCII letters of a file's name plays no part in
    where the file goes.  Two files with names written in ASCII that agree
    once lower-cased are handed to the relocation with the same folder by
    the type loop, and the custom rules give them the same folder for the
    same size: both look at the lower-cased extension, and on an ASCII
    name lower-casing and cutting the extension can be done in either
    order.  (Outside ASCII they cannot: Python lowers a capital sigma
    according to its neighbours, which the cut changes.)  The name-pattern
    loop looks at the lower-cased name only, so it gives the same folder
    to any two names that differ in the case of ASCII letters; and the
    case of the ASCII letters of a pattern plays no part either. *)
Theorem the_case_of_a_name_is_ignored :
  (∀ categories acc1 acc2 p1 p2,
     ascii_only (Path.name p1) → ascii_only (Path.name p2) →
     Str.lower (Path.name p1) = Str.lower (Path.name p2) →
     ∃ folder, by_type_body categories acc1 p1 = relocate acc1 p1 folder ∧
               by_type_body categories acc2 p2 = relocate acc2 p2 folder) ∧
  (∀ patterns acc1 acc2 p1 p2,
     Str.lower (Path.name p1) = Str.lower (Path.name p2) →
     ∃ folder, by_name_pattern_body patterns acc1 p1 = relocate acc1 p1 folder ∧
               by_name_pattern_body patterns acc2 p2 = relocate acc2 p2 folder) ∧
  (∀ rs nm1 nm2 file_size,
     ascii_only nm1 → ascii_only nm2 →
     Str.lower nm1 = Str.lower nm2 →
     custom_folder rs nm1 file_size = custom_folder rs nm2 file_size) ∧
  (∀ patterns acc p,
     by_name_pattern_body
       (List.map (fun e : string * string => (e.1, Str.lower e.2)) patterns) acc p
     = by_name_pattern_body patterns acc p).
Proof.
  split_and!.
  - intros categories acc1 acc2 p1 p2 _ _ H. eexists. split; [reflexivity|].
    unfold by_type_body, Path.suffix. by rewrite <- !name_suffix_lower, H.
  - intros patterns acc1 acc2 p1 p2 H. eexists. split; [reflexivity|].
    unfold by_name_pattern_body. by rewrite H.
  - intros rs nm1 nm2 file_size _ _ H. unfold custom_folder.
    by rewrite <- !name_suffix_lower, H.
  - intros patterns acc p. unfold by_name_pattern_body. by rewrite pattern_folder_lower.
Qed.

(** ** Extensions in a table *)

Lemma lower_case_only_spec x exts :
  mem (Str.lower x) (lower_case_only exts) = mem (Str.lower x) exts.
Proof.
  unfold mem, lower_case_only. apply bool_decide_ext.
  rewrite !list_elem_of_In, filter_In. split; [by intros []|].
  intros H. split; [done|]. apply bool_decide_eq_true_2, lower_idemp.
Qed.

Lemma type_folder_lower_case_only categories x :
  type_folder (List.map (fun e : string * list string => (e.1, lower_case_only e.2)) categories)
              (Str.lower x)
  = type_folder categories (Str.lower x).
Proof.
  induction categories as [|[category exts] rest IH]; [done|].
  cbn [List.map type_folder fst snd]. by rewrite lower_case_only_spec, IH.
Qed.

Lemma rule_match_lower_case_only exts s r filename x file_size :
  rule_match (Conditions (lower_case_only <$> exts) s r) filename (Str.lower x) file_size
  = rule_match (Conditions exts s r) filename (Str.lower x) file_size.
Proof.
  unfold rule_match. cbn [extensions name_contains size_range].
  destruct exts as [exts|]; [|done]. cbn [fmap option_fmap option_map].
  by rewrite lower_case_only_spec.
Qed.

(** X2.  The extension of a file is lower-cased before it is looked up,
    the entries of the table are not: an extension written with an
    upper-case letter in a category table or in a rule's [extensions] is
    never matched, and dropping it changes no classification.  A category
    that lists only [.JPG] catches neither [a.JPG] nor [a.jpg]. *)
Theorem upper_case_extensions_never_match :
  (∀ categories acc p,
     by_type_body
       (List.map (fun e : string * list string => (e.1, lower_case_only e.2)) categories)
       acc p
     = by_type_body categories acc p) ∧
  (∀ exts s r nm file_size,
     rule_match (Conditions (lower_case_only <$> exts) s r)
                (Str.lower nm) (Str.lower (Path.name_suffix nm)) file_size
     = rule_match (Conditions exts s r)
                  (Str.lower nm) (Str.lower (Path.name_suffix nm)) file_size) ∧
  (∀ e exts, e ∈ lower_case_only exts ↔ e ∈ exts ∧ Str.lower e = e) ∧
  lower_case_only [".JPG"; ".png"] = [".png"] ∧
  type_folder [("Photos", [".JPG"])] (Str.lower (Path.name_suffix "a.JPG")) = "Others" ∧
  type_folder [("Photos", [".JPG"])] (Str.lower (Path.name_suffix "a.jpg")) = "Others".
Proof.
  split_and!.
  - intros categories acc p. unfold by_type_body.
    by rewrite type_folder_lower_case_only.
  - intros. apply rule_match_lower_case_only.
  - intros e exts. unfold lower_case_only.
    by rewrite !list_elem_of_In, filter_In, bool_decide_eq_true.
  - vm_compute; reflexivity.
  - vm_compute; reflexivity.
  - vm_compute; reflexivity.
Qed.

(** ** The default tables *)

Lemma type_folder_range categories x :
  type_folder categories x ∈ categories.*1 ∨ type_folder categories x = "Others".
Proof.
  induction categories as [|[category exts] rest IH]; [by right|].
  cbn [type_folder]. destruct (mem x exts).
  - left. by left.
  - destruct IH as [IH|IH]; [left; by right | by right].
Qed.

Lemma default_categories_own :
  Forall (fun e : string * list string =>
            Forall (fun x => type_folder DEFAULT_CATEGORIES x = e.1 ∧ Str.lower x = x) e.2)
         DEFAULT_CATEGORIES.
Proof. apply (bool_decide_eq_true_1 _). vm_compute. reflexivity. Qed.

(** X3.  In the default table no extension is listed under two categories
    and every extension is written in lower case: each listed extension
    is classified under the one category that lists it.  Whatever the
    table, a file goes to one of its categories or to "Others". *)
Theorem default_categories_do_not_overlap :
  (∀ category exts x,
     (category, exts) ∈ DEFAULT_CATEGORIES → x ∈ exts →
     type_folder DEFAULT_CATEGORIES x = category ∧ Str.lower x = x) ∧
  (∀ category exts category' exts' x,
     (category, exts) ∈ DEFAULT_CATEGORIES → (category', exts') ∈ DEFAULT_CATEGORIES →
     x ∈ exts → x ∈ exts' → category = category') ∧
  (∀ categories acc p, ∃ folder,
     by_type_body categories acc p = relocate acc p folder ∧
     (folder ∈ categories.*1 ∨ folder = "Others")).
Proof.
  assert (∀ category exts x,
     (category, exts) ∈ DEFAULT_CATEGORIES → x ∈ exts →
     type_folder DEFAULT_CATEGORIES x = category ∧ Str.lower x = x) as Hown.
  { intros category exts x Hc Hx.
    pose proof default_categories_own as H.
    rewrite Forall_forall in H. specialize (H _ Hc). cbn [fst snd] in H.
    rewrite Forall_forall in H. by apply H. }
  split_and!.
  - exact Hown.
  - intros category exts category' exts' x Hc Hc' Hx Hx'.
    destruct (Hown _ _ _ Hc Hx) as [<- _]. by destruct (Hown _ _ _ Hc' Hx') as [<- _].
  - intros categories acc p. eexists. split; [reflexivity|]. apply type_folder_range.
Qed.

Ltac decide_bounds :=
  repeat match goal with
         | |- context [(?a <=? ?b)%Z] =>
             first [ rewrite (proj2 (Z.leb_le a b)) by lia
                   | rewrite (proj2 (Z.leb_gt a b)) by lia ]
         | |- context [(?a <? ?b)%Z] =>
             first [ rewrite (proj2 (Z.ltb_lt a b)) by lia
                   | rewrite (proj2 (Z.ltb_ge a b)) by lia ]
         end.

(** X4.  With the default ranges the folder is decided by four
    thresholds: below 1 MiB "Small", below 10 MiB "Medium", below 100 MiB
    "Large", anything from 100 MiB on "Very Large".  No size a file can
    have is left to "Unknown Size", which only a negative size would
    reach. *)
Theorem default_size_ranges_cover_every_size (file_size : Z) :
  size_folder DEFAULT_SIZE_RANGES file_size =
    (if (file_size <? 0)%Z then "Unknown Size"
     else if (file_size <? 1048576)%Z then "Small (< 1MB)"
     else if (file_size <? 10485760)%Z then "Medium (1-10MB)"
     else if (file_size <? 104857600)%Z then "Large (10-100MB)"
     else "Very Large (> 100MB)") ∧
  ((0 ≤ file_size)%Z ↔ size_folder DEFAULT_SIZE_RANGES file_size ≠ "Unknown Size").
Proof.
  unfold DEFAULT_SIZE_RANGES.
  change (1024 * 1024)%Z with 1048576%Z.
  change (10 * 1048576)%Z with 10485760%Z.
  change (100 * 1048576)%Z with 104857600%Z.
  cbn [size_folder num_le num_lt].
  destruct (Z_lt_le_dec file_size 0);
    [|destruct (Z_lt_le_dec file_size 1048576);
      [|destruct (Z_lt_le_dec file_size 10485760);
        [|destruct (Z_lt_le_dec file_size 104857600)]]];
    decide_bounds; cbn [andb]; (split; [reflexivity|]); split; (done || lia).
Qed.

(** ** The extension of a numbered name *)

Lemma string_app_assoc a b c : (a +:+ b) +:+ c = a +:+ b +:+ c.
Proof. induction a as [|x a IH]; [done|]. rewrite !app_cons. by rewrite IH. Qed.

Lemma rfind_app c a b j :
  Str.rfind c b = Some j → Str.rfind c (a +:+ b) = Some (String.length a + j).
Proof.
  intros H. induction a as [|x a IH]; [done|].
  rewrite app_cons. cbn [Str.rfind String.length]. by rewrite IH.
Qed.

Lemma rfind_drop c s i : Str.rfind c s = Some i → Str.rfind c (Str.drop i s) = Some 0.
Proof.
  revert i. induction s as [|a s IH]; intros i H; [done|].
  cbn [Str.rfind] in H. destruct (Str.rfind c s) as [j|] eqn:Hj.
  - injection H as <-. cbn [Str.drop]. by apply IH.
  - destruct (Ascii.eqb a c) eqn:Ha; [|done]. injection H as <-.
    cbn [Str.drop Str.rfind]. by rewrite Hj, Ha.
Qed.

Lemma string_drop_app a b : Str.drop (String.length a) (a +:+ b) = b.
Proof. induction a as [|x a IH]; [by destruct b|]. by rewrite app_cons. Qed.

Lemma string_take_app a b : Str.take (String.length a) (a +:+ b) = a.
Proof.
  induction a as [|x a IH]; [by destruct b|].
  rewrite app_cons. cbn [String.length Str.take]. by rewrite IH.
Qed.

Lemma string_length_drop i s : String.length (Str.drop i s) = String.length s - i.
Proof. revert s. induction i as [|i IH]; intros [|c s]; simpl; by try apply IH. Qed.

(** A name with an extension keeps it when a counter is put before it. *)
Lemma suffix_numbered_name a nm :
  Path.name_suffix nm ≠ "" → a ≠ "" →
  Path.suffix_index (Path.name_stem nm +:+ a +:+ Path.name_suffix nm)
  = Some (String.length (Path.name_stem nm +:+ a)).
Proof.
  unfold Path.name_suffix, Path.name_stem.
  destruct (Path.suffix_index nm) as [i|] eqn:Hi; [|done]. intros _ Ha.
  unfold Path.suffix_index in Hi.
  destruct (Str.rfind "." nm) as [j|] eqn:Hj; [|done].
  destruct (_ && _)%bool eqn:Hb; [|done]. injection Hi as ->.
  apply andb_true_iff in Hb as [_ Hlt]. apply Nat.ltb_lt in Hlt.
  rewrite <- string_app_assoc. unfold Path.suffix_index.
  rewrite (rfind_app _ _ _ 0) by by apply rfind_drop.
  rewrite Nat.add_0_r, !string_length_app, string_length_drop.
  assert (0 < String.length a) by (destruct a; [done | simpl; lia]).
  replace ((0 <? _) && _)%bool with true; [done|].
  symmetry. apply andb_true_iff. split; [apply Nat.ltb_lt | apply Nat.ltb_lt]; lia.
Qed.

Lemma name_cut nm i :
  Path.suffix_index nm = Some i →
  Path.name_suffix nm = Str.drop i nm ∧ Path.name_stem nm = Str.take i nm.
Proof. intros H. unfold Path.name_suffix, Path.name_stem. by rewrite H. Qed.

Lemma numbered_suffix t k :
  Path.suffix t ≠ "" →
  Path.name_suffix (numbered t k) = Path.suffix t ∧
  Path.name_stem (numbered t k) = Path.stem t +:+ "_" +:+ pretty k.
Proof.
  intros Hs. unfold numbered, Path.suffix, Path.stem in *.
  set (nm := Path.name t) in *. set (a := "_" +:+ pretty k).
  assert (a ≠ "") as Ha by done.
  pose proof (suffix_numbered_name a nm Hs Ha) as H.
  assert (Path.name_stem nm +:+ "_" +:+ pretty k +:+ Path.name_suffix nm
          = Path.name_stem nm +:+ a +:+ Path.name_suffix nm) as ->
    by (unfold a; by rewrite (string_app_assoc "_")).
  apply name_cut in H as [-> ->].
  rewrite <- (string_app_assoc (Path.name_stem nm) a).
  by rewrite string_drop_app, string_take_app.
Qed.

(** X5.  A file renamed by the conflict loop keeps its extension: when
    the name has an extension, the numbered name [stem_N suffix] has the
    same extension and the stem [stem_N], so the renamed file is
    classified by type as the original is.  A name without an extension
    can acquire one: [file.] has none, [file._1] has [._1]. *)
Theorem a_numbered_name_keeps_the_extension :
  (∀ dir original_target counter,
     Path.suffix original_target ≠ "" →
     let renamed := Path.child dir (numbered original_target counter) in
     Path.suffix renamed = Path.suffix original_target ∧
     Path.stem renamed = Path.stem original_target +:+ "_" +:+ pretty counter ∧
     ∀ categories,
       type_folder categories (Str.lower (Path.suffix renamed))
       = type_folder categories (Str.lower (Path.suffix original_target))) ∧
  (Path.suffix ["file."] = "" ∧ numbered ["file."] 1 = "file._1" ∧
   Path.suffix ["file._1"] = "._1").
Proof.
  split; [|split_and!; vm_compute; reflexivity].
  intros dir t k Hs renamed.
  destruct (numbered_suffix t k Hs) as [H1 H2].
  unfold renamed, Path.suffix at 1 3, Path.stem at 1. rewrite name_child.
  split_and!; [done|done|]. intros categories. by rewrite H1.
Qed.

(** ** Entries that match every file *)

Lemma contains_nothing s : Str.contains s "" = true.
Proof. by destruct s. Qed.

Lemma pattern_folder_app pre post filename :
  pattern_folder (pre ++ post) filename =
  if bool_decide (Exists (fun e => Str.contains filename (Str.lower e.2) = true) pre)
  then pattern_folder pre filename else pattern_folder post filename.
Proof.
  induction pre as [|[folder_name pattern] pre IH]; cbn [app pattern_folder].
  - rewrite bool_decide_eq_false_2; [done|]. by intros ?%Exists_nil.
  - destruct (Str.contains filename (Str.lower pattern)) eqn:Hc.
    + rewrite bool_decide_eq_true_2; [done|]. by left.
    + rewrite IH. apply (f_equal (fun b : bool => if b then _ else _)).
      apply bool_decide_ext. rewrite Exists_cons. cbn [snd]. rewrite Hc.
      split; [by right | intros [?|?]; [congruence | done]].
Qed.

Lemma first_rule_app pre post filename file_ext file_size :
  first_rule (pre ++ post) filename file_ext file_size =
  match first_rule pre filename file_ext file_size with
  | Some folder => Some folder
  | None => first_rule post filename file_ext file_size
  end.
Proof.
  induction pre as [|r pre IH]; cbn [app first_rule]; [done|].
  by destruct (rule_match _ _ _ _).
Qed.

Lemma custom_folder_rules d l nm file_size :
  custom_folder (Rules d (Some l)) nm file_size =
  match first_rule l (Str.lower nm) (Str.lower (Path.name_suffix nm)) file_size with
  | Some folder => folder
  | None => default "Others" d
  end.
Proof. reflexivity. Qed.

(** X6.  An empty name pattern occurs in every file name, and a rule
    without conditions (the key missing, or an empty object) holds of
    every file: such an entry catches whatever reaches it, so the entries
    after it are never consulted and the fallback folder is never used.
    A rule that matches and has no [folder] key sends the file to
    "Others", whatever default folder the document configures. *)
Theorem an_unconditional_entry_ends_the_search :
  (∀ pre folder_name post filename,
     pattern_folder (pre ++ (folder_name, "") :: post) filename
     = pattern_folder (pre ++ [(folder_name, "")]) filename ∧
     (Forall (fun e => Str.contains filename (Str.lower e.2) = false) pre →
      pattern_folder (pre ++ (folder_name, "") :: post) filename = folder_name)) ∧
  (∀ d d' pre conds folder post nm file_size,
     conds = None ∨ conds = Some (Conditions None None None) →
     custom_folder (Rules d (Some (pre ++ Rule conds folder :: post))) nm file_size
     = custom_folder (Rules d' (Some (pre ++ [Rule conds folder]))) nm file_size) ∧
  (∀ d conds post nm file_size,
     conds = None ∨ conds = Some (Conditions None None None) →
     custom_folder (Rules d (Some (Rule conds None :: post))) nm file_size = "Others").
Proof.
  split_and!.
  - intros pre folder_name post filename. rewrite !pattern_folder_app.
    cbn [pattern_folder]. change (Str.lower "") with "". rewrite contains_nothing.
    split; [done|]. intros Hpre. rewrite bool_decide_eq_false_2; [done|].
    intros (e & He & Hc)%Exists_exists. rewrite Forall_forall in Hpre.
    specialize (Hpre e He). congruence.
  - intros d d' pre conds folder post nm file_size Hc.
    rewrite !custom_folder_rules, !first_rule_app.
    destruct (first_rule pre _ _ _); [done|]. by destruct Hc as [-> | ->].
  - intros d conds post nm file_size Hc. rewrite custom_folder_rules.
    by destruct Hc as [-> | ->].
Qed.

(** ** The sample rule document *)

Lemma mem_false x l : x ∉ l → mem x l = false.
Proof. intros H. by apply bool_decide_eq_false_2. Qed.

Lemma first_rule_cons c folder rest filename file_ext file_size :
  first_rule (Rule (Some c) (Some folder) :: rest) filename file_ext file_size =
  if rule_match c filename file_ext file_size then Some folder
  else first_rule rest filename file_ext file_size.
Proof. reflexivity. Qed.

Lemma sample_rules_folder nm file_size :
  custom_folder sample_rules nm file_size =
  let file_ext := Str.lower (Path.name_suffix nm) in
  let filename := Str.lower nm in
  if mem file_ext [".docx"; ".xlsx"; ".pptx"] && Str.contains filename "work" then "Work"
  else if mem file_ext [".png"; ".jpg"] && Str.contains filename "screenshot"
       then "Screenshots"
  else if mem file_ext [".mp4"; ".avi"; ".mkv"] && (104857600 <=? file_size)%Z
       then "Large Videos"
  else if mem file_ext [".py"; ".js"; ".html"; ".css"] then "Projects"
  else "Others".
Proof.
  unfold sample_rules. rewrite custom_folder_rules, !first_rule_cons.
  rewrite !rule_match_and. cbv zeta.
  change (100 * 1024 * 1024)%Z with 104857600%Z.
  cbn [first_rule extensions name_contains size_range num_le].
  rewrite !andb_true_r.
  change (Str.lower "work") with "work".
  change (Str.lower "screenshot") with "screenshot".
  destruct (mem _ [".docx"; ".xlsx"; ".pptx"] && _); [done|].
  destruct (mem _ [".png"; ".jpg"] && _); [done|].
  destruct (mem _ [".mp4"; ".avi"; ".mkv"] && _); [done|].
  by destruct (mem _ [".py"; ".js"; ".html"; ".css"]).
Qed.

Ltac evaluate_mem :=
  repeat match goal with
         | |- context [mem ?x ?l] =>
             let b := eval vm_compute in (mem x l) in change (mem x l) with b
         end;
  cbn [andb].

(** X7.  The document [create_sample_rules] writes sorts every file by
    its lower-cased extension first: a [.py], [.js], [.html] or [.css]
    file goes to "Projects" whatever its name and size; a [.mp4], [.avi]
    or [.mkv] file to "Large Videos" from 100 MiB on and to "Others"
    below; a [.png] or [.jpg] file to "Screenshots" when its name contains
    "screenshot"; a [.docx], [.xlsx] or [.pptx] file to "Work" when its
    name contains "work"; everything else goes to "Others". *)
Theorem sample_rules_sort_by_extension (nm : string) (file_size : Z) :
  let file_ext := Str.lower (Path.name_suffix nm) in
  let filename := Str.lower nm in
  (∀ output_file,
     create_sample_rules output_file
     = ((output_file, sample_rules), [SampleRulesCreated output_file])) ∧
  (file_ext ∈ [".py"; ".js"; ".html"; ".css"] →
   custom_folder sample_rules nm file_size = "Projects") ∧
  (file_ext ∈ [".mp4"; ".avi"; ".mkv"] →
   custom_folder sample_rules nm file_size =
   if (104857600 <=? file_size)%Z then "Large Videos" else "Others") ∧
  (file_ext ∈ [".png"; ".jpg"] →
   custom_folder sample_rules nm file_size =
   if Str.contains filename "screenshot" then "Screenshots" else "Others") ∧
  (file_ext ∈ [".docx"; ".xlsx"; ".pptx"] →
   custom_folder sample_rules nm file_size =
   if Str.contains filename "work" then "Work" else "Others") ∧
  (file_ext ∉ [".docx"; ".xlsx"; ".pptx"; ".png"; ".jpg"; ".mp4"; ".avi"; ".mkv";
               ".py"; ".js"; ".html"; ".css"] →
   custom_folder sample_rules nm file_size = "Others").
Proof.
  intros file_ext filename. rewrite sample_rules_folder. cbv zeta.
  fold file_ext. fold filename. clearbody file_ext filename. split_and!.
  - done.
  - intros H. repeat (apply elem_of_cons in H as [->|H]); [..|by apply elem_of_nil in H];
      by evaluate_mem.
  - intros H. repeat (apply elem_of_cons in H as [->|H]); [..|by apply elem_of_nil in H];
      by evaluate_mem.
  - intros H. repeat (apply elem_of_cons in H as [->|H]); [..|by apply elem_of_nil in H];
      by evaluate_mem.
  - intros H. repeat (apply elem_of_cons in H as [->|H]); [..|by apply elem_of_nil in H];
      by evaluate_mem.
  - intros H. rewrite !elem_of_cons, elem_of_nil in H.
    rewrite !mem_false; [done|..]; rewrite !elem_of_cons, elem_of_nil; tauto.
Qed.

(** ** The order of paths *)

Lemma ascii_compare_refl a : Ascii.compare a a = Eq.
Proof. apply N.compare_refl. Qed.

Lemma ascii_compare_lt_trans a b c :
  Ascii.compare a b = Lt → Ascii.compare b c = Lt → Ascii.compare a c = Lt.
Proof. unfold Ascii.compare. rewrite !N.compare_lt_iff. lia. Qed.

Lemma string_compare_refl s : String.compare s s = Eq.
Proof. induction s as [|a s IH]; simpl; [done|]. by rewrite ascii_compare_refl. Qed.

Lemma string_compare_lt_trans s t u :
  String.compare s t = Lt → String.compare t u = Lt → String.compare s u = Lt.
Proof.
  revert t u. induction s as [|a s IH]; intros [|b t] [|c u]; simpl; try done.
  destruct (Ascii.compare a b) eqn:Hab; [|clear IH|done].
  - apply Ascii.compare_eq_iff in Hab as ->.
    destruct (Ascii.compare b c); [apply IH|done|done].
  - destruct (Ascii.compare b c) eqn:Hbc; [|intros _ _|done].
    + apply Ascii.compare_eq_iff in Hbc as <-. by rewrite Hab.
    + by rewrite (ascii_compare_lt_trans a b c).
Qed.

Lemma path_compare_refl p : Path.compare p p = Eq.
Proof. induction p as [|a p IH]; simpl; [done|]. by rewrite string_compare_refl. Qed.

Lemma path_compare_eq p q : Path.compare p q = Eq → p = q.
Proof.
  revert q. induction p as [|a p IH]; intros [|b q]; simpl; try done.
  destruct (String.compare a b) eqn:Hab; try done.
  apply String.compare_eq_iff in Hab as ->. by intros ->%IH.
Qed.

Lemma path_compare_antisym p q : Path.compare p q = CompOpp (Path.compare q p).
Proof.
  revert q. induction p as [|a p IH]; intros [|b q]; simpl; try done.
  rewrite (String.compare_antisym a b). destruct (String.compare b a); simpl; by try apply IH.
Qed.

Lemma path_compare_lt_trans p q r :
  Path.compare p q = Lt → Path.compare q r = Lt → Path.compare p r = Lt.
Proof.
  revert q r. induction p as [|a p IH]; intros [|b q] [|c r]; simpl; try done.
  destruct (String.compare a b) eqn:Hab; [|clear IH|done].
  - apply String.compare_eq_iff in Hab as ->.
    destruct (String.compare b c); [apply IH|done|done].
  - destruct (String.compare b c) eqn:Hbc; [|intros _ _|done].
    + apply String.compare_eq_iff in Hbc as <-. by rewrite Hab.
    + by rewrite (string_compare_lt_trans a b c).
Qed.

Lemma path_leb_spec p q : Is_true (Path.leb p q) ↔ p = q ∨ path_lt p q.
Proof.
  unfold Path.leb, path_lt. destruct (Path.compare p q) eqn:H; simpl.
  - apply path_compare_eq in H. tauto.
  - tauto.
  - split; [done|]. intros [->|?]; [|done]. by rewrite path_compare_refl in H.
Qed.

Lemma path_lt_irrefl p : ¬ path_lt p p.
Proof. unfold path_lt. by rewrite path_compare_refl. Qed.

Global Instance path_leb_trans : Transitive (fun p q => Is_true (Path.leb p q)).
Proof.
  intros p q r. rewrite !path_leb_spec. intros [->|Hpq] [->|Hqr]; try tauto.
  right. by eapply path_compare_lt_trans.
Qed.

Global Instance path_leb_total : Total (fun p q => Is_true (Path.leb p q)).
Proof.
  intros p q. rewrite !path_leb_spec. unfold path_lt.
  rewrite (path_compare_antisym q p).
  destruct (Path.compare p q) eqn:H; simpl; [|tauto..].
  apply path_compare_eq in H. tauto.
Qed.

Global Instance path_leb_antisym : AntiSymm eq (fun p q => Is_true (Path.leb p q)).
Proof.
  intros p q. rewrite !path_leb_spec. intros [->|Hpq] [Heq|Hqp]; try done.
  destruct (path_lt_irrefl p). by eapply path_compare_lt_trans.
Qed.

(** ** Enumeration, exactly *)

Lemma is_prefix_spec p q : FS.is_prefix p q = true ↔ ∃ rest, q = p ++ rest.
Proof.
  revert q. induction p as [|a p IH]; intros q; simpl.
  - split; [intros _; by exists q | done].
  - destruct q as [|b q]; simpl.
    + split; [done | by intros [? ?]].
    + rewrite andb_true_iff, bool_decide_eq_true, IH. split.
      * intros [-> [rest ->]]. by exists rest.
      * intros [rest [= -> ->]]. split; [done | by exists rest].
Qed.

Lemma glob_spec fs dir recursive p :
  p ∈ FS.glob fs dir recursive ↔
  FS.is_dir fs dir = true ∧ is_Some (fs !! p) ∧
  if recursive then below dir p else directly_in dir p.
Proof.
  unfold FS.glob. destruct (FS.is_dir fs dir).
  - rewrite list_elem_of_In, filter_In, <- list_elem_of_In.
    change (List.map fst (map_to_list fs)) with ((map_to_list fs).*1).
    rewrite list_elem_of_fmap.
    assert ((∃ y : path * node, p = y.1 ∧ y ∈ map_to_list fs) ↔ is_Some (fs !! p)) as ->.
    { split.
      - intros ([q n] & -> & Hin). apply elem_of_map_to_list in Hin. by eexists.
      - intros [n Hn]. exists (p, n). split; [done|]. by apply elem_of_map_to_list. }
    assert ((if recursive
             then FS.is_prefix dir p && negb (bool_decide (p = dir))
             else negb (bool_decide (p = [])) && bool_decide (Path.parent p = dir)) = true
            ↔ if recursive then below dir p else directly_in dir p) as ->; [|tauto].
    destruct recursive.
    + rewrite andb_true_iff, negb_true_iff, bool_decide_eq_false, is_prefix_spec.
      unfold below. split.
      * intros [[rest ->] Hne]. exists rest. split; [|done].
        intros ->. by rewrite app_nil_r in Hne.
      * intros (rest & Hne & ->). split; [by exists rest|].
        intros H. apply Hne. apply (app_inv_head dir). by rewrite app_nil_r.
    + rewrite andb_true_iff, negb_true_iff, bool_decide_eq_false, bool_decide_eq_true.
      unfold directly_in, Path.child, Path.parent. split.
      * intros [Hne <-]. exists (List.last p ""). by apply app_removelast_last.
      * intros [nm ->]. split; [by destruct dir | apply removelast_last].
  - split; [by intros ?%elem_of_nil | by intros []].
Qed.

Lemma get_files_elem self fs recursive include_hidden f :
  f ∈ get_files self fs recursive include_hidden ↔
  FS.is_dir fs (source_dir self) = true ∧
  FS.is_file fs f = true ∧
  (if recursive then below (source_dir self) f else directly_in (source_dir self) f) ∧
  (include_hidden = true ∨ hidden (Path.name f) = false).
Proof.
  unfold get_files. rewrite merge_sort_Permutation.
  rewrite list_elem_of_In, filter_In, <- list_elem_of_In, glob_spec.
  rewrite andb_true_iff, negb_true_iff, andb_false_iff, negb_false_iff.
  unfold hidden. split.
  - intros [(? & ? & ?) [? ?]]. done.
  - intros (? & Hf & ? & ?). split_and!; try done.
    unfold FS.is_file in Hf. by destruct (fs !! f).
Qed.

(** X8.  [get_files] lists exactly the regular files of the source
    directory whose own name does not start with a dot (all regular files
    when hidden ones are asked for): those directly in it, or with
    [recursive] those at any depth.  Only the file's own name is looked
    at, so a recursive listing includes the visible files of a hidden
    directory; directories are never listed; and a source that is not a
    directory gives the empty list.  Asking for more only adds files. *)
Theorem get_files_lists_the_visible_regular_files :
  (∀ self fs recursive include_hidden f,
     f ∈ get_files self fs recursive include_hidden ↔
     FS.is_dir fs (source_dir self) = true ∧
     FS.is_file fs f = true ∧
     (if recursive then below (source_dir self) f else directly_in (source_dir self) f) ∧
     (include_hidden = true ∨ Str.startswith (Path.name f) "." = false)) ∧
  (∀ self fs recursive include_hidden,
     FS.is_dir fs (source_dir self) = false →
     get_files self fs recursive include_hidden = []) ∧
  (∀ self fs recursive include_hidden f,
     f ∈ get_files self fs recursive include_hidden →
     f ∈ get_files self fs true include_hidden ∧
     f ∈ get_files self fs recursive true) ∧
  (∀ self fs d nm st data,
     FS.is_dir fs (source_dir self) = true →
     fs !! Path.child (Path.child (source_dir self) d) nm = Some (File st data) →
     Str.startswith nm "." = false →
     Path.child (Path.child (source_dir self) d) nm ∈ get_files self fs true false).
Proof.
  split_and!.
  - exact get_files_elem.
  - intros self fs recursive include_hidden Hd.
    apply elem_of_nil_inv. intros f Hf. apply get_files_elem in Hf as [Hd' _]. congruence.
  - intros self fs recursive include_hidden f. rewrite !get_files_elem.
    intros (Hd & Hf & Hin & Hh). split; (split_and!; [done|done| |]); try done; try by left.
    destruct recursive; [done|]. destruct Hin as [nm ->]. by exists [nm].
  - intros self fs d nm st data Hd Hf Hnm. apply get_files_elem. split_and!.
    + done.
    + unfold FS.is_file. by rewrite Hf.
    + exists [d; nm]. split; [done|]. unfold Path.child. by rewrite <- app_assoc.
    + right. unfold hidden. by rewrite name_child.
Qed.

Lemma strictly_sorted (l : list path) :
  StronglySorted (fun p q => Is_true (Path.leb p q)) l → NoDup l → StronglySorted path_lt l.
Proof.
  induction 1 as [|p l Hs IH Hall]; intros Hnd; [constructor|].
  apply NoDup_cons in Hnd as [Hp Hnd]. constructor; [by apply IH|].
  rewrite Forall_forall in *. intros q Hq.
  destruct (proj1 (path_leb_spec p q) (Hall q Hq)) as [->|?]; done.
Qed.

(** X9.  [get_files] returns the files in strictly ascending order of
    their paths, compared component by component and character by
    character: every file once, before all files with a greater path.
    This list is the only ascending arrangement of its members, so the
    order in which the directory happens to be read plays no part.  Names
    are compared by character code: [B.txt] comes before [a.txt]. *)
Theorem get_files_is_sorted :
  (∀ self fs recursive include_hidden,
     StronglySorted path_lt (get_files self fs recursive include_hidden) ∧
     NoDup (get_files self fs recursive include_hidden)) ∧
  (∀ self fs recursive include_hidden l,
     l ≡ₚ get_files self fs recursive include_hidden →
     StronglySorted (fun p q => path_lt p q ∨ p = q) l →
     l = get_files self fs recursive include_hidden) ∧
  (∀ p q r, path_lt p q → path_lt q r → path_lt p r) ∧
  (∀ p q, path_lt p q ∨ p = q ∨ path_lt q p) ∧
  (∀ p, ¬ path_lt p p) ∧
  path_lt ["src"; "B.txt"] ["src"; "a.txt"] ∧
  path_lt ["src"; "a"] ["src"; "a"; "b"].
Proof.
  assert (∀ self fs recursive include_hidden,
            StronglySorted (fun p q => Is_true (Path.leb p q))
                           (get_files self fs recursive include_hidden)) as Hsorted.
  { intros. unfold get_files. apply (StronglySorted_merge_sort _); apply _. }
  split_and!.
  - intros self fs recursive include_hidden.
    destruct (get_files_spec self fs recursive include_hidden) as [Hnd _].
    split; [|done]. by apply strictly_sorted.
  - intros self fs recursive include_hidden l Hperm Hl.
    apply (StronglySorted_unique (fun p q => Is_true (Path.leb p q)));
      [|apply Hsorted|done].
    clear Hperm. induction Hl as [|p l Hs IH Hall]; constructor; [done|].
    eapply Forall_impl; [done|]. intros q Hq. simpl in Hq.
    apply (proj2 (path_leb_spec p q)). tauto.
  - intros p q r. apply path_compare_lt_trans.
  - intros p q. unfold path_lt. rewrite (path_compare_antisym q p).
    destruct (Path.compare p q) eqn:H; simpl; [|tauto..].
    apply path_compare_eq in H. tauto.
  - apply path_lt_irrefl.
  - reflexivity.
  - reflexivity.
Qed.

(** ** Counting regular files *)

Lemma regular_files_Some fs q n :
  regular_files fs !! q = Some n ↔ fs !! q = Some n ∧ is_regular n.
Proof. apply map_lookup_filter_Some. Qed.

Lemma regular_files_grows fs fs' : grows_by_dirs fs fs' → regular_files fs' = regular_files fs.
Proof.
  intros H. apply map_eq. intros q. apply option_eq. intros n.
  rewrite !regular_files_Some. destruct (H q) as [->|[Hn Hd]]; [done|].
  rewrite Hn, Hd. split; intros [? ?]; by simplify_eq.
Qed.

Lemma file_count_insert fs r st data :
  fs !! r = None → file_count (<[r := File st data]> fs) = S (file_count fs).
Proof.
  intros H. unfold file_count, regular_files. rewrite map_filter_insert_True by done.
  apply map_size_insert_None. apply map_lookup_filter_None. by left.
Qed.

Lemma file_count_delete fs f st data :
  fs !! f = Some (File st data) → S (file_count (delete f fs)) = file_count fs.
Proof.
  intros H. unfold file_count, regular_files. rewrite map_filter_delete.
  assert (filter (fun kv : path * node => is_regular kv.2) fs !! f = Some (File st data))
    as Hf by by apply map_lookup_filter_Some.
  rewrite map_size_delete_Some by by eexists.
  destruct (size _) eqn:Hsz; [|done].
  apply map_size_empty_iff in Hsz. rewrite Hsz in Hf. by rewrite lookup_empty in Hf.
Qed.

(** ** One relocation of a regular file *)

(** In a live run the relocation of a regular file fails only when the
    target directory cannot be created; otherwise the file lands at a path
    that was free, in that directory. *)
Lemma relocate_regular acc f folder st data :
  dry_run (organizer acc) = false →
  files acc !! f = Some (File st data) →
  let acc1 := relocate acc f folder in
  (files acc1 = files acc ∧ result acc1 = result acc ∧
   moved_files (organizer acc1) = moved_files (organizer acc) ∧
   failed_files (organizer acc1) = failed_files (organizer acc) ++ [f]) ∨
  (∃ fs1 r,
     grows_by_dirs (files acc) fs1 ∧ fs1 !! r = None ∧
     Path.parent r = Path.joinpath (target_dir (organizer acc)) folder ∧
     files acc1 = <[r := File st data]>
                    (if copy_files (organizer acc) then fs1 else delete f fs1) ∧
     result acc1 = count folder (result acc) ∧
     moved_files (organizer acc1) = moved_files (organizer acc) ++ [r] ∧
     failed_files (organizer acc1) = failed_files (organizer acc)).
Proof.
  intros Hd Hf acc1. subst acc1. unfold relocate.
  destruct (FS.mkdir (files acc) (Path.joinpath (target_dir (organizer acc)) folder))
    as [e|fs1] eqn:Hmk.
  - left. rewrite move_file_live by done. cbv zeta. by rewrite Hmk.
  - right.
    rewrite (move_regular_file (organizer acc) (files acc) f folder st data fs1) by done.
    set (tdir := Path.joinpath (target_dir (organizer acc)) folder).
    exists fs1, (resolve false fs1 tdir (Path.child tdir (Path.name f))).
    apply mkdir_spec in Hmk as [Hg _]. split_and!; try done.
    + apply not_exists_lookup. apply (resolve_live fs1 tdir).
    + apply resolve_parent.
    + simpl. by destruct (copy_files (organizer acc)).
Qed.

(** The account of a live run over distinct regular files: what was added
    to the two logs, where every regular file found afterwards comes from,
    and how many there are. *)
Lemma steps_account acc l acc' :
  steps acc l acc' →
  dry_run (organizer acc) = false →
  NoDup l →
  (∀ f, f ∈ l → ∃ st data, files acc !! f = Some (File st data)) →
  ∃ ml fl,
    moved_files (organizer acc') = moved_files (organizer acc) ++ ml ∧
    failed_files (organizer acc') = failed_files (organizer acc) ++ fl ∧
    (∀ q st data, files acc' !! q = Some (File st data) →
       q ∈ ml ∨ (files acc !! q = Some (File st data) ∧
                 (copy_files (organizer acc) = true ∨ q ∉ l ∨ q ∈ fl))) ∧
    file_count (files acc') =
      file_count (files acc) + (if copy_files (organizer acc) then length ml else 0).
Proof.
  induction 1 as [acc|acc f folder l acc' Hsteps IH|acc f ev l acc' Hev Hsteps IH];
    intros Hd Hnd Hfiles.
  - exists [], []. rewrite !app_nil_r. split_and!; [done|done| |by destruct (copy_files _)].
    intros q st data Hq. right. split; [done|]. right. left. by intros ?%elem_of_nil.
  - apply NoDup_cons in Hnd as [Hfl Hnd].
    destruct (Hfiles f) as (st & data & Hf); [by left|].
    destruct (relocate_settings acc f folder) as (_ & _ & Hdry & Hcopy).
    destruct (relocate_regular acc f folder st data Hd Hf)
      as [(Hfs & _ & Hm1 & Hf1)|(fs1 & r & Hg & Hfree & _ & Hfs & _ & Hm1 & Hf1)].
    + destruct IH as (ml & fl & Hm & Hfa & Horigin & Hcount).
      { by rewrite <- Hdry. } { done. }
      { intros f' Hf'. rewrite Hfs. apply Hfiles. by right. }
      rewrite Hfs, Hm1, Hf1, <- Hcopy in *. exists ml, (f :: fl).
      split_and!; [done|by rewrite Hfa, <- app_assoc| |done].
      intros q st' data' Hq. destruct (Horigin q st' data' Hq) as [?|[Hq0 Hor]]; [by left|].
      right. split; [done|]. destruct Hor as [?|[Hq'|Hq']]; [by left| |].
      * destruct (decide (q = f)) as [->|Hne].
        -- right. right. by left.
        -- right. left. by intros [?|?]%elem_of_cons.
      * right. right. by right.
    + assert (∀ q n, files acc !! q = Some n → q ≠ r) as Hne.
      { intros q n Hq ->. apply (grows_by_dirs_Some _ _ _ _ Hg) in Hq. congruence. }
      destruct IH as (ml & fl & Hm & Hfa & Horigin & Hcount).
      { by rewrite <- Hdry. } { done. }
      { intros f' Hf'. destruct (Hfiles f') as (st' & data' & Hf''); [by right|].
        exists st', data'. rewrite Hfs.
        pose proof (Hne _ _ Hf''). pose proof (grows_by_dirs_Some _ _ _ _ Hg Hf'').
        destruct (copy_files (organizer acc)).
        - by rewrite lookup_insert_ne.
        - rewrite lookup_insert_ne, lookup_delete_ne; [done| |done]. by intros ->. }
      rewrite Hm1, Hf1, <- Hcopy in *. exists (r :: ml), fl.
      split_and!; [by rewrite Hm, <- app_assoc|done| |].
      * intros q st' data' Hq. destruct (Horigin q st' data' Hq) as [?|[Hq0 Hor]].
        { left. by right. }
        destruct (decide (q = r)) as [->|Hqr]; [left; by left|]. right.
        rewrite Hfs, lookup_insert_ne in Hq0 by done.
        assert (fs1 !! q = Some (File st' data') ∧
                (copy_files (organizer acc) = true ∨ q ≠ f)) as [Hq1 Hqf].
        { destruct (copy_files (organizer acc)); [split; [done | by left]|].
          apply lookup_delete_Some in Hq0 as [? ?]. split; [done | by right]. }
        split.
        { destruct (Hg q) as [<-|[_ Hdir]]; [done | congruence]. }
        destruct Hor as [?|[Hq'|Hq']]; [by left| |by right; right].
        destruct Hqf as [?|?]; [by left|]. right. left. by intros [?|?]%elem_of_cons.
      * rewrite Hcount, Hfs.
        assert (fs1 !! f = Some (File st data)) as Hf1' by by eapply grows_by_dirs_Some.
        pose proof (regular_files_grows _ _ Hg) as Hreg.
        destruct (copy_files (organizer acc)).
        -- rewrite file_count_insert by done. unfold file_count at 1. rewrite Hreg.
           fold (file_count (files acc)). simpl. lia.
        -- rewrite file_count_insert by by apply lookup_delete_None; right.
           rewrite (file_count_delete fs1 f st data) by done.
           unfold file_count. by rewrite Hreg, !Nat.add_0_r.
  - apply NoDup_cons in Hnd as [Hfl Hnd].
    destruct IH as (ml & fl & Hm & Hfa & Horigin & Hcount); [done|done|..].
    { intros f' Hf'. simpl. apply Hfiles. by right. }
    simpl in Hm, Hfa, Horigin, Hcount. exists ml, (f :: fl).
    split_and!; [done|by rewrite Hfa, <- app_assoc| |done].
    intros q st' data' Hq. destruct (Horigin q st' data' Hq) as [?|[Hq0 Hor]]; [by left|].
    right. split; [done|]. destruct Hor as [?|[Hq'|Hq']]; [by left| |].
    + destruct (decide (q = f)) as [->|Hne].
      * right. right. by left.
      * right. left. by intros [?|?]%elem_of_cons.
    + right. right. by right.
Qed.

Lemma organize_loop_nil strftime s self fs :
  organizer (organize_loop strftime s self fs []) = self ∧
  files (organize_loop strftime s self fs []) = fs.
Proof. by destruct s as [| | | |[]]. Qed.

(** The account of a whole run, dry or live, finished or cut short. *)
Lemma organize_account strftime s self fs recursive include_hidden :
  let run := organize strftime s self fs recursive include_hidden in
  let l := get_files self fs recursive include_hidden in
  ∃ ml fl,
    moved_files (organizer run) = moved_files self ++ ml ∧
    failed_files (organizer run) = failed_files self ++ fl ∧
    (dry_run self = true → ml = [] ∧ files run = fs) ∧
    (∀ q st data, files run !! q = Some (File st data) →
       q ∈ ml ∨ (fs !! q = Some (File st data) ∧
                 (copy_files self = true ∨ dry_run self = true ∨ q ∉ l ∨ q ∈ fl ∨
                  ∃ e, result run = inl e))) ∧
    file_count (files run) =
      file_count fs + (if copy_files self && negb (dry_run self) then length ml else 0).
Proof.
  intros run l. subst run. rewrite organize_is_loop. fold l.
  destruct (organize_loop_steps strftime s self fs l)
    as (pre & post & acc0 & acc' & Hl & Hsteps & Ho & Hf & _ & Ho' & Hf' & _ & _ & Hr).
  rewrite Ho', Hf'.
  destruct (dry_run self) eqn:Hd.
  - rewrite <- Ho in Hd. destruct (steps_dry _ _ _ Hsteps Hd) as [Hfs Hm].
    assert (∃ fl, failed_files (organizer acc') = failed_files (organizer acc0) ++ fl)
      as [fl Hfl].
    { clear -Hsteps. induction Hsteps as [acc|acc f folder l acc' _ IH|acc f ev l acc' _ _ IH].
      - exists []. by rewrite app_nil_r.
      - destruct IH as [fl IH]. unfold relocate in IH. simpl in IH.
        destruct (dry_run (organizer acc)) eqn:Hd.
        + rewrite move_file_dry in IH by done. by exists fl.
        + destruct (move_file_logs (organizer acc) (files acc) f folder Hd)
            as [(_ & Hf & _)|(_ & _ & Hf & _)]; rewrite Hf in IH; [by exists fl|].
          exists (f :: fl). by rewrite IH, <- app_assoc.
      - destruct IH as [fl IH]. simpl in IH. exists (f :: fl). by rewrite IH, <- app_assoc. }
    exists [], fl. rewrite app_nil_r, andb_false_r, Nat.add_0_r, Hm, Hfl, Hfs, Ho, Hf.
    split_and!; try done. intros q st data Hq. right. split; [done|]. right. by left.
  - rewrite <- Ho in Hd.
    destruct (get_files_spec self fs recursive include_hidden) as [Hnd Hreg].
    fold l in Hnd, Hreg. rewrite Hl in Hnd. apply NoDup_app in Hnd as (Hnd & Hdisj & _).
    destruct (steps_account _ _ _ Hsteps Hd Hnd) as (ml & fl & Hm & Hfa & Horigin & Hcount).
    { intros f Hin. rewrite Hf. apply Hreg. rewrite Hl. apply elem_of_app. by left. }
    rewrite Ho, Hf in *. exists ml, fl. rewrite andb_true_r.
    split_and!; try done.
    intros q st data Hq. destruct (Horigin q st data Hq) as [?|[Hq0 Hor]]; [by left|].
    right. split; [done|]. destruct Hor as [?|[Hq'|?]]; [by left| |by right; right; right; left].
    destruct post as [|f post].
    + right. right. left. by rewrite Hl, app_nil_r.
    + right. right. right. right.
      destruct (result (organize_loop strftime s self fs l)) as [e|st']; [by exists e|].
      by destruct Hr.
Qed.

(** X10.  A run never deletes or overwrites a file, whatever the
    strategy and whether it finishes or is cut short: in move mode and in
    a dry run the number of regular files is the same afterwards, in
    live copy mode it is larger by exactly the number of paths added to
    the move log; every regular file found afterwards is either one of
    the logged paths or was there before with the same contents; and
    whatever was not listed, file or directory, is where it was. *)
Theorem a_run_never_deletes_or_overwrites strftime s self fs recursive include_hidden :
  let run := organize strftime s self fs recursive include_hidden in
  ∃ added,
    moved_files (organizer run) = moved_files self ++ added ∧
    file_count (files run) =
      file_count fs +
      (if copy_files self && negb (dry_run self) then length added else 0) ∧
    (∀ q st data, files run !! q = Some (File st data) →
       q ∈ added ∨ fs !! q = Some (File st data)) ∧
    (∀ q n, fs !! q = Some n →
       q ∉ get_files self fs recursive include_hidden → files run !! q = Some n).
Proof.
  intros run.
  destruct (organize_account strftime s self fs recursive include_hidden)
    as (ml & fl & Hm & _ & Hdry & Horigin & Hcount).
  fold run in Hm, Hdry, Horigin, Hcount. exists ml. split_and!; [done|done| |].
  - intros q st data Hq. destruct (Horigin q st data Hq) as [?|[? _]]; [by left | by right].
  - intros q n Hq Hnot. destruct (dry_run self) eqn:Hd.
    + destruct Hdry as [_ ->]; done.
    + subst run. rewrite organize_is_loop.
      destruct (organize_loop_steps strftime s self fs
                  (get_files self fs recursive include_hidden))
        as (pre & post & acc0 & acc' & Hl & Hsteps & Ho & Hf & _ & _ & Hf' & _).
      rewrite Hf'.
      destruct (get_files_spec self fs recursive include_hidden) as [Hnd Hreg].
      rewrite Hl in Hnd, Hnot. apply NoDup_app in Hnd as (Hnd & _ & _).
      rewrite <- Ho in Hd.
      destruct (steps_ledger _ _ _ Hsteps Hd Hnd) as (_ & _ & _ & _ & _ & Hframe & _).
      { intros f Hin. rewrite Hf. apply Hreg. rewrite Hl. apply elem_of_app. by left. }
      apply Hframe; [by rewrite Hf|]. right. intros Hin. apply Hnot, elem_of_app. by left.
Qed.

(** ** The counts a method returns *)

Lemma total_insert k n (st : stats) :
  st !! k = None → total (<[k := n]> st) = n + total st.
Proof.
  intros H. unfold total. apply map_fold_insert_L; [|done]. intros. lia.
Qed.

Lemma total_count k st : total (count k st) = S (total st).
Proof.
  unfold count. destruct (st !! k) as [n|] eqn:Hk; simpl.
  - rewrite <- (insert_delete_id st k n Hk) at 2. rewrite <- insert_delete_eq.
    rewrite !total_insert by apply lookup_delete_eq. done.
  - by rewrite total_insert.
Qed.

Lemma steps_total acc l acc' :
  steps acc l acc' →
  total (result acc') + length (failed_files (organizer acc'))
  = total (result acc) + length (failed_files (organizer acc)) + length l ∧
  (if dry_run (organizer acc)
   then moved_files (organizer acc') = moved_files (organizer acc)
   else total (result acc') + length (moved_files (organizer acc))
        = total (result acc) + length (moved_files (organizer acc'))).
Proof.
  induction 1 as [acc|acc f folder l acc' Hsteps IH|acc f ev l acc' Hev Hsteps IH].
  - split; [simpl; lia | by destruct (dry_run _)].
  - destruct IH as [IH1 IH2].
    destruct (relocate_settings acc f folder) as (_ & _ & Hdry & _).
    rewrite <- Hdry in IH2. destruct (dry_run (organizer acc)) eqn:Hd.
    + rewrite relocate_dry in IH1, IH2 by done. simpl in IH1, IH2.
      rewrite total_count in IH1. split; [simpl; lia | done].
    + unfold relocate in IH1, IH2. simpl in IH1, IH2.
      destruct (move_file_logs (organizer acc) (files acc) f folder Hd)
        as [(Hr & Hf & t & Hm)|(Hr & Hm & Hf & _)];
        rewrite Hr, Hm, Hf in *; rewrite ?total_count, ?length_app in *;
        simpl in *; split; lia.
  - destruct IH as [IH1 IH2]. simpl in IH1, IH2. rewrite length_app in IH1.
    split; [simpl in *; lia | done].
Qed.

(** X11.  The per-folder counts a method returns account for every
    listed file: added up, and with the failures the run recorded, they
    come to the number of files listed.  In a live run their sum is the
    number of paths added to the move log; in a dry run, which logs no
    move, every listed file whose metadata could be read is counted. *)
Theorem the_counts_add_up strftime s self fs recursive include_hidden :
  let run := organize strftime s self fs recursive include_hidden in
  match result run with
  | inr st =>
      total st + length (failed_files (organizer run))
      = length (failed_files self) + length (get_files self fs recursive include_hidden) ∧
      (if dry_run self
       then moved_files (organizer run) = moved_files self
       else total st + length (moved_files self) = length (moved_files (organizer run)))
  | inl _ => True
  end.
Proof.
  intros run. subst run. rewrite organize_is_loop.
  destruct (organize_loop_steps strftime s self fs
              (get_files self fs recursive include_hidden))
    as (pre & post & acc0 & acc' & Hl & Hsteps & Ho & _ & Hr0 & Ho' & _ & _ & _ & Hr).
  destruct (result (organize_loop _ _ _ _ _)) as [e|st]; [done|].
  destruct Hr as [-> ->]. rewrite app_nil_r in Hl. subst pre.
  destruct (steps_total _ _ _ Hsteps) as [H1 H2].
  rewrite Hr0, Ho, <- Ho' in H1, H2. unfold total at 2 in H1.
  rewrite map_fold_empty in H1. split; [lia|].
  destruct (dry_run self); [done|]. unfold total at 2 in H2.
  rewrite map_fold_empty in H2. lia.
Qed.

(** ** Running again *)

(** X12.  After a live move run over the files directly in the source
    directory that returned, recorded no failure and put no file directly
    into the source directory, that directory holds no file the same
    listing would find: a second run of the strategy lists nothing, moves
    nothing and changes nothing. *)
Theorem a_second_run_finds_nothing strftime s source target fs include_hidden st :
  let self := live_organizer source target false in
  let run := organize strftime s self fs false include_hidden in
  result run = inr st →
  failed_files (organizer run) = [] →
  Forall (fun t => Path.parent t ≠ source) (moved_files (organizer run)) →
  let again := organize strftime s (organizer run) (files run) false include_hidden in
  get_files (organizer run) (files run) false include_hidden = [] ∧
  files again = files run ∧
  moved_files (organizer again) = moved_files (organizer run) ∧
  failed_files (organizer again) = [].
Proof.
  intros self run Hres Hfail Hmoved again.
  assert (source_dir (organizer run) = source) as Hsrc.
  { subst run. rewrite organize_is_loop.
    by destruct (organize_loop_settings strftime s self fs
                   (get_files self fs false include_hidden)) as (<- & _). }
  assert (get_files (organizer run) (files run) false include_hidden = []) as Hnil.
  { apply elem_of_nil_inv. intros f Hf.
    apply get_files_elem in Hf as (Hdir & Hfile & Hin & Hvis). rewrite Hsrc in Hdir, Hin.
    unfold FS.is_file in Hfile.
    destruct (files run !! f) as [[stf data|]|] eqn:Hq; try done.
    destruct (organize_account strftime s self fs false include_hidden)
      as (ml & fl & Hm & Hfa & _ & Horigin & _).
    fold run in Hm, Hfa, Horigin. simpl in Hm, Hfa. subst ml.
    rewrite Hfail in Hfa. subst fl.
    destruct (Horigin f stf data Hq) as [Hlogged|[Hf0 Hor]].
    - rewrite Forall_forall in Hmoved. apply (Hmoved f Hlogged).
      destruct Hin as [nm ->]. apply parent_child.
    - destruct Hor as [?|[?|[Hnot|[?%elem_of_nil|[e He]]]]]; try done; [|congruence].
      apply Hnot. apply get_files_elem. simpl. split_and!; try done.
      + destruct (FS.is_dir fs source) eqn:Hd0; [done|]. exfalso.
        assert (files run = fs) as Hsame.
        { subst run. rewrite organize_is_loop.
          replace (get_files self fs false include_hidden) with (@nil path).
          - apply organize_loop_nil.
          - symmetry. apply elem_of_nil_inv. intros g Hg.
            apply get_files_elem in Hg as (Hd1 & _). simpl in Hd1. congruence. }
        rewrite Hsame in Hdir. congruence.
      + unfold FS.is_file. by rewrite Hf0. }
  split; [done|]. subst again. rewrite organize_is_loop, Hnil.
  destruct (organize_loop_nil strftime s (organizer run) (files run)) as [-> ->].
  done.
Qed.

Lemma tidy_run_facts :
  let run := organize year_of (ByType None) (live_organizer ["src"] ["out"] false)
                      tidy_fs false false in
  result run = inr {[ "Documents" := 2; "Images" := 1 ]} ∧
  failed_files (organizer run) = [] ∧
  Forall (fun t => Path.parent t ≠ ["src"]) (moved_files (organizer run)).
Proof. cbv zeta. split_and!; by_evaluation. Qed.

Lemma a_second_run_finds_nothing_witness :
  let self := live_organizer ["src"] ["out"] false in
  let run := organize year_of (ByType None) self tidy_fs false false in
  (result run = inr {[ "Documents" := 2; "Images" := 1 ]} ∧
   failed_files (organizer run) = [] ∧
   Forall (fun t => Path.parent t ≠ ["src"]) (moved_files (organizer run))) ∧
  let again := organize year_of (ByType None) (organizer run) (files run) false false in
  get_files (organizer run) (files run) false false = [] ∧
  files again = files run ∧
  moved_files (organizer again) = moved_files (organizer run) ∧
  failed_files (organizer again) = [].
Proof.
  cbv zeta. split; [exact tidy_run_facts|].
  destruct tidy_run_facts as (H1 & H2 & H3).
  exact (a_second_run_finds_nothing year_of (ByType None) ["src"] ["out"] tidy_fs false _
           H1 H2 H3).
Defined.

(** X13.  A file that already sits where the relocation would put it is
    not left alone in a live run: the target path exists, being the file
    itself, so the conflict loop numbers it.  In move mode the file is
    renamed to [stem_N suffix] in its own directory, in copy mode a copy
    of that name is put beside it; either way the numbered path is
    logged. *)
Theorem a_file_already_in_place_is_renamed self fs f folder st data fs1 :
  dry_run self = false →
  fs !! f = Some (File st data) →
  f = Path.child (Path.joinpath (target_dir self) folder) (Path.name f) →
  FS.mkdir fs (Path.joinpath (target_dir self) folder) = inr fs1 →
  let r := _move_file self fs f folder in
  ∃ k, 1 ≤ k ∧
    let renamed := Path.child (Path.joinpath (target_dir self) folder) (numbered f k) in
    renamed ≠ f ∧
    result r = true ∧
    moved_files (organizer r) = moved_files self ++ [renamed] ∧
    files r !! renamed = Some (File st data) ∧
    files r !! f = (if copy_files self then Some (File st data) else None).
Proof.
  intros Hd Hf Hplace Hmk r. subst r.
  rewrite (move_regular_file self fs f folder st data fs1) by done.
  set (tdir := Path.joinpath (target_dir self) folder) in *.
  pose proof Hmk as Hmk'. apply mkdir_spec in Hmk' as [Hg _].
  assert (fs1 !! f = Some (File st data)) as Hf1 by by eapply grows_by_dirs_Some.
  destruct (resolve_live fs1 tdir (Path.child tdir (Path.name f)))
    as [Hfree [Heq|(_ & k & Hk & Heq & _)]].
  - rewrite Heq, <- Hplace in Hfree. apply not_exists_lookup in Hfree. congruence.
  - rewrite Heq in *. rewrite <- Hplace in *. clear Heq.
    apply not_exists_lookup in Hfree.
    assert (Path.child tdir (numbered f k) ≠ f) as Hne by (intros Heq; congruence).
    exists k. split; [done|]. cbv zeta. simpl. split_and!; try done.
    + destruct (copy_files self); by rewrite lookup_insert_eq.
    + destruct (copy_files self).
      * by rewrite lookup_insert_ne.
      * rewrite lookup_insert_ne by done. apply lookup_delete_eq.
Qed.

Lemma a_file_already_in_place_is_renamed_witness :
  let self := live_organizer ["Source"] ["Target"] false in
  let f := ["Target"; "Images"; "photo.jpg"] in
  (dry_run self = false ∧
   taken_fs !! f = Some (File (Stat 10 0 0) "old") ∧
   f = Path.child (Path.joinpath (target_dir self) "Images") (Path.name f) ∧
   FS.mkdir taken_fs (Path.joinpath (target_dir self) "Images") = inr taken_fs) ∧
  ∃ k, 1 ≤ k ∧
    let renamed := Path.child (Path.joinpath (target_dir self) "Images") (numbered f k) in
    renamed ≠ f ∧
    result (_move_file self taken_fs f "Images") = true ∧
    moved_files (organizer (_move_file self taken_fs f "Images"))
      = moved_files self ++ [renamed] ∧
    files (_move_file self taken_fs f "Images") !! renamed
      = Some (File (Stat 10 0 0) "old") ∧
    files (_move_file self taken_fs f "Images") !! f
      = (if copy_files self then Some (File (Stat 10 0 0) "old") else None).
Proof.
  cbv zeta.
  assert (dry_run (live_organizer ["Source"] ["Target"] false) = false) as H1 by reflexivity.
  assert (taken_fs !! ["Target"; "Images"; "photo.jpg"] = Some (File (Stat 10 0 0) "old"))
    as H2 by by_evaluation.
  assert (["Target"; "Images"; "photo.jpg"]
          = Path.child (Path.joinpath (target_dir (live_organizer ["Source"] ["Target"] false))
                                      "Images")
                       (Path.name ["Target"; "Images"; "photo.jpg"])) as H3 by by_evaluation.
  assert (FS.mkdir taken_fs
            (Path.joinpath (target_dir (live_organizer ["Source"] ["Target"] false)) "Images")
          = inr taken_fs) as H4 by by_evaluation.
  split; [exact (conj H1 (conj H2 (conj H3 H4)))|].
  exact (a_file_already_in_place_is_renamed _ taken_fs _ "Images" _ _ taken_fs H1 H2 H3 H4).
Defined.

(** ** The undo script and the files it does not own *)

Lemma undo_body_regular source acc p st data :
  undo_files acc !! p = Some (File st data) →
  let r := resolve false (undo_files acc) source (Path.child source (Path.name p)) in
  undo_files acc !! r = None ∧
  undo_body source acc p =
  match undo_files acc !! Path.parent r with
  | Some Dir =>
      UndoState (<[r := File st data]> (delete p (undo_files acc)))
                (S (success_count acc)) (undo_output acc ++ [MovedBack (Path.name p)])
  | Some (File _ _) =>
      UndoState (undo_files acc) (success_count acc)
                (undo_output acc ++ [FailedToMoveBack p NotADirectoryError])
  | None =>
      UndoState (undo_files acc) (success_count acc)
                (undo_output acc ++ [FailedToMoveBack p FileNotFoundError])
  end.
Proof.
  intros Hlook r.
  assert (undo_files acc !! r = None) as Hfree
    by (apply not_exists_lookup; apply (resolve_live (undo_files acc) source)).
  split; [done|]. unfold undo_body. unfold FS.exists_ at 1. rewrite Hlook, undo_resolve.
  fold r. rewrite (move_file_to_free _ _ _ st data) by done.
  by destruct (undo_files acc !! Path.parent r) as [[]|].
Qed.

Lemma undo_body_keeps source acc p :
  undo_files acc !! p ≠ Some Dir →
  let acc' := undo_body source acc p in
  file_count (undo_files acc') = file_count (undo_files acc) ∧
  (∀ q n, undo_files acc !! q = Some n → q ≠ p → undo_files acc' !! q = Some n) ∧
  (∀ q, undo_files acc' !! q = Some Dir ↔ undo_files acc !! q = Some Dir) ∧
  success_count acc' ≤ S (success_count acc).
Proof.
  intros Hp acc'. subst acc'.
  destruct (undo_files acc !! p) as [[st data|]|] eqn:Hlook; [|done|].
  - destruct (undo_body_regular source acc p st data Hlook) as [Hfree ->].
    set (r := resolve false _ _ _) in *.
    destruct (undo_files acc !! Path.parent r) as [[]|]; simpl;
      [split_and!; [done|by eauto|done|lia]| |split_and!; [done|by eauto|done|lia]].
    assert (r ≠ p) as Hrp by (intros Heq; congruence).
    split_and!.
    + rewrite file_count_insert by (apply lookup_delete_None; by right).
      by apply (file_count_delete _ _ st data).
    + intros q n Hq Hqp. rewrite lookup_insert_ne, lookup_delete_ne; [done..|].
      intros Heq. congruence.
    + intros q. destruct (decide (q = r)) as [->|Hqr].
      { rewrite lookup_insert_eq, Hfree. split; intros; simplify_eq. }
      rewrite lookup_insert_ne by done. destruct (decide (q = p)) as [->|Hqp].
      { rewrite lookup_delete_eq, Hlook. split; intros; simplify_eq. }
      by rewrite lookup_delete_ne.
    + lia.
  - rewrite undo_body_missing by done. simpl. split_and!; [done|by eauto|done|lia].
Qed.

Lemma undo_fold_keeps source log acc :
  Forall (fun p => undo_files acc !! p ≠ Some Dir) log →
  let u := foldl (undo_body source) acc log in
  file_count (undo_files u) = file_count (undo_files acc) ∧
  (∀ q n, undo_files acc !! q = Some n → q ∉ log → undo_files u !! q = Some n) ∧
  (∀ q, undo_files u !! q = Some Dir ↔ undo_files acc !! q = Some Dir) ∧
  success_count u ≤ success_count acc + length log.
Proof.
  revert acc. induction log as [|p log IH]; intros acc Hlog; simpl.
  - split_and!; [done|done|done|lia].
  - apply Forall_cons in Hlog as [Hp Hlog].
    destruct (undo_body_keeps source acc p Hp) as (Hc & Hframe & Hdirs & Hn).
    destruct (IH (undo_body source acc p)) as (Hc' & Hframe' & Hdirs' & Hn').
    { eapply Forall_impl; [exact Hlog|]. intros q Hq. simpl in Hq. by rewrite Hdirs. }
    split_and!.
    + by rewrite Hc'.
    + intros q n Hq Hnot. apply Hframe'.
      * apply Hframe; [done|]. intros ->. apply Hnot. by left.
      * intros ?. apply Hnot. by right.
    + intros q. by rewrite Hdirs'.
    + lia.
Qed.

(** X14.  The undo script never deletes or overwrites a file either.
    Provided no logged path has become a directory, running the script
    leaves the number of regular files as it was, touches nothing that is
    not in its log, creates and removes no directory, and reports at most
    as many files moved back as its log has entries. *)
Theorem the_undo_script_never_deletes_or_overwrites source log fs :
  Forall (fun p => fs !! p ≠ Some Dir) log →
  let u := undo_organization (UndoScript log source) fs in
  file_count (undo_files u) = file_count fs ∧
  (∀ q n, fs !! q = Some n → q ∉ log → undo_files u !! q = Some n) ∧
  (∀ q, undo_files u !! q = Some Dir ↔ fs !! q = Some Dir) ∧
  success_count u ≤ length log.
Proof.
  intros Hlog u. subst u. unfold undo_organization. simpl.
  apply (undo_fold_keeps source log (UndoState fs 0 [])). exact Hlog.
Qed.

Lemma the_undo_script_never_deletes_or_overwrites_witness :
  let log := [["Target"; "Images"; "photo.jpg"]; ["Target"; "Images"; "gone.jpg"]] in
  let u := undo_organization (UndoScript log ["Source"]) taken_fs in
  Forall (fun p => taken_fs !! p ≠ Some Dir) log ∧
  file_count (undo_files u) = file_count taken_fs ∧
  (∀ q n, taken_fs !! q = Some n → q ∉ log → undo_files u !! q = Some n) ∧
  (∀ q, undo_files u !! q = Some Dir ↔ taken_fs !! q = Some Dir) ∧
  success_count u ≤ length log.
Proof.
  cbv zeta.
  assert (Forall (fun p => taken_fs !! p ≠ Some Dir)
            [["Target"; "Images"; "photo.jpg"]; ["Target"; "Images"; "gone.jpg"]]) as H.
  { repeat constructor; by vm_compute. }
  split; [exact H|].
  exact (the_undo_script_never_deletes_or_overwrites ["Source"] _ taken_fs H).
Defined.

(** ** The command line *)

Lemma show_results_dry script_file cwd a (run : outcome (exn + stats)) :
  Args.execute a = false →
  disk (show_results script_file cwd a run) = files run ∧
  script_written (show_results script_file cwd a run) = None ∧
  sample_written (show_results script_file cwd a run) = None.
Proof. intros H. unfold show_results. rewrite H. by destruct (result run). Qed.

Lemma show_results_raised script_file cwd a (run : outcome (exn + stats)) e :
  result run = inl e →
  show_results script_file cwd a run =
  Finished 1 (files run) ((Said <$> output run) ++ [Error e]) None None.
Proof. intros H. unfold show_results. by rewrite H. Qed.

(** [main] ends with status 1 when the method raised, or when
    [create_undo_script] was called and raised; with status 0 otherwise. *)
Lemma show_results_status script_file cwd a (run : outcome (exn + stats)) :
  let made :=
    create_undo_script script_file cwd (organizer run) (files run) "undo_organization.py" in
  status (show_results script_file cwd a run) ≤ 1 ∧
  (status (show_results script_file cwd a run) = 1 ↔
   (∃ e, result run = inl e) ∨
   (Args.execute a = true ∧ Args.create_undo a = true ∧ ∃ e, result made = inl e)).
Proof.
  intros made. unfold show_results. fold made.
  destruct (result run) as [e|st]; simpl.
  { split; [lia|]. split; [by eauto | done]. }
  destruct (Args.execute a); simpl.
  2: { split; [lia|]. split; [done|]. by intros [[? ?]|(? & _)]. }
  destruct (Args.create_undo a); simpl.
  2: { split; [lia|]. split; [done|]. by intros [[? ?]|(_ & ? & _)]. }
  destruct (result made) as [e|script]; simpl.
  - split; [lia|]. split; [|done]. intros _. right. by eauto.
  - split; [lia|]. split; [done|]. by intros [[? ?]|(_ & _ & ? & ?)].
Qed.

Lemma show_results_script script_file cwd a (run : outcome (exn + stats)) script :
  let made :=
    create_undo_script script_file cwd (organizer run) (files run) "undo_organization.py" in
  script_written (show_results script_file cwd a run) = Some script →
  Args.execute a = true ∧ Args.create_undo a = true ∧
  status (show_results script_file cwd a run) = 0 ∧
  (∃ st, result run = inr st) ∧
  result made = inr (Some script) ∧
  disk (show_results script_file cwd a run) = files made.
Proof.
  intros made. unfold show_results. fold made.
  destruct (result run) as [e|st]; [done|].
  destruct (Args.execute a); [|done]. destruct (Args.create_undo a); [|done]. simpl.
  destruct (result made) as [e|[script'|]]; simpl; try done.
  intros [= <-]. split_and!; try done. by exists st.
Qed.

Lemma init_spec fs source target dry copied :
  __init__ fs source target dry copied =
  if FS.exists_ fs source then inr (Organizer source (default source target) dry copied [] [])
  else inl FileNotFoundError.
Proof. unfold __init__. simpl. by destruct (FS.exists_ fs source). Qed.

Lemma organize_dry strftime s self fs recursive include_hidden :
  dry_run self = true → files (organize strftime s self fs recursive include_hidden) = fs.
Proof. intros H. rewrite organize_is_loop. by apply organize_loop_dry. Qed.

Lemma organize_returns strftime s self fs recursive include_hidden :
  (∀ loaded, s ≠ ByCustomRules loaded) →
  ∃ st, result (organize strftime s self fs recursive include_hidden) = inr st.
Proof. intros H. destruct s; simpl; try by eexists. by destruct (H loaded). Qed.

(** The name-pattern loop on a JSON value proceeds like the others until
    it finishes or a file's folder cannot be worked out. *)
Lemma by_name_json_steps patterns l acc :
  let r := organize_by_name_pattern_json_loop patterns l acc in
  ∃ pre post acc',
    l = pre ++ post ∧ steps acc pre acc' ∧
    organizer r = organizer acc' ∧ files r = files acc' ∧ output r = output acc' ∧
    match result r with
    | inr st => post = [] ∧ st = result acc'
    | inl e => ∃ f post', post = f :: post' ∧ json_target_folder patterns f = inl e
    end.
Proof.
  revert acc. induction l as [|f l IH]; intros acc; simpl.
  - exists [], [], acc. split_and!; [done|constructor|done..].
  - destruct (json_target_folder patterns f) as [e|folder] eqn:Hf.
    + exists [], (f :: l), acc. split_and!; [done|constructor|..]; simpl; eauto.
    + destruct (IH (relocate acc f folder))
        as (pre & post & acc' & -> & Hsteps & ? & ? & ? & ?).
      exists (f :: pre), post, acc'. split_and!; try done.
      eapply steps_relocate. apply Hsteps.
Qed.

Lemma by_name_json_settings self fs patterns recursive include_hidden :
  same_settings self
    (organizer (organize_by_name_pattern_json self fs patterns recursive include_hidden)).
Proof.
  unfold organize_by_name_pattern_json.
  destruct (by_name_json_steps patterns (get_files self fs recursive include_hidden)
              (start self fs (length (get_files self fs recursive include_hidden))
                     "name patterns"))
    as (pre & post & acc' & _ & Hsteps & -> & _).
  by apply steps_settings in Hsteps.
Qed.

Lemma by_name_json_dry self fs patterns recursive include_hidden :
  dry_run self = true →
  files (organize_by_name_pattern_json self fs patterns recursive include_hidden) = fs.
Proof.
  intros Hd. unfold organize_by_name_pattern_json.
  destruct (by_name_json_steps patterns (get_files self fs recursive include_hidden)
              (start self fs (length (get_files self fs recursive include_hidden))
                     "name patterns"))
    as (pre & post & acc' & _ & Hsteps & _ & -> & _).
  by apply steps_dry in Hsteps as [-> _].
Qed.

(** The method raises exactly when the folder of one of the listed files
    cannot be worked out. *)
Lemma by_name_json_raises patterns l acc :
  (∃ e, result (organize_by_name_pattern_json_loop patterns l acc) = inl e) ↔
  ∃ f e, f ∈ l ∧ json_target_folder patterns f = inl e.
Proof.
  revert acc. induction l as [|f l IH]; intros acc; simpl.
  - split; [by intros [? ?] | by intros (? & ? & ?%elem_of_nil & _)].
  - destruct (json_target_folder patterns f) as [e|folder] eqn:Hf; simpl.
    + split; [|by eauto]. intros _. exists f, e. split; [by left | done].
    + rewrite IH. split.
      * intros (f' & e & Hin & He). exists f', e. split; [by right | done].
      * intros (f' & e & [->|Hin]%elem_of_cons & He); [congruence|by eauto].
Qed.

(** A value that is no object has no [items]: the method raises at the
    first file, and returns when there is none. *)
Lemma by_name_json_no_object patterns l acc :
  (∀ members, patterns ≠ JObject members) →
  organize_by_name_pattern_json_loop patterns l acc =
  match l with
  | [] => Outcome (inr (result acc)) (organizer acc) (files acc) (output acc)
  | _ :: _ =>
      Outcome (inl (OtherError "AttributeError")) (organizer acc) (files acc) (output acc)
  end.
Proof.
  intros H. destruct l as [|f l]; [done|]. simpl. unfold json_target_folder.
  destruct patterns; try done. by destruct (H members).
Qed.

(** On an object whose values are strings the method is the one the
    strategies are stated for. *)
Lemma json_pattern_folder_strings members patterns filename :
  strings members = Some patterns →
  json_pattern_folder members filename = inr (pattern_folder patterns filename).
Proof.
  revert patterns. induction members as [|[folder_name v] rest IH]; intros patterns H.
  - injection H as <-. done.
  - destruct v; try done. simpl in H.
    destruct (strings rest) as [l|]; [|done]. injection H as <-. simpl.
    destruct (Str.contains _ _); [done|]. by apply IH.
Qed.

Lemma by_name_json_loop_strings members patterns l acc :
  strings members = Some patterns →
  organize_by_name_pattern_json_loop (JObject members) l acc =
  returned (foldl (by_name_pattern_body patterns) acc l).
Proof.
  intros H. revert acc. induction l as [|f l IH]; intros acc; simpl; [done|].
  unfold json_target_folder. simpl.
  rewrite (json_pattern_folder_strings members patterns) by done. by rewrite IH.
Qed.

Lemma by_name_json_strings strftime self fs members patterns recursive include_hidden :
  strings members = Some patterns →
  organize_by_name_pattern_json self fs (JObject members) recursive include_hidden =
  organize strftime (ByName patterns) self fs recursive include_hidden.
Proof. intros H. by apply by_name_json_loop_strings. Qed.

(** X15.  Without [--execute], [main] changes nothing on disk and writes
    no undo script, whichever method and options are given, [--create-undo]
    included; the one file it can write is the sample rule document, and
    only when [--create-sample-rules] asks for it. *)
Theorem main_without_execute_changes_nothing
    (strftime : string → Z → exn + string)
    (json_loads : string → exn + json)
    (load_rules : filesystem → string → exn + rules)
    (script_file : list path → path → stat_result * (exn + string)) (cwd : path) a fs :
  Args.execute a = false →
  let m := main strftime json_loads load_rules script_file cwd a fs in
  disk m = fs ∧ script_written m = None ∧
  sample_written m =
    (if truthy (Args.create_sample_rules a)
     then Some (default "" (Args.create_sample_rules a), sample_rules) else None).
Proof.
  intros Hx m. subst m. unfold main.
  destruct (truthy (Args.create_sample_rules a)); [done|].
  rewrite init_spec, Hx. destruct (FS.exists_ fs _); [|done]. cbv zeta.
  set (self := Organizer _ _ _ _ _ _).
  assert (∀ run, files run = fs →
                 let r := show_results script_file cwd a run in
                 disk r = fs ∧ script_written r = None ∧ sample_written r = None) as Hrun.
  { intros run Hfs r. subst r.
    by destruct (show_results_dry script_file cwd a run Hx) as (-> & -> & ->). }
  destruct (Args.by_type a); [by apply Hrun, organize_dry|].
  destruct (Args.by_date a); [by apply Hrun, organize_dry|].
  destruct (Args.by_size a); [by apply Hrun, organize_dry|].
  destruct (truthy (Args.by_name a)).
  { destruct (json_loads _); [done | by apply Hrun, by_name_json_dry]. }
  destruct (truthy (Args.custom_rules a)); [by apply Hrun, organize_dry | done].
Qed.

Lemma main_without_execute_changes_nothing_witness :
  let a := Args.Make "src" None true false false None None "%Y-%m" false false false
                     false false true None in
  let m := main year_of (fun _ => inr (JObject [])) (fun _ _ => inr sample_rules)
                short_script [] a tidy_fs in
  Args.execute a = false ∧
  disk m = tidy_fs ∧ script_written m = None ∧
  sample_written m =
    (if truthy (Args.create_sample_rules a)
     then Some (default "" (Args.create_sample_rules a), sample_rules) else None).
Proof.
  cbv zeta. split; [reflexivity|].
  apply (main_without_execute_changes_nothing year_of (fun _ => inr (JObject []))
           (fun _ _ => inr sample_rules) short_script []
           (Args.Make "src" None true false false None None "%Y-%m" false false false
                      false false true None) tidy_fs).
  reflexivity.
Defined.

(** X16.  The exit status of [main], [--create-sample-rules] set aside.
    A missing source directory ends it with status 1 before any method is
    looked at, and with no method chosen it prints its notice and returns
    with status 0, nothing touched.  A run by type, by date or by size
    always returns, however many files failed, and [main] then ends with
    status 0 unless it goes on to write the undo script and the write
    raises.  A run by name pattern ends with status 1 when its argument
    does not parse, and also when the argument parses but the folder of a
    listed file cannot be worked out from it: a value that is no object
    has no items, so with it [main] fails as soon as one file is listed,
    before anything is moved, and returns with status 0 when none is; a
    value inside an object that is no string fails the run when a file
    reaches it.  On an object of strings the run is the name-pattern
    method and returns.  The status is never above 1. *)
Theorem the_exit_status_of_main
    (strftime : string → Z → exn + string)
    (json_loads : string → exn + json)
    (load_rules : filesystem → string → exn + rules)
    (script_file : list path → path → stat_result * (exn + string)) (cwd : path) a fs :
  let m := main strftime json_loads load_rules script_file cwd a fs in
  let source := path_of cwd (Args.source_dir a) in
  let self :=
    Organizer source
              (if truthy (Args.target_dir a)
               then path_of cwd (default "" (Args.target_dir a)) else source)
              (negb (Args.execute a)) (Args.copy a) [] [] in
  let listing := get_files self fs (Args.recursive a) (Args.include_hidden a) in
  let script_fails (run : outcome (exn + stats)) :=
    Args.execute a = true ∧ Args.create_undo a = true ∧
    ∃ e, result (create_undo_script script_file cwd (organizer run) (files run)
                                    "undo_organization.py") = inl e in
  status m ≤ 1 ∧
  (truthy (Args.create_sample_rules a) = false → FS.exists_ fs source = false →
   m = Finished 1 fs [Error FileNotFoundError] None None) ∧
  (truthy (Args.create_sample_rules a) = false → FS.exists_ fs source = true →
   Args.by_type a || Args.by_date a || Args.by_size a = true →
   let s := if Args.by_type a then ByType None
            else if Args.by_date a
                 then ByDate (Args.date_format a) (Args.use_creation_date a)
                 else BySize None in
   let run := organize strftime s self fs (Args.recursive a) (Args.include_hidden a) in
   (∃ st, result run = inr st) ∧
   (status m = 1 ↔ script_fails run) ∧
   (Args.execute a && Args.create_undo a = false → status m = 0)) ∧
  (truthy (Args.create_sample_rules a) = false → FS.exists_ fs source = true →
   Args.by_type a || Args.by_date a || Args.by_size a = false →
   truthy (Args.by_name a) = true →
   match json_loads (default "" (Args.by_name a)) with
   | inl e => m = Finished 1 fs [Error e] None None
   | inr patterns =>
       let run :=
         organize_by_name_pattern_json self fs patterns
                                       (Args.recursive a) (Args.include_hidden a) in
       (status m = 1 ↔
        (∃ f e, f ∈ listing ∧ json_target_folder patterns f = inl e) ∨ script_fails run) ∧
       ((∀ members, patterns ≠ JObject members) →
        (listing = [] → status m = 0 ∧ disk m = fs) ∧
        (listing ≠ [] →
         m = Finished 1 fs [Said (Organizing (length listing) "name patterns");
                            Error (OtherError "AttributeError")] None None)) ∧
       (∀ members l, patterns = JObject members → strings members = Some l →
          run = organize strftime (ByName l) self fs
                         (Args.recursive a) (Args.include_hidden a) ∧
          (status m = 1 ↔ script_fails run))
   end) ∧
  (truthy (Args.create_sample_rules a) = false → FS.exists_ fs source = true →
   Args.by_type a || Args.by_date a || Args.by_size a = false →
   truthy (Args.by_name a) = false → truthy (Args.custom_rules a) = false →
   m = Finished 0 fs [NoMethodSpecified] None None).
Proof.
  intros m source self listing script_fails.
  assert (∀ run, status (show_results script_file cwd a run) ≤ 1) as Hle
    by (intros run; apply show_results_status).
  assert (∀ run, (∃ st, result run = inr st) →
                 (status (show_results script_file cwd a run) = 1 ↔ script_fails run) ∧
                 (Args.execute a && Args.create_undo a = false →
                  status (show_results script_file cwd a run) = 0)) as Hok.
  { intros run [st Hst].
    destruct (show_results_status script_file cwd a run) as [Hle1 Hiff].
    assert (status (show_results script_file cwd a run) = 1 ↔ script_fails run) as Hiff'.
    { rewrite Hiff. split; [|by right]. intros [[e He]|?]; [congruence|done]. }
    split; [done|]. intros Hflags.
    assert (¬ script_fails run) as Hno.
    { intros (Hx & Hu & _). by rewrite Hx, Hu in Hflags. }
    rewrite <- Hiff' in Hno. specialize (Hle run). lia. }
  subst m. unfold main. rewrite init_spec. fold source.
  destruct (truthy (Args.create_sample_rules a)).
  { split_and!; try done; simpl; lia. }
  destruct (FS.exists_ fs source).
  2: { split_and!; try done; simpl; lia. }
  cbv zeta.
  replace (Organizer source _ _ _ _ _) with self
    by (unfold self; by destruct (truthy (Args.target_dir a))).
  assert (∀ s, (∀ loaded, s ≠ ByCustomRules loaded) →
            let run := organize strftime s self fs (Args.recursive a)
                                (Args.include_hidden a) in
            (∃ st, result run = inr st) ∧
            (status (show_results script_file cwd a run) = 1 ↔ script_fails run) ∧
            (Args.execute a && Args.create_undo a = false →
             status (show_results script_file cwd a run) = 0)) as Htyped.
  { intros s Hs run. destruct (Hok run) as [? ?]; [by apply organize_returns|].
    split_and!; try done. by apply organize_returns. }
  destruct (Args.by_type a).
  { split_and!; try done; try apply Hle. intros _ _ _. by apply Htyped. }
  destruct (Args.by_date a).
  { split_and!; try done; try apply Hle. intros _ _ _. by apply Htyped. }
  destruct (Args.by_size a).
  { split_and!; try done; try apply Hle. intros _ _ _. by apply Htyped. }
  destruct (truthy (Args.by_name a)).
  - destruct (json_loads _) as [e|patterns] eqn:Hj.
    { split_and!; try done; simpl; lia. }
    split_and!; try done; try apply Hle. intros _ _ _ _.
    set (run := organize_by_name_pattern_json self fs patterns (Args.recursive a)
                                              (Args.include_hidden a)).
    assert ((∃ e, result run = inl e) ↔
            ∃ f e, f ∈ listing ∧ json_target_folder patterns f = inl e) as Hraise
      by apply by_name_json_raises.
    split_and!.
    + destruct (show_results_status script_file cwd a run) as [_ ->]. by rewrite Hraise.
    + intros Hno. unfold run, organize_by_name_pattern_json. fold listing.
      rewrite (by_name_json_no_object patterns listing _ Hno). split.
      * intros ->. simpl. unfold show_results. simpl.
        destruct (Args.execute a); simpl; [|done]. by destruct (Args.create_undo a).
      * intros Hne. destruct listing as [|f l] eqn:Hl; [done|].
        by rewrite (show_results_raised _ _ _ _ (OtherError "AttributeError")).
    + intros members l -> Hl.
      assert (run = organize strftime (ByName l) self fs (Args.recursive a)
                             (Args.include_hidden a)) as Hrun
        by (by apply by_name_json_strings).
      split; [done|]. apply Hok. rewrite Hrun. by apply organize_returns.
  - destruct (truthy (Args.custom_rules a)).
    + split_and!; try done; apply Hle.
    + split_and!; try done; simpl; lia.
Qed.

(** What [main] comes to once the sample document is not asked for and
    the source exists: the results of the one method it ran, or nothing
    written. *)
Lemma main_runs (strftime : string → Z → exn + string)
    (json_loads : string → exn + json)
    (load_rules : filesystem → string → exn + rules)
    (script_file : list path → path → stat_result * (exn + string)) (cwd : path) a fs :
  let m := main strftime json_loads load_rules script_file cwd a fs in
  let self :=
    Organizer (path_of cwd (Args.source_dir a))
              (if truthy (Args.target_dir a)
               then path_of cwd (default "" (Args.target_dir a))
               else path_of cwd (Args.source_dir a))
              (negb (Args.execute a)) (Args.copy a) [] [] in
  script_written m = None ∨
  (truthy (Args.create_sample_rules a) = false ∧
   ∃ run, m = show_results script_file cwd a run ∧
          ((∃ s, run = organize strftime s self fs
                            (Args.recursive a) (Args.include_hidden a)) ∨
           (∃ patterns,
              json_loads (default "" (Args.by_name a)) = inr patterns ∧
              run = organize_by_name_pattern_json self fs patterns
                      (Args.recursive a) (Args.include_hidden a)))).
Proof.
  intros m self. subst m. unfold main. rewrite init_spec.
  destruct (truthy (Args.create_sample_rules a)); [by left|].
  destruct (FS.exists_ fs _); [|by left]. cbv zeta.
  replace (Organizer _ _ _ _ _ _) with self
    by (unfold self; by destruct (truthy (Args.target_dir a))).
  destruct (Args.by_type a); [right; split; [done|]; eexists; split; [done|]; by eauto|].
  destruct (Args.by_date a); [right; split; [done|]; eexists; split; [done|]; by eauto|].
  destruct (Args.by_size a); [right; split; [done|]; eexists; split; [done|]; by eauto|].
  destruct (truthy (Args.by_name a)).
  { destruct (json_loads _) as [e|patterns]; [by left|].
    right. split; [done|]. eexists. split; [done|]. right. by eauto. }
  destruct (truthy (Args.custom_rules a)); [|by left].
  right. split; [done|]. eexists. split; [done|]. by eauto.
Qed.

(** X17.  [main] writes an undo script only when both [--execute] and
    [--create-undo] are given and the method it ran returned with at least
    one path in its move log; it then returns with status 0.  The script
    holds exactly the move log of that run, and the source directory as it
    was given, between double quotes: when that is written in plain
    characters, running the script reads it back unchanged.  The script is
    written as [undo_organization.py] into the working directory and is
    the one change [main] makes to the file system the run left.  A run
    that moved nothing writes no script. *)
Theorem main_writes_the_undo_script_of_its_run
    (strftime : string → Z → exn + string)
    (json_loads : string → exn + json)
    (load_rules : filesystem → string → exn + rules)
    (script_file : list path → path → stat_result * (exn + string)) (cwd : path) a fs :
  let m := main strftime json_loads load_rules script_file cwd a fs in
  let source := path_of cwd (Args.source_dir a) in
  let self :=
    Organizer source
              (if truthy (Args.target_dir a)
               then path_of cwd (default "" (Args.target_dir a)) else source)
              false (Args.copy a) [] [] in
  match script_written m with
  | Some script =>
      Args.execute a = true ∧ Args.create_undo a = true ∧
      truthy (Args.create_sample_rules a) = false ∧
      status m = 0 ∧
      script_source_dir script = source ∧
      script_moved_files script ≠ [] ∧
      (∃ run st,
         ((∃ s, run = organize strftime s self fs
                           (Args.recursive a) (Args.include_hidden a)) ∨
          (∃ patterns,
             json_loads (default "" (Args.by_name a)) = inr patterns ∧
             run = organize_by_name_pattern_json self fs patterns
                     (Args.recursive a) (Args.include_hidden a))) ∧
         result run = inr st ∧
         script_moved_files script = moved_files (organizer run) ∧
         ∃ st' text,
           script_file (moved_files (organizer run)) source = (st', inr text) ∧
           disk m = <[Path.child cwd "undo_organization.py" := File st' text]> (files run) ∧
           files run !! Path.child cwd "undo_organization.py" ≠ Some Dir) ∧
      (∀ source_literal,
         plain_path source = true →
         run_script source_literal script (disk m)
         = inr (undo_organization script (disk m)))
  | None => True
  end.
Proof.
  intros m source self.
  destruct (main_runs strftime json_loads load_rules script_file cwd a fs)
    as [Hnone|(Hsample & run & Hm & Hrun)]; fold m in Hnone || fold m in Hm.
  { by rewrite Hnone. }
  destruct (script_written m) as [script|] eqn:Hscript; [|done].
  rewrite Hm in Hscript |- *.
  apply show_results_script in Hscript as (Hx & Hu & Hst & [st Hres] & Hmade & Hdisk).
  rewrite Hx in *. simpl in Hrun. fold source self in Hrun.
  destruct (create_undo_script_written script_file cwd (organizer run) (files run)
              "undo_organization.py" script Hmade)
    as (-> & Hne & _ & _ & st' & text & Hfile & Hfiles & Hdir).
  rewrite script_path in Hfiles, Hdir. rewrite <- Hdisk in Hfiles.
  assert (source_dir (organizer run) = source) as Hsrc.
  { destruct Hrun as [[s ->]|(patterns & _ & ->)].
    - rewrite organize_is_loop.
      by destruct (organize_loop_settings strftime s self fs
                     (get_files self fs (Args.recursive a) (Args.include_hidden a)))
        as (<- & _).
    - by destruct (by_name_json_settings self fs patterns (Args.recursive a)
                     (Args.include_hidden a)) as (<- & _). }
  rewrite Hsrc in *. simpl.
  split_and!; try done.
  - exists run, st. split_and!; try done. by exists st', text.
  - intros source_literal Hplain. by apply run_script_plain.
Qed.

(** ** The move log as a record of the run *)

(** X18.  The move log is a faithful record of a run: the paths a run
    adds to it are pairwise distinct, and each of them holds, when the run
    is over, the contents of one of the listed files, at a path that was
    free before the run or that an earlier move of the same run had
    vacated.  A dry run adds nothing. *)
Theorem the_move_log_is_faithful strftime s self fs recursive include_hidden :
  let run := organize strftime s self fs recursive include_hidden in
  ∃ added,
    moved_files (organizer run) = moved_files self ++ added ∧
    NoDup added ∧
    (dry_run self = true → added = []) ∧
    ∀ r, r ∈ added →
      (∃ f st data, f ∈ get_files self fs recursive include_hidden ∧
                    fs !! f = Some (File st data) ∧
                    files run !! r = Some (File st data)) ∧
      (fs !! r = None ∨
       (copy_files self = false ∧ r ∈ get_files self fs recursive include_hidden)).
Proof.
  intros run. subst run. rewrite organize_is_loop.
  destruct (organize_loop_steps strftime s self fs
              (get_files self fs recursive include_hidden))
    as (pre & post & acc0 & acc' & Hl & Hsteps & Ho & Hf & _ & Ho' & Hf' & _).
  rewrite Ho', Hf'. destruct (dry_run self) eqn:Hd.
  - rewrite <- Ho in Hd. destruct (steps_dry _ _ _ Hsteps Hd) as [_ Hm].
    exists []. rewrite app_nil_r, Hm, Ho.
    split_and!; [done|constructor|done|by intros ? ?%elem_of_nil].
  - rewrite <- Ho in Hd.
    destruct (get_files_spec self fs recursive include_hidden) as [Hnd Hreg].
    rewrite Hl in Hnd. apply NoDup_app in Hnd as (Hnd & _ & _).
    assert (∀ f, f ∈ pre → f ∈ get_files self fs recursive include_hidden) as Hpre
      by (intros f Hin; rewrite Hl; apply elem_of_app; by left).
    destruct (steps_ledger _ _ _ Hsteps Hd Hnd)
      as (ledger & Hm & _ & He & _ & _ & Hnd' & Hfresh).
    { intros f Hin. rewrite Hf. apply Hreg, Hpre, Hin. }
    rewrite Ho, Hf in *. exists (ledger.*2). split_and!; [done|done|done|].
    intros r Hr. split.
    + apply list_elem_of_fmap in Hr as ([[f folder] r'] & -> & Hin).
      destruct (He f folder r' Hin) as [Hfl Heq].
      destruct (Hreg f (Hpre f Hfl)) as [(st & data & Hfile) _].
      exists f, st, data. cbn [snd]. split_and!; [by apply Hpre|done|by rewrite Heq].
    + destruct (Hfresh r Hr) as [?|[? ?]]; [by left|]. right. split; [done|by apply Hpre].
Qed.

(** ** What a dry run reports *)

Lemma count_lookup k k' (st : stats) :
  default 0 (count k' st !! k) = default 0 (st !! k) + (if decide (k' = k) then 1 else 0).
Proof.
  unfold count. destruct (decide (k' = k)) as [->|Hne].
  - rewrite lookup_insert_eq. simpl. lia.
  - rewrite lookup_insert_ne by done. lia.
Qed.

Section DryReport.
Variable folder_of : path → string.
Variable body : outcome stats → path → outcome stats.
Hypothesis body_relocates : ∀ acc f, body acc f = relocate acc f (folder_of f).

Lemma dry_fold_report l acc :
  dry_run (organizer acc) = true →
  let r := foldl body acc l in
  output r = output acc ++
    ((fun f => WouldMove f (Path.child (Path.joinpath (target_dir (organizer acc))
                                                      (folder_of f)) (Path.name f))) <$> l) ∧
  (∀ k, default 0 (result r !! k)
        = default 0 (result acc !! k) + length (filter (fun f => folder_of f = k) l)).
Proof.
  revert acc. induction l as [|f l IH]; intros acc Hd; simpl.
  - split; [by rewrite app_nil_r | intros; lia].
  - rewrite body_relocates, relocate_dry by done.
    match goal with |- context [foldl body ?a l] => destruct (IH a Hd) as [Hout Hres] end.
    simpl in Hout, Hres. split.
    + by rewrite Hout, <- app_assoc.
    + intros k. rewrite Hres, count_lookup, filter_cons.
      destruct (decide (folder_of f = k)); simpl; lia.
Qed.
End DryReport.

(** X19.  A dry run by type or by name pattern reports every listed file
    once, in listing order, with the path directly under the folder its
    classification gives, and counts it under that folder: the count
    returned for a folder is the number of listed files classified to
    it. *)
Theorem a_dry_run_reports_every_file self fs recursive include_hidden :
  dry_run self = true →
  let l := get_files self fs recursive include_hidden in
  (∀ categories,
     let folder_of f :=
       type_folder (default DEFAULT_CATEGORIES categories) (Str.lower (Path.suffix f)) in
     let run := organize_by_type self fs categories recursive include_hidden in
     output run =
       Organizing (length l) "type" ::
       ((fun f => WouldMove f (Path.child (Path.joinpath (target_dir self) (folder_of f))
                                          (Path.name f))) <$> l) ∧
     ∀ k, default 0 (result run !! k) = length (filter (fun f => folder_of f = k) l)) ∧
  (∀ patterns,
     let folder_of f := pattern_folder patterns (Str.lower (Path.name f)) in
     let run := organize_by_name_pattern self fs patterns recursive include_hidden in
     output run =
       Organizing (length l) "name patterns" ::
       ((fun f => WouldMove f (Path.child (Path.joinpath (target_dir self) (folder_of f))
                                          (Path.name f))) <$> l) ∧
     ∀ k, default 0 (result run !! k) = length (filter (fun f => folder_of f = k) l)).
Proof.
  intros Hd l. split.
  - intros categories folder_of run. subst run.
    unfold organize_by_type, organize_by_type_loop. fold l.
    destruct (dry_fold_report folder_of
                (by_type_body (default DEFAULT_CATEGORIES categories))
                ltac:(done) l (start self fs (length l) "type") Hd) as [Hout Hres].
    split; [exact Hout|]. intros k. rewrite Hres. simpl. by rewrite lookup_empty.
  - intros patterns folder_of run. subst run.
    unfold organize_by_name_pattern, organize_by_name_pattern_loop. fold l.
    destruct (dry_fold_report folder_of (by_name_pattern_body patterns)
                ltac:(done) l (start self fs (length l) "name patterns") Hd) as [Hout Hres].
    split; [exact Hout|]. intros k. rewrite Hres. simpl. by rewrite lookup_empty.
Qed.

Lemma a_dry_run_reports_every_file_witness :
  let self := dry_organizer ["src"] in
  let l := get_files self tidy_fs false false in
  dry_run self = true ∧
  (∀ categories,
     let folder_of f :=
       type_folder (default DEFAULT_CATEGORIES categories) (Str.lower (Path.suffix f)) in
     let run := organize_by_type self tidy_fs categories false false in
     output run =
       Organizing (length l) "type" ::
       ((fun f => WouldMove f (Path.child (Path.joinpath (target_dir self) (folder_of f))
                                          (Path.name f))) <$> l) ∧
     ∀ k, default 0 (result run !! k) = length (filter (fun f => folder_of f = k) l)) ∧
  (∀ patterns,
     let folder_of f := pattern_folder patterns (Str.lower (Path.name f)) in
     let run := organize_by_name_pattern self tidy_fs patterns false false in
     output run =
       Organizing (length l) "name patterns" ::
       ((fun f => WouldMove f (Path.child (Path.joinpath (target_dir self) (folder_of f))
                                          (Path.name f))) <$> l) ∧
     ∀ k, default 0 (result run !! k) = length (filter (fun f => folder_of f = k) l)).
Proof.
  cbv zeta. split; [reflexivity|].
  apply (a_dry_run_reports_every_file (dry_organizer ["src"]) tidy_fs false false).
  reflexivity.
Defined.

(** ** Running the undo script again *)

Lemma undo_fold_missing source log acc :
  Forall (fun p => undo_files acc !! p = None) log →
  foldl (undo_body source) acc log =
  UndoState (undo_files acc) (success_count acc) (undo_output acc ++ (FileNotFound <$> log)).
Proof.
  revert acc. induction log as [|p log IH]; intros acc Hlog; simpl.
  - rewrite app_nil_r. by destruct acc.
  - apply Forall_cons in Hlog as [Hp Hlog]. rewrite undo_body_missing by done.
    rewrite IH by done. simpl. by rewrite <- app_assoc.
Qed.

Lemma entries_of_log (fs : filesystem) (log : list path) :
  Forall (fun r => FS.is_file fs r = true) log →
  ∃ entries : list (path * node),
    entries.*1 = log ∧ ∀ r n, (r, n) ∈ entries → fs !! r = Some n ∧ is_regular n.
Proof.
  induction 1 as [|r log Hr _ (entries & Hlog & Hent)].
  - exists []. split; [done | by intros ? ? ?%elem_of_nil].
  - unfold FS.is_file in Hr. destruct (fs !! r) as [[st data|]|] eqn:Hlook; try done.
    exists ((r, File st data) :: entries). split; [by rewrite fmap_cons, Hlog|].
    intros r' n [[= -> ->]|Hin]%elem_of_cons; [done | by apply Hent].
Qed.

(** X20.  The undo script does its work once.  When every logged path
    holds a regular file outside the source directory, and the source
    directory exists, the script moves every one of them; run a second
    time it finds none of its paths, prints "File not found" for each,
    moves nothing and leaves the file system as the first run left it.
    In general a script none of whose paths exist changes nothing. *)
Theorem the_undo_script_works_once source log fs :
  NoDup log →
  Forall (fun r => FS.is_file fs r = true ∧ Path.parent r ≠ source) log →
  fs !! source = Some Dir →
  let once := undo_organization (UndoScript log source) fs in
  let twice := undo_organization (UndoScript log source) (undo_files once) in
  (∀ r, r ∈ log → undo_files once !! r = None) ∧
  twice = UndoState (undo_files once) 0 ((FileNotFound <$> log) ++ [MovedBackTotal 0]) ∧
  (∀ fs', Forall (fun p => fs' !! p = None) log →
     undo_organization (UndoScript log source) fs'
     = UndoState fs' 0 ((FileNotFound <$> log) ++ [MovedBackTotal 0])).
Proof.
  intros Hnd Hlog Hsrc once twice.
  assert (∀ fs', Forall (fun p => fs' !! p = None) log →
     undo_organization (UndoScript log source) fs'
     = UndoState fs' 0 ((FileNotFound <$> log) ++ [MovedBackTotal 0])) as Hmissing.
  { intros fs' Hgone. unfold undo_organization. simpl.
    by rewrite (undo_fold_missing source log (UndoState fs' 0 [])). }
  assert (∀ r, r ∈ log → undo_files once !! r = None) as Hgone.
  { destruct (entries_of_log fs log) as (entries & Hfst & Hent).
    { eapply Forall_impl; [exact Hlog|]. by intros r [? _]. }
    subst once. unfold undo_organization. simpl. rewrite <- Hfst.
    destruct (undo_into_root source entries (UndoState fs 0 [])) as [Hback _].
    - by rewrite Hfst.
    - intros r n Hin. destruct (Hent r n Hin) as [? ?]. split_and!; [done|done|].
      rewrite Forall_forall in Hlog. apply (Hlog r). rewrite <- Hfst.
      apply list_elem_of_fmap. by exists (r, n).
    - done.
    - intros r Hr. apply list_elem_of_fmap in Hr as ([r' n] & -> & Hin).
      by destruct (Hback r' n Hin) as [? _]. }
  split_and!; [done| |done].
  subst twice. apply Hmissing. by apply Forall_forall.
Qed.

Lemma the_undo_script_works_once_witness :
  let log := [["Target"; "Images"; "photo.jpg"]] in
  let once := undo_organization (UndoScript log ["Source"]) taken_fs in
  let twice := undo_organization (UndoScript log ["Source"]) (undo_files once) in
  (NoDup log ∧
   Forall (fun r => FS.is_file taken_fs r = true ∧ Path.parent r ≠ ["Source"]) log ∧
   taken_fs !! ["Source"] = Some Dir) ∧
  (∀ r, r ∈ log → undo_files once !! r = None) ∧
  twice = UndoState (undo_files once) 0 ((FileNotFound <$> log) ++ [MovedBackTotal 0]) ∧
  (∀ fs', Forall (fun p => fs' !! p = None) log →
     undo_organization (UndoScript log ["Source"]) fs'
     = UndoState fs' 0 ((FileNotFound <$> log) ++ [MovedBackTotal 0])).
Proof.
  cbv zeta.
  assert (NoDup [["Target"; "Images"; "photo.jpg"]]) as H1
    by (apply NoDup_singleton).
  assert (Forall (fun r => FS.is_file taken_fs r = true ∧ Path.parent r ≠ ["Source"])
                 [["Target"; "Images"; "photo.jpg"]]) as H2
    by (repeat constructor; by vm_compute).
  assert (taken_fs !! ["Source"] = Some Dir) as H3 by by_evaluation.
  split; [exact (conj H1 (conj H2 H3))|].
  exact (the_undo_script_works_once ["Source"] _ taken_fs H1 H2 H3).
Defined.

(** ** Where a file can land *)

Lemma numbered_by_name t t' k : Path.name t = Path.name t' → numbered t k = numbered t' k.
Proof. intros H. unfold numbered, Path.stem, Path.suffix. by rewrite H. Qed.

(** A relocation adds at most one path to the move log: one directly in
    the folder it was given, named after the file or numbered. *)
Lemma relocate_landing acc f folder :
  moved_files (organizer (relocate acc f folder)) = moved_files (organizer acc) ∨
  ∃ t, moved_files (organizer (relocate acc f folder)) = moved_files (organizer acc) ++ [t] ∧
       Path.parent t = Path.joinpath (target_dir (organizer acc)) folder ∧
       (Path.name t = Path.name f ∨ ∃ k, 1 ≤ k ∧ Path.name t = numbered f k).
Proof.
  destruct (dry_run (organizer acc)) eqn:Hd.
  { left. by rewrite relocate_dry. }
  unfold relocate. rewrite move_file_live by done. cbv zeta.
  destruct (FS.mkdir _ _) as [e|fs1]; [by left|].
  set (tdir := Path.joinpath (target_dir (organizer acc)) folder).
  destruct (if copy_files (organizer acc) then _ else _); [by left|].
  right. eexists. split; [reflexivity|]. split; [apply resolve_parent|].
  destruct (resolve_live fs1 tdir (Path.child tdir (Path.name f)))
    as [_ [->|(_ & k & Hk & -> & _)]]; rewrite name_child.
  - by left.
  - right. exists k. split; [done|]. apply numbered_by_name, name_child.
Qed.

Section Landing.
Variable allowed : string → Prop.
Variable body : outcome stats → path → outcome stats.
Hypothesis body_step : ∀ acc f,
  (∃ folder, allowed folder ∧ body acc f = relocate acc f folder) ∨
  (∃ ev, body acc f = skip acc f ev).

Lemma fold_landing l acc :
  ∃ added,
    moved_files (organizer (foldl body acc l)) = moved_files (organizer acc) ++ added ∧
    Forall (fun t => ∃ f folder,
              f ∈ l ∧ allowed folder ∧
              Path.parent t = Path.joinpath (target_dir (organizer acc)) folder ∧
              (Path.name t = Path.name f ∨ ∃ k, 1 ≤ k ∧ Path.name t = numbered f k))
           added.
Proof.
  revert acc. induction l as [|f l IH]; intros acc; simpl.
  - exists []. by rewrite app_nil_r.
  - destruct (IH (body acc f)) as (added & Hm & Hall).
    assert (target_dir (organizer (body acc f)) = target_dir (organizer acc)) as Ht.
    { destruct (body_step acc f) as [(folder & _ & ->)|(ev & ->)]; [|done].
      by destruct (relocate_settings acc f folder) as (_ & <- & _). }
    rewrite Ht in Hall.
    assert (Forall (fun t => ∃ f' folder,
              f' ∈ f :: l ∧ allowed folder ∧
              Path.parent t = Path.joinpath (target_dir (organizer acc)) folder ∧
              (Path.name t = Path.name f' ∨ ∃ k, 1 ≤ k ∧ Path.name t = numbered f' k))
           added) as Hall'.
    { eapply Forall_impl; [exact Hall|]. intros t (f' & folder & ? & ?).
      exists f', folder. split; [by right | done]. }
    destruct (body_step acc f) as [(folder & Hok & Hb)|(ev & Hb)].
    + pose proof (relocate_landing acc f folder) as Hland. rewrite <- Hb in Hland.
      destruct Hland as [Hsame|(t & Hadd & Hpar & Hnm)].
      * exists added. by rewrite Hm, Hsame.
      * exists (t :: added). split; [by rewrite Hm, Hadd, <- app_assoc|].
        constructor; [|done]. exists f, folder. split; [by left | done].
    + exists added. split; [|done]. rewrite Hm. by rewrite Hb.
Qed.
End Landing.

Lemma size_folder_range size_ranges file_size :
  size_folder size_ranges file_size ∈ size_ranges.*1 ∨
  size_folder size_ranges file_size = "Unknown Size".
Proof.
  induction size_ranges as [|[range_name [lo hi]] rest IH]; [by right|].
  cbn [size_folder]. destruct (_ && _)%bool.
  - left. by left.
  - destruct IH as [IH|IH]; [left; by right | by right].
Qed.

Lemma pattern_folder_range patterns filename :
  pattern_folder patterns filename ∈ patterns.*1 ∨ pattern_folder patterns filename = "Others".
Proof.
  induction patterns as [|[folder_name pattern] rest IH]; [by right|].
  cbn [pattern_folder]. destruct (Str.contains _ _).
  - left. by left.
  - destruct IH as [IH|IH]; [left; by right | by right].
Qed.

Lemma default_folders_are_plain :
  Forall (fun c => ∀ p, Path.joinpath p c = Path.child p c)
         (DEFAULT_CATEGORIES.*1 ++ ["Others"] ++ DEFAULT_SIZE_RANGES.*1 ++ ["Unknown Size"]).
Proof. repeat constructor. Qed.

(** X21.  Under the table-driven strategies every path a run adds to the
    move log lies directly in the folder, under the target root, of one
    of the table's entries or of the fallback, and bears the name of a
    listed file or that name numbered.  With the default tables that
    folder is an immediate subdirectory of the target root: the folder
    names hold no separator. *)
Theorem every_file_lands_in_a_folder_of_the_table self fs recursive include_hidden :
  let l := get_files self fs recursive include_hidden in
  let lands_in (folders : list string) (fallback : string) (run : outcome stats) :=
    ∃ added,
      moved_files (organizer run) = moved_files self ++ added ∧
      Forall (fun t => ∃ f folder,
                f ∈ l ∧ (folder ∈ folders ∨ folder = fallback) ∧
                Path.parent t = Path.joinpath (target_dir self) folder ∧
                (Path.name t = Path.name f ∨ ∃ k, 1 ≤ k ∧ Path.name t = numbered f k))
             added in
  (∀ categories,
     lands_in (default DEFAULT_CATEGORIES categories).*1 "Others"
              (organize_by_type self fs categories recursive include_hidden)) ∧
  (∀ size_ranges,
     lands_in (default DEFAULT_SIZE_RANGES size_ranges).*1 "Unknown Size"
              (organize_by_size self fs size_ranges recursive include_hidden)) ∧
  (∀ patterns,
     lands_in patterns.*1 "Others"
              (organize_by_name_pattern self fs patterns recursive include_hidden)) ∧
  (∀ folder target,
     folder ∈ DEFAULT_CATEGORIES.*1 ∨ folder = "Others" ∨
     folder ∈ DEFAULT_SIZE_RANGES.*1 ∨ folder = "Unknown Size" →
     Path.joinpath target folder = Path.child target folder).
Proof.
  intros l lands_in. subst lands_in. cbv beta. split_and!.
  - intros categories. unfold organize_by_type, organize_by_type_loop. fold l.
    apply (fold_landing
             (fun folder => folder ∈ (default DEFAULT_CATEGORIES categories).*1 ∨
                            folder = "Others")
             (by_type_body (default DEFAULT_CATEGORIES categories))).
    intros acc f. left. eexists. split; [apply type_folder_range | reflexivity].
  - intros size_ranges. unfold organize_by_size, organize_by_size_loop. fold l.
    apply (fold_landing
             (fun folder => folder ∈ (default DEFAULT_SIZE_RANGES size_ranges).*1 ∨
                            folder = "Unknown Size")
             (by_size_body (default DEFAULT_SIZE_RANGES size_ranges))).
    intros acc f. unfold by_size_body. destruct (FS.stat _ _); [right; by eexists|].
    left. eexists. split; [apply size_folder_range | reflexivity].
  - intros patterns. unfold organize_by_name_pattern, organize_by_name_pattern_loop. fold l.
    apply (fold_landing (fun folder => folder ∈ patterns.*1 ∨ folder = "Others")
                        (by_name_pattern_body patterns)).
    intros acc f. left. eexists. split; [apply pattern_folder_range | reflexivity].
  - intros folder target H. pose proof default_folders_are_plain as Hplain.
    rewrite Forall_forall in Hplain. apply Hplain.
    rewrite !elem_of_app, !list_elem_of_singleton. tauto.
Qed.
